(** * Tudat orbit-determination post-processing (podProcessing.h)

    A shallow embedding of
    [Tudat/Astrodynamics/OrbitDetermination/podProcessing.h]:
    [getConcatenatedTimeVector], [getTimeOrderedInformationMatrix] and
    [calculateCovarianceMatrixAsFunctionOfTime].

    Conventions of the embedding.
    - [TimeType] is a template parameter of the source, [double] by default.
      A time is embedded as the rational [Q] that its finite value denotes, so
      that [<] and [==] on times are the exact comparisons, and two rationals
      denote the same time when they are [Qeq].  The one arithmetic operation
      on times, [currentTime += outputTimeStep], is the operation of
      [TimeType] (the class [TimeArithmetic]); for [double] it is the sum
      rounded to the nearest binary64 value, ties to even ([binary64.plus]).
      Infinities and NaN are not represented.
    - The matrix scalar is [double] in the source and is embedded as [Q] with
      exact sums and products; Eigen's [inverse( )] is a parameter.
    - Container sizes and indices are [nat] (the source stores the sort order
      in a [std::vector<int>] and compares sizes as [int], so sizes are assumed
      to fit); the observable size, an [int] that is compared with 1 and used
      as a loop bound, is a [Z].
    - A call either returns, throws, runs into undefined behaviour (an
      unchecked index out of bounds) or exhausts the fuel of a [while] loop:
      the type [outcome].
    - The functions that podProcessing.h calls and that are defined elsewhere
      in Tudat (the sorter, the lookup scheme, the updated inverse covariance)
      are modelled from the specification; Eigen's [inverse( )] and
      [getObservableSize] are parameters.  The constructor of the lookup
      scheme is taken to store the table and nothing else. *)

From Stdlib Require Import List Arith ZArith QArith Qround Qabs Qpower Lia Lqa Bool.
From Stdlib Require Import Sorting.Permutation Sorting.Sorted.
From Stdlib Require Import Floats.SpecFloat.
Import ListNotations.
#[local] Open Scope nat_scope.

(** ** Outcomes of a call *)

(** The exceptions of the source: the six [std::runtime_error]s of
    podProcessing.h, named after their messages, and the [std::out_of_range]
    of [std::vector::at]. *)
Inductive exception : Type :=
| APrioriCovarianceNotSquare
| ParametersInconsistentWithInformationMatrix
| ParametersInconsistentWithNormalizationFactors
| WeightsInconsistentWithPartials
| SortSizesIncompatible
| OutputTimeNotFound
| StdOutOfRange.

Inductive outcome (A : Type) : Type :=
| Return (a : A)
| Throw (e : exception)
| Undefined
| OutOfFuel.

Arguments Return {A} a.
Arguments Throw {A} e.
Arguments Undefined {A}.
Arguments OutOfFuel {A}.

Definition bind {A B : Type} (c : outcome A) (k : A -> outcome B) : outcome B :=
  match c with
  | Return a => k a
  | Throw e => Throw e
  | Undefined => Undefined
  | OutOfFuel => OutOfFuel
  end.

Declare Scope outcome_scope.
Delimit Scope outcome_scope with outcome.
Notation "x <- c ;; k" := (bind c (fun x => k))
  (at level 61, c at next level, right associativity) : outcome_scope.
Notation "'check' b 'orThrow' e ;; k" := (if b then k else Throw e)
  (at level 61, b at next level, e at next level, right associativity) : outcome_scope.
Open Scope outcome_scope.

(** A [for] loop over a container whose body can fail: the state is threaded
    through the elements in order, the first failure ends the loop. *)
Fixpoint foldOutcome {A S : Type} (body : S -> A -> outcome S) (l : list A) (s : S)
  : outcome S :=
  match l with
  | [] => Return s
  | x :: r => s' <- body s x ;; foldOutcome body r s'
  end.

Abbreviation TimeType := Q (only parsing).

(** [a < b] on times, as a boolean. *)
Definition Qlt_bool (a b : Q) : bool := negb (Qle_bool b a).

(** ** IEEE 754 binary64 *)

(** The finite values of a [double] are the rationals [m * 2^e] with
    [|m| < 2^53] and [-1074 <= e]; sums are rounded to the nearest of them,
    ties to the one with an even [m].  The largest exponent is not
    represented: a sum beyond the largest finite value stays a rational
    instead of becoming an infinity (the program only compares and looks up
    the times it adds). *)
Module binary64.

(** The integer nearest to [q], ties to the even one. *)
Definition roundHalfEven (q : Q) : Z :=
  let f := Qfloor q in
  match (q - inject_Z f ?= 1 # 2)%Q with
  | Lt => f
  | Gt => (f + 1)%Z
  | Eq => if Z.even f then f else (f + 1)%Z
  end.

(** For [q <> 0], the integer [k] with [2^k <= |q| < 2^(k+1)]: the difference
    of the bit lengths of numerator and denominator, or one less. *)
Definition ilog2 (q : Q) : Z :=
  let k := (Z.log2 (Z.abs (Qnum q)) - Z.log2 (Zpos (Qden q)))%Z in
  if Qle_bool (2 ^ k) (Qabs q) then k else (k - 1)%Z.

(** The exponent of the unit in the last place of the values around [q]: 53
    significant bits, and [2^-1074] for the subnormal values. *)
Definition ulpExponent (q : Q) : Z := Z.max (ilog2 q - 52) (-1074).

(** The [double] nearest to [q]. *)
Definition round (q : Q) : Q :=
  if Qeq_bool q 0 then 0%Q
  else let e := ulpExponent q in
       Qred (inject_Z (roundHalfEven (q / 2 ^ e)) * 2 ^ e).

(** [a + b] on [double]s. *)
Definition plus (a b : Q) : Q := round (a + b).

(** [q] is the value of a [double]. *)
Definition representable (q : Q) : Prop := (round q == q)%Q.

(** The value [q] of a [double] in the format of the Standard Library's
    specification of IEEE 754 arithmetic. *)
Definition toSpecFloat (q : Q) : spec_float :=
  if Qeq_bool q 0 then S754_zero false
  else match roundHalfEven (q / 2 ^ ulpExponent q) with
       | Zpos m => S754_finite false m (ulpExponent q)
       | Zneg m => S754_finite true m (ulpExponent q)
       | Z0 => S754_zero false
       end.

End binary64.

(** ** std::vector *)
Module Std.

(** [v.at( i )]: checked access. *)
Definition at_ {A : Type} (v : list A) (i : nat) : outcome A :=
  match nth_error v i with
  | Some x => Return x
  | None => Throw StdOutOfRange
  end.

(** [v[ i ]]: unchecked access. *)
Definition index {A : Type} (v : list A) (i : nat) : outcome A :=
  match nth_error v i with
  | Some x => Return x
  | None => Undefined
  end.

(** [i == v.size( ) - 1] with the unsigned [size( )]: [i + 1 == v.size( )].
    For an empty vector [size( ) - 1] wraps around to the largest value, which
    no index equals. *)
Definition isLastIndex {A : Type} (v : list A) (i : nat) : bool := S i =? length v.

(** [v[ v.size( ) - 1 ]]: out of bounds for an empty vector. *)
Definition indexLast {A : Type} (v : list A) : outcome A :=
  match v with
  | [] => Undefined
  | _ :: _ => index v (length v - 1)
  end.

(** [v[ i ] = x] for [i] in range (the list is unchanged otherwise). *)
Fixpoint set_nth {A : Type} (i : nat) (x : A) (v : list A) : list A :=
  match v, i with
  | [], _ => []
  | _ :: r, O => x :: r
  | y :: r, S j => y :: set_nth j x r
  end.

End Std.

(** ** Eigen dense matrices and vectors *)

(** An access by index is unchecked in Eigen (an assertion in debug builds):
    out of range it is [Undefined].  Eigen also asserts that the sizes of the
    operands of a product or a sum agree; the operations below are total, and
    the consistency checks of the function are what makes the sizes agree. *)
Module Eigen.

Definition VectorXd : Type := list Q.

(** A dynamic matrix: its column count and its rows.  The column count is kept
    apart, since a matrix with no row still has one. *)
Record MatrixXd : Type := mkMatrix { cols : nat; rowData : list (list Q) }.

Definition rows (M : MatrixXd) : nat := length (rowData M).

Definition Zero (r c : nat) : MatrixXd := mkMatrix c (repeat (repeat 0%Q c) r).

Definition VectorZero (r : nat) : VectorXd := repeat 0%Q r.

(** [M.block( i, 0, 1, M.cols( ) )] read. *)
Definition rowBlock (M : MatrixXd) (i : nat) : outcome (list Q) :=
  match nth_error (rowData M) i with
  | Some r => Return r
  | None => Undefined
  end.

(** [M.block( i, 0, 1, M.cols( ) ) = r]. *)
Definition assignRowBlock (M : MatrixXd) (i : nat) (r : list Q) : outcome MatrixXd :=
  if i <? rows M then Return (mkMatrix (cols M) (Std.set_nth i r (rowData M)))
  else Undefined.

(** [v( i )] read and [v( i ) = x]. *)
Definition coeff (v : VectorXd) (i : nat) : outcome Q :=
  match nth_error v i with
  | Some x => Return x
  | None => Undefined
  end.

Definition assignCoeff (v : VectorXd) (i : nat) (x : Q) : outcome VectorXd :=
  if i <? length v then Return (Std.set_nth i x v) else Undefined.

(** [M.block( 0, 0, k, M.cols( ) )]. *)
Definition topRows (M : MatrixXd) (k : nat) : outcome MatrixXd :=
  if k <=? rows M then Return (mkMatrix (cols M) (firstn k (rowData M)))
  else Undefined.

(** [v.segment( 0, k )]. *)
Definition headSegment (v : VectorXd) (k : nat) : outcome VectorXd :=
  if k <=? length v then Return (firstn k v) else Undefined.

(** [v.asDiagonal( )]. *)
Definition asDiagonal (v : VectorXd) : MatrixXd :=
  let n := length v in
  mkMatrix n (map (fun i => map (fun j => if i =? j then nth i v 0%Q else 0%Q) (seq 0 n))
                  (seq 0 n)).

Definition column (M : MatrixXd) (j : nat) : list Q :=
  map (fun r => nth j r 0%Q) (rowData M).

Definition transpose (M : MatrixXd) : MatrixXd :=
  mkMatrix (rows M) (map (column M) (seq 0 (cols M))).

Definition dot (u v : list Q) : Q :=
  fold_left (fun acc p => (acc + fst p * snd p)%Q) (combine u v) 0%Q.

(** [A * B]. *)
Definition mul (A B : MatrixXd) : MatrixXd :=
  mkMatrix (cols B)
    (map (fun r => map (fun j => dot r (column B j)) (seq 0 (cols B))) (rowData A)).

(** [A + B]. *)
Definition add (A B : MatrixXd) : MatrixXd :=
  mkMatrix (cols A)
    (map (fun p => map (fun q => (fst q + snd q)%Q) (combine (fst p) (snd p)))
         (combine (rowData A) (rowData B))).

(** [VectorXd::Zero( n, 1 )] for an [int] size: a negative size fails Eigen's
    assertion. *)
Definition VectorZeroOfInt (n : Z) : outcome VectorXd :=
  if (n <? 0)%Z then Undefined else Return (VectorZero (Z.to_nat n)).

(** [v.segment( start, block.rows( ) ) = block]. *)
Definition assignSegment (v : VectorXd) (start : nat) (block : VectorXd)
  : outcome VectorXd :=
  if start + length block <=? length v
  then Return (firstn start v ++ block ++ skipn (start + length block) v)
  else Undefined.

End Eigen.

Import Eigen.

(** The parts of Tudat and Eigen that podProcessing.h uses and does not define:
    the observation-model types with [getObservableSize], and Eigen's
    [inverse( )]. *)
Class ObservationModels : Type := {
  ObservableType : Type;
  LinkEnds : Type;
  LinkEndType : Type;
  (** [observation_models::getObservableSize]. *)
  getObservableSize : ObservableType -> Z
}.

Class DenseInverse : Type := {
  (** [Eigen::MatrixXd::inverse( )]: total, it never throws. *)
  inverse : MatrixXd -> MatrixXd
}.

(** The arithmetic of the template parameter [TimeType]. *)
Class TimeArithmetic : Type := {
  (** [currentTime += outputTimeStep] (line 240), the step a [double]. *)
  plusAssign : TimeType -> Q -> TimeType
}.

(** ** tudat::utilities *)
Module utilities.

(** Modelled from the spec: a step of the stable sort of spec 4.2, the
    insertion of a (time, index) pair after every pair whose time is not
    greater, so that ties keep the order in which they arrive. *)
Fixpoint insertByTime (p : TimeType * nat) (l : list (TimeType * nat))
  : list (TimeType * nat) :=
  match l with
  | [] => [p]
  | q :: r => if Qlt_bool (fst p) (fst q) then p :: l else q :: insertByTime p r
  end.

(** Modelled from the spec: the (time, index) pairs of the input, sorted by
    the insertions above in the order of the input. *)
Definition sortedPairs (unsortedVector : list TimeType) : list (TimeType * nat) :=
  fold_left (fun sortMap p => insertByTime p sortMap)
            (combine unsortedVector (seq 0 (length unsortedVector))) [].

(** Modelled from the spec: [utilities::getSortOrderOfVectorAndSortedVector]
    is called by podProcessing.h and defined elsewhere in Tudat.  Spec 4.2: it
    returns a permutation of the indices and the sorted sequence, the times
    ascending, ties keeping their original order (a stable sort). *)
Definition getSortOrderOfVectorAndSortedVector (unsortedVector : list TimeType)
  : list nat * list TimeType :=
  (map snd (sortedPairs unsortedVector), map fst (sortedPairs unsortedVector)).

End utilities.

(** ** tudat::interpolators *)
Module interpolators.

(** Modelled from the spec: the scan behind the lookup of spec 4.4, which
    keeps the last index whose value is not above [t] ([best] when there is
    none). *)
Fixpoint lastIndexNotAbove (values : list TimeType) (t : TimeType) (i best : nat) : nat :=
  match values with
  | [] => best
  | x :: r => lastIndexNotAbove r t (S i) (if Qle_bool x t then i else best)
  end.

(** Modelled from the spec: [BinarySearchLookupScheme::findNearestLowerNeighbour]
    is called by podProcessing.h and defined elsewhere in Tudat.  Spec 4.4: the
    largest index [i] such that [values[i] <= t], clamped to the valid range
    (the rightmost index among duplicates; index 0 for a query below every
    value, the last index for a query above every value). *)
Definition findNearestLowerNeighbour (values : list TimeType) (t : TimeType) : nat :=
  lastIndexNotAbove values t 0 0.

End interpolators.

(** ** tudat::linear_algebra *)
Module linear_algebra.

(** Modelled from the spec: [linear_algebra::calculateInverseOfUpdatedCovarianceMatrix]
    is called by podProcessing.h and defined elsewhere in Tudat.  Spec 4.5:
    a-priori-inverse + (information matrix)^T * diag(weights) * (information matrix). *)
Definition calculateInverseOfUpdatedCovarianceMatrix
  (informationMatrix : MatrixXd) (diagonalOfWeightMatrix : VectorXd)
  (inverseOfAPrioriCovarianceMatrix : MatrixXd) : MatrixXd :=
  add inverseOfAPrioriCovarianceMatrix
      (mul (mul (transpose informationMatrix) (asDiagonal diagonalOfWeightMatrix))
           informationMatrix).

End linear_algebra.

(** ** tudat::simulation_setup: podProcessing.h *)
Module simulation_setup.

(** [std::map< TimeType, Eigen::MatrixXd >]: the entries in ascending key
    order. *)
Definition History : Type := list (TimeType * MatrixXd).

(** [history[ key ] = value]: the value of an equal key is replaced (the stored
    key stays), a new key is inserted at its place in the order. *)
Fixpoint assign (key : TimeType) (value : MatrixXd) (history : History) : History :=
  match history with
  | [] => [(key, value)]
  | (k, v) :: r =>
      match (key ?= k)%Q with
      | Lt => (key, value) :: history
      | Eq => (k, value) :: r
      | Gt => (k, v) :: assign key value r
      end
  end.

Section PodProcessing.

Context {OM : ObservationModels} {DI : DenseInverse} {TA : TimeArithmetic}.

(** [OrbitDeterminationManager::SingleObservablePodInputType] and
    [PodInputType]: the maps as their entries in iteration (key) order; an
    entry holds the observations, the times and the reference link end. *)
Definition SingleObservablePodInputType : Type :=
  list (LinkEnds * (VectorXd * (list TimeType * LinkEndType))).

Definition PodInputType : Type := list (ObservableType * SingleObservablePodInputType).

(** Lines 55-63: the time tag of every observation, [currentObservableSize]
    times. *)
Definition copyTimeTags (currentObservableSize : Z) (originalTimesList : list TimeType)
  : list TimeType :=
  fold_left (fun currentTimesList t =>
               currentTimesList ++ repeat t (Z.to_nat currentObservableSize))
            originalTimesList [].

Definition getConcatenatedTimeVector (measurementData : PodInputType) : list TimeType :=
  fold_left
    (fun concatenatedTimes observables =>
       let currentObservableSize := getObservableSize (fst observables) in
       fold_left
         (fun concatenatedTimes data =>
            let times := fst (snd (snd data)) in
            if (currentObservableSize =? 1)%Z then concatenatedTimes ++ times
            else concatenatedTimes ++ copyTimeTags currentObservableSize times)
         (snd observables) concatenatedTimes)
    measurementData [].

(** Lines 82-110.  [OrbitDeterminationManager::getNumberOfObservationsPerObservable]
    is defined elsewhere in Tudat: it is an argument, of which only the second
    component of the result (the total) is read. *)
Definition getConcatenatedMeasurementVector
  (getNumberOfObservationsPerObservable : PodInputType -> list (ObservableType * Z) * Z)
  (measurementData : PodInputType) : outcome VectorXd :=
  let totalNumberOfObservations :=
    snd (getNumberOfObservationsPerObservable measurementData) in
  concatenatedObservations <- VectorZeroOfInt totalNumberOfObservations ;;
  st <- foldOutcome
          (fun st observables =>
             foldOutcome
               (fun st data =>
                  let concatenatedObservations := fst st in
                  let currentIndex := snd st in
                  v <- assignSegment concatenatedObservations currentIndex (fst (snd data)) ;;
                  Return (v, currentIndex + length (fst (snd data))))
               (snd observables) st)
          measurementData (concatenatedObservations, 0) ;;
  Return (fst st).

(** Lines 151-155: row [i] of the sorted matrix becomes row
    [timeVectorSortOrder[ i ]] of the input, for [i] from the given index on. *)
Fixpoint reorderRows (typeAndLinkSortedInformationMatrix : MatrixXd)
  (timeVectorSortOrder : list nat) (i : nat) (sortedMatrix : MatrixXd)
  : outcome MatrixXd :=
  match timeVectorSortOrder with
  | [] => Return sortedMatrix
  | p :: rest =>
      r <- rowBlock typeAndLinkSortedInformationMatrix p ;;
      s <- assignRowBlock sortedMatrix i r ;;
      reorderRows typeAndLinkSortedInformationMatrix rest (S i) s
  end.

(** Returns the pair of the source and the value of the reference argument
    [timeOrder]. *)
Definition getTimeOrderedInformationMatrix (measurementData : PodInputType)
  (typeAndLinkSortedInformationMatrix : MatrixXd)
  : outcome ((MatrixXd * list TimeType) * list nat) :=
  let concatenatedTimes := getConcatenatedTimeVector measurementData in
  let sortOutput := utilities.getSortOrderOfVectorAndSortedVector concatenatedTimes in
  let timeOrder := fst sortOutput in
  let timeVectorSortOrder := fst sortOutput in
  check (length timeVectorSortOrder =? rows typeAndLinkSortedInformationMatrix)
    orThrow SortSizesIncompatible ;;
  sortedMatrix <- reorderRows typeAndLinkSortedInformationMatrix timeVectorSortOrder 0
                    (Zero (rows typeAndLinkSortedInformationMatrix)
                          (cols typeAndLinkSortedInformationMatrix)) ;;
  Return ((sortedMatrix, snd sortOutput), timeOrder).

(** Lines 216-219. *)
Fixpoint reorderWeights (diagonalOfWeightMatrix : VectorXd) (timeOrder : list nat)
  (i : nat) (timeOrderedDiagonalOfWeightMatrix : VectorXd) : outcome VectorXd :=
  match timeOrder with
  | [] => Return timeOrderedDiagonalOfWeightMatrix
  | p :: rest =>
      x <- coeff diagonalOfWeightMatrix p ;;
      v <- assignCoeff timeOrderedDiagonalOfWeightMatrix i x ;;
      reorderWeights diagonalOfWeightMatrix rest (S i) v
  end.

(** Lines 247-254: the inner [while]. *)
Fixpoint extendThroughTies (fuel : nat) (orderedTimeVector : list TimeType)
  (currentIndex : nat) : outcome nat :=
  match fuel with
  | O => OutOfFuel
  | S fuel' =>
      a <- Std.at_ orderedTimeVector currentIndex ;;
      b <- Std.at_ orderedTimeVector (currentIndex + 1) ;;
      if Qeq_bool a b then
        let currentIndex := S currentIndex in
        if Std.isLastIndex orderedTimeVector currentIndex then Return currentIndex
        else extendThroughTies fuel' orderedTimeVector currentIndex
      else Return currentIndex
  end.

Section CovarianceLoop.

(** [timeLookup] is the lookup scheme of lines 222-223, as the function from
    a query time to the index that its [findNearestLowerNeighbour] returns. *)
Variables (orderedTimeVector : list TimeType)
          (timeLookup : TimeType -> nat)
          (timeOrderedMatrix : MatrixXd)
          (timeOrderedDiagonalOfWeightMatrix : VectorXd)
          (unnormalizationMatrix : MatrixXd)
          (outputTimeStep : Q)
          (normalizedInverseAPrioriCovariance : MatrixXd).

(** Lines 243-255: the index of the row at which the prefix of an output time
    ends.  The inner loop is entered at most once per row, which bounds its
    fuel. *)
Definition findCurrentIndex (currentTime : TimeType) : outcome nat :=
  let currentIndex := timeLookup currentTime in
  if negb (Std.isLastIndex orderedTimeVector currentIndex)
  then extendThroughTies (S (length orderedTimeVector)) orderedTimeVector currentIndex
  else Return currentIndex.

(** Lines 263-270: the value stored for the prefix that ends at row
    [currentIndex]. *)
Definition covarianceUpTo (currentIndex : nat) : outcome MatrixXd :=
  currentInformationMatrix <- topRows timeOrderedMatrix (currentIndex + 1) ;;
  weights <- headSegment timeOrderedDiagonalOfWeightMatrix (currentIndex + 1) ;;
  let currentInverseNormalizedCovarianceMatrix :=
    linear_algebra.calculateInverseOfUpdatedCovarianceMatrix
      currentInformationMatrix weights normalizedInverseAPrioriCovariance in
  Return (mul (mul (inverse unnormalizationMatrix)
                   (inverse currentInverseNormalizedCovarianceMatrix))
              (inverse unnormalizationMatrix)).

(** Lines 239-270: one pass through the body of the outer [while]. *)
Definition loopBody (currentTime : TimeType) (covarianceMatrixHistory : History)
  : outcome (TimeType * History) :=
  let currentTime := plusAssign currentTime outputTimeStep in
  currentIndex <- findCurrentIndex currentTime ;;
  check negb (length orderedTimeVector <=? currentIndex) orThrow OutputTimeNotFound ;;
  value <- covarianceUpTo currentIndex ;;
  key <- Std.at_ orderedTimeVector currentIndex ;;
  Return (currentTime, assign key value covarianceMatrixHistory).

(** Lines 237-271: the outer [while]. *)
Fixpoint covarianceLoop (fuel : nat) (currentTime : TimeType)
  (covarianceMatrixHistory : History) : outcome History :=
  match fuel with
  | O => OutOfFuel
  | S fuel' =>
      last <- Std.indexLast orderedTimeVector ;;
      if Qlt_bool currentTime last then
        st <- loopBody currentTime covarianceMatrixHistory ;;
        covarianceLoop fuel' (fst st) (snd st)
      else Return covarianceMatrixHistory
  end.

End CovarianceLoop.

(** Lines 185-206: the consistency checks. *)
Definition checkInputConsistency (typeAndLinkSortedNormalizedInformationMatrix : MatrixXd)
  (normalizationFactors diagonalOfWeightMatrix : VectorXd)
  (normalizedInverseAPrioriCovariance : MatrixXd) : outcome unit :=
  check (cols normalizedInverseAPrioriCovariance =? rows normalizedInverseAPrioriCovariance)
    orThrow APrioriCovarianceNotSquare ;;
  let totalNumberOfParameters := cols normalizedInverseAPrioriCovariance in
  check (cols typeAndLinkSortedNormalizedInformationMatrix =? totalNumberOfParameters)
    orThrow ParametersInconsistentWithInformationMatrix ;;
  check (length normalizationFactors =? totalNumberOfParameters)
    orThrow ParametersInconsistentWithNormalizationFactors ;;
  check (rows typeAndLinkSortedNormalizedInformationMatrix =? length diagonalOfWeightMatrix)
    orThrow WeightsInconsistentWithPartials ;;
  Return tt.

(** The function; [fuel] bounds the passes through the outer [while]. *)
Definition calculateCovarianceMatrixAsFunctionOfTime (fuel : nat)
  (measurementData : PodInputType)
  (typeAndLinkSortedNormalizedInformationMatrix : MatrixXd)
  (normalizationFactors : VectorXd)
  (outputTimeStep : Q)
  (diagonalOfWeightMatrix : VectorXd)
  (normalizedInverseAPrioriCovariance : MatrixXd) : outcome History :=
  _ <- checkInputConsistency typeAndLinkSortedNormalizedInformationMatrix
         normalizationFactors diagonalOfWeightMatrix normalizedInverseAPrioriCovariance ;;
  timeOrdered <- getTimeOrderedInformationMatrix measurementData
                   typeAndLinkSortedNormalizedInformationMatrix ;;
  let timeOrderedMatrixOutput := fst timeOrdered in
  let timeOrder := snd timeOrdered in
  let orderedTimeVector := snd timeOrderedMatrixOutput in
  timeOrderedDiagonalOfWeightMatrix <-
    reorderWeights diagonalOfWeightMatrix timeOrder 0
                   (VectorZero (length diagonalOfWeightMatrix)) ;;
  let timeLookup := interpolators.findNearestLowerNeighbour orderedTimeVector in
  let unnormalizationMatrix := asDiagonal normalizationFactors in
  currentTime <- Std.index orderedTimeVector 0 ;;
  covarianceLoop orderedTimeVector timeLookup (fst timeOrderedMatrixOutput)
                 timeOrderedDiagonalOfWeightMatrix unnormalizationMatrix
                 outputTimeStep normalizedInverseAPrioriCovariance
                 fuel currentTime [].

End PodProcessing.

End simulation_setup.

(** ** tudat::orbital_element_conversions: unifiedStateModelElementConversions.h *)
Module orbital_element_conversions.

(** What the two templates of the header use and do not define: the casts
    between [ScalarType] and [double], the Cartesian/Keplerian conversions
    (templates on [ScalarType]) and the Keplerian/unified-state-model
    conversions that the header declares (on [double]).  A fixed-size
    [Eigen::Matrix< ScalarType, n, 1 >] is the list of its coefficients. *)
Class ElementConversions (ScalarType : Type) : Type := {
  castToDouble : ScalarType -> Q;
  castFromDouble : Q -> ScalarType;
  convertCartesianToKeplerianElements : list ScalarType -> ScalarType -> list ScalarType;
  convertKeplerianToCartesianElements : list ScalarType -> ScalarType -> list ScalarType;
  convertKeplerianToUnifiedStateModelWithQuaternionsElements : list Q -> Q -> list Q;
  convertUnifiedStateModelWithQuaternionsToKeplerianElements : list Q -> Q -> list Q
}.

Section Conversions.

Context {ScalarType : Type} {EC : ElementConversions ScalarType}.

(** Lines 98-111.  The gravitational parameter, a [ScalarType], is converted to
    the [double] that the second call takes. *)
Definition convertCartesianToUnifiedStateModelWithQuaternionsElements
  (cartesianElements : list ScalarType) (centralBodyGravitationalParameter : ScalarType)
  : list ScalarType :=
  let convertedKeplerianElements :=
    convertCartesianToKeplerianElements cartesianElements centralBodyGravitationalParameter in
  map castFromDouble
      (convertKeplerianToUnifiedStateModelWithQuaternionsElements
         (map castToDouble convertedKeplerianElements)
         (castToDouble centralBodyGravitationalParameter)).

(** Lines 134-150. *)
Definition convertUnifiedStateModelWithQuaternionsToCartesianElements
  (unifiedStateModelElements : list ScalarType) (centralBodyGravitationalParameter : ScalarType)
  : list ScalarType :=
  let convertedKeplerianElements :=
    map castFromDouble
        (convertUnifiedStateModelWithQuaternionsToKeplerianElements
           (map castToDouble unifiedStateModelElements)
           (castToDouble centralBodyGravitationalParameter)) in
  convertKeplerianToCartesianElements convertedKeplerianElements
                                      centralBodyGravitationalParameter.

End Conversions.

End orbital_element_conversions.

(** ** tudat::spaceTrajectories: captureLeg.cpp *)

(** The leg flags "not calculated yet" by a NaN in its velocity after
    departure, so a [double] is here a rational or NaN; the sum is exact on
    rationals and NaN as soon as an operand is.  captureLeg.h is not among the
    sources: the members are the ones the four methods use, and the pointer
    [velocityBeforeDepartureBodyPtr_] is taken to be valid, the vector it
    points to at the time of a call being an argument of the call. *)
Module spaceTrajectories.

Inductive double : Type :=
| NaN
| Finite (q : Q).

(** [std::isnan]. *)
Definition isnan (d : double) : bool :=
  match d with
  | NaN => true
  | Finite _ => false
  end.

Definition plus (a b : double) : double :=
  match a, b with
  | Finite p, Finite q => Finite (p + q)
  | _, _ => NaN
  end.

Definition minus (a b : double) : double :=
  match a, b with
  | Finite p, Finite q => Finite (p - q)
  | _, _ => NaN
  end.

(** [Eigen::Vector3d]. *)
Record Vector3d : Type := mkVector3d { coeff0 : double; coeff1 : double; coeff2 : double }.

Definition vectorMinus (a b : Vector3d) : Vector3d :=
  mkVector3d (minus (coeff0 a) (coeff0 b)) (minus (coeff1 a) (coeff1 b))
             (minus (coeff2 a) (coeff2 b)).

(** [v.resize( n )] of a [std::vector]: the first [n] elements, completed by
    new elements. *)
Definition resize {A : Type} (n : nat) (new : A) (v : list A) : list A :=
  firstn n v ++ repeat new (n - length v).

(** What the methods use and do not define: the delta V of escape or capture,
    the trajectory sampler of exportTrajectory.h (which fills the two vectors
    it gets by reference), Eigen's [norm( )], and the coefficients and value
    of an element that [resize] creates. *)
Class MissionSegments : Type := {
  computeEscapeOrCaptureDeltaV : double -> double -> double -> double -> double;
  returnTrajectory :
    list double -> double -> double -> double -> list Vector3d -> list double -> double ->
    list Vector3d * list double;
  norm : Vector3d -> double;
  newVector3d : Vector3d;
  newDouble : double
}.

Record CaptureLeg : Type := mkCaptureLeg {
  departureBodyPosition_ : Vector3d;
  departureBodyVelocity_ : Vector3d;
  velocityAfterDeparture_ : Vector3d;
  deltaV_ : double;
  timeOfFlight_ : double;
  centralBodyGravitationalParameter_ : double;
  captureBodyGravitationalParameter_ : double;
  semiMajorAxis_ : double;
  eccentricity_ : double
}.

Definition setVelocityAfterDeparture (v : Vector3d) (leg : CaptureLeg) : CaptureLeg :=
  mkCaptureLeg (departureBodyPosition_ leg) (departureBodyVelocity_ leg) v (deltaV_ leg)
               (timeOfFlight_ leg) (centralBodyGravitationalParameter_ leg)
               (captureBodyGravitationalParameter_ leg) (semiMajorAxis_ leg)
               (eccentricity_ leg).

Definition setDeltaV (d : double) (leg : CaptureLeg) : CaptureLeg :=
  mkCaptureLeg (departureBodyPosition_ leg) (departureBodyVelocity_ leg)
               (velocityAfterDeparture_ leg) d
               (timeOfFlight_ leg) (centralBodyGravitationalParameter_ leg)
               (captureBodyGravitationalParameter_ leg) (semiMajorAxis_ leg)
               (eccentricity_ leg).

Definition setTimeOfFlight (t : double) (leg : CaptureLeg) : CaptureLeg :=
  mkCaptureLeg (departureBodyPosition_ leg) (departureBodyVelocity_ leg)
               (velocityAfterDeparture_ leg) (deltaV_ leg)
               t (centralBodyGravitationalParameter_ leg)
               (captureBodyGravitationalParameter_ leg) (semiMajorAxis_ leg)
               (eccentricity_ leg).

Section CaptureLegMethods.

Context {MS : MissionSegments}.

(** The vector [*velocityBeforeDepartureBodyPtr_] at the time of the call. *)
Variable velocityBeforeDepartureBody : Vector3d.

(** Lines 44-62: the leg after the call, and the values of the two reference
    arguments [velocityBeforeArrivalBody] and [deltaV]. *)
Definition calculateLeg (leg : CaptureLeg) : CaptureLeg * (Vector3d * double) :=
  let velocityBeforeArrivalBody := mkVector3d NaN NaN NaN in
  let leg := setVelocityAfterDeparture (departureBodyVelocity_ leg) leg in
  let leg :=
    setDeltaV (computeEscapeOrCaptureDeltaV
                 (captureBodyGravitationalParameter_ leg) (semiMajorAxis_ leg)
                 (eccentricity_ leg)
                 (norm (vectorMinus velocityBeforeDepartureBody (departureBodyVelocity_ leg))))
              leg in
  (leg, (velocityBeforeArrivalBody, deltaV_ leg)).

(** Lines 70-78 and 96-104: the leg is calculated if its velocity after
    departure still starts with a NaN. *)
Definition calculateIfNeeded (leg : CaptureLeg) : CaptureLeg :=
  if isnan (coeff0 (velocityAfterDeparture_ leg)) then fst (calculateLeg leg) else leg.

(** Lines 65-88: the leg after the call, and the two vectors. *)
Definition intermediatePoints (maximumTimeStep : double)
  (positionVector : list Vector3d) (timeVector : list double) (startingTime : double)
  (leg : CaptureLeg) : CaptureLeg * (list Vector3d * list double) :=
  let leg := calculateIfNeeded leg in
  let initialState :=
    [ coeff0 (departureBodyPosition_ leg); coeff1 (departureBodyPosition_ leg);
      coeff2 (departureBodyPosition_ leg);
      coeff0 (velocityAfterDeparture_ leg); coeff1 (velocityAfterDeparture_ leg);
      coeff2 (velocityAfterDeparture_ leg) ] in
  (leg, returnTrajectory initialState (centralBodyGravitationalParameter_ leg)
                         (timeOfFlight_ leg) maximumTimeStep positionVector timeVector
                         startingTime).

(** Lines 91-115: the leg after the call, and the three vectors. *)
Definition maneuvers (positionVector : list Vector3d) (timeVector deltaVVector : list double)
  (startingTime : double) (leg : CaptureLeg)
  : CaptureLeg * (list Vector3d * list double * list double) :=
  let leg := calculateIfNeeded leg in
  let positionVector := resize 1 newVector3d positionVector in
  let timeVector := resize 1 newDouble timeVector in
  let deltaVVector := resize 1 newDouble deltaVVector in
  let positionVector := Std.set_nth 0 (departureBodyPosition_ leg) positionVector in
  let timeVector := Std.set_nth 0 (plus (Finite 0) startingTime) timeVector in
  let deltaVVector := Std.set_nth 0 (deltaV_ leg) deltaVVector in
  (leg, (positionVector, timeVector, deltaVVector)).

End CaptureLegMethods.

(** Lines 117-120: [variableVector[ 0 ]] is an unchecked access. *)
Definition updateDefiningVariables (variableVector : list double) (leg : CaptureLeg)
  : outcome CaptureLeg :=
  match variableVector with
  | [] => Undefined
  | timeOfFlight :: _ => Return (setTimeOfFlight timeOfFlight leg)
  end.

End spaceTrajectories.

(** ** Instances used in the worked examples *)

(** An exact inverse by Gauss-Jordan elimination on the rows of [A | I],
    standing for Eigen's [inverse( )] in the examples.  For a singular argument
    Eigen's result has non-finite coefficients, which [Q] does not have: the
    value is then the rows the elimination is left with. *)
Module ExactInverse.

Definition scaleRow (c : Q) (r : list Q) : list Q := map (fun x => Qred (c * x)) r.

(** [s - s[k] * pivotRow]. *)
Definition eliminateRow (k : nat) (pivotRow s : list Q) : list Q :=
  let c := nth k s 0%Q in
  map (fun p => Qred (fst p - c * snd p)) (combine s pivotRow).

(** The first row with a non-zero coefficient in column [k], and the others. *)
Fixpoint findPivot (k : nat) (rest : list (list Q))
  : option (list Q * list (list Q)) :=
  match rest with
  | [] => None
  | r :: rs =>
      if Qeq_bool (nth k r 0%Q) 0 then
        match findPivot k rs with
        | Some (p, others) => Some (p, r :: others)
        | None => None
        end
      else Some (r, rs)
  end.

Definition pivotStep (st : list (list Q) * list (list Q)) (k : nat)
  : list (list Q) * list (list Q) :=
  let (done, rest) := st in
  match findPivot k rest with
  | Some (p, others) =>
      let p' := scaleRow (/ nth k p 0%Q) p in
      (map (eliminateRow k p') done ++ [p'], map (eliminateRow k p') others)
  | None => st
  end.

Definition augmented (A : MatrixXd) : list (list Q) :=
  map (fun p => snd p ++ map (fun j => if fst p =? j then 1%Q else 0%Q) (seq 0 (cols A)))
      (combine (seq 0 (rows A)) (rowData A)).

Definition exactInverse (A : MatrixXd) : MatrixXd :=
  let (done, rest) := fold_left pivotStep (seq 0 (cols A)) ([], augmented A) in
  mkMatrix (cols A) (map (skipn (cols A)) (done ++ rest)).

End ExactInverse.

#[local] Instance exactDenseInverse : DenseInverse :=
  {| inverse := ExactInverse.exactInverse |}.

(** A [TimeType] whose addition is exact. *)
#[local] Instance exactTime : TimeArithmetic :=
  {| plusAssign := Qplus |}.

(** [TimeType = double]. *)
#[local] Instance doubleTime : TimeArithmetic :=
  {| plusAssign := binary64.plus |}.

(** Observable types named by their size, link ends by a number. *)
#[local] Instance sizedObservables : ObservationModels :=
  {| ObservableType := Z; LinkEnds := nat; LinkEndType := unit;
     getObservableSize := fun size => size |}.

Import simulation_setup.

(** * The vocabulary of the statements *)

Section Vocabulary.

Context {OM : ObservationModels} {DI : DenseInverse} {TA : TimeArithmetic}.

(** ** The collator *)

(** The times of one (link ends, data) entry. *)
Definition timesOf (data : LinkEnds * (VectorXd * (list TimeType * LinkEndType)))
  : list TimeType := fst (snd (snd data)).

(** The number of scalar observations the collator is to produce: the sum over
    the entries of (sample count) * (observable size). *)
Definition totalNumberOfObservations (measurementData : PodInputType) : Z :=
  fold_right
    (fun observables total =>
       fold_right
         (fun data total =>
            (Z.of_nat (length (timesOf data)) * getObservableSize (fst observables) + total)%Z)
         total (snd observables))
    0%Z measurementData.

(** The time tags one entry contributes. *)
Definition timeTagsOfEntry (size : Z) (times : list TimeType) : list TimeType :=
  flat_map (fun t => repeat t (Z.to_nat size)) times.

(** ** The sorter and the reindexer *)

(** The order of two (time, index) pairs by their times. *)
Definition timeLe (p q : TimeType * nat) : Prop := (fst p <= fst q)%Q.

(** The rows (coefficients) of the input in the given order. *)
Definition permuteRows (order : list nat) (M : MatrixXd) : MatrixXd :=
  mkMatrix (cols M) (map (fun p => nth p (rowData M) []) order).

Definition permuteCoeffs (order : list nat) (v : VectorXd) : VectorXd :=
  map (fun p => nth p v 0%Q) order.

(** The time-ordered table of an input: sort order and sorted times. *)
Definition sortOrderOf (md : PodInputType) : list nat :=
  fst (utilities.getSortOrderOfVectorAndSortedVector (getConcatenatedTimeVector md)).

Definition orderedTimesOf (md : PodInputType) : list TimeType :=
  snd (utilities.getSortOrderOfVectorAndSortedVector (getConcatenatedTimeVector md)).

(** [t0] is the earliest, [tl] the latest observation time of [v]. *)
Definition isEarliest (t0 : TimeType) (v : list TimeType) : Prop :=
  In t0 v /\ forall x, In x v -> (t0 <= x)%Q.

Definition isLatest (tl : TimeType) (v : list TimeType) : Prop :=
  In tl v /\ forall x, In x v -> (x <= tl)%Q.

(** ** The consistency checks *)

(** The four conditions of lines 185-206. *)
Definition consistentShapes (H : MatrixXd) (nf w : VectorXd) (P : MatrixXd) : Prop :=
  cols P = rows P /\ cols H = cols P /\ length nf = cols P /\ rows H = length w.

(** The exceptions of lines 185-206. *)
Definition isShapeError (e : exception) : Prop :=
  e = APrioriCovarianceNotSquare \/
  e = ParametersInconsistentWithInformationMatrix \/
  e = ParametersInconsistentWithNormalizationFactors \/
  e = WeightsInconsistentWithPartials.

(** An input that reaches the loop: consistent shapes, as many rows as time
    tags, at least one time tag. *)
Definition validInput (md : PodInputType) (H : MatrixXd) (nf w : VectorXd) (P : MatrixXd)
  : Prop :=
  consistentShapes H nf w P /\
  rows H = length (getConcatenatedTimeVector md) /\
  getConcatenatedTimeVector md <> [].

(** ** The covariance history *)

(** The value the source computes from the first [k] rows: the product
    [U^-1 * S^-1 * U^-1], all three inverses by Eigen's [inverse( )], with
    [S] the updated inverse covariance of these rows. *)
Definition covarianceOfPrefix (M : MatrixXd) (w : VectorXd) (U P : MatrixXd) (k : nat)
  : MatrixXd :=
  mul (mul (inverse U)
           (inverse (linear_algebra.calculateInverseOfUpdatedCovarianceMatrix
                       (mkMatrix (cols M) (firstn k (rowData M))) (firstn k w) P)))
      (inverse U).

(** [history] has an entry whose key is the time [k]. *)
Definition hasKey (k : TimeType) (history : History) : Prop :=
  exists k' v, In (k', v) history /\ (k' == k)%Q.

(** [k] is the largest key of [history]. *)
Definition largestKey (k : TimeType) (history : History) : Prop :=
  hasKey k history /\ forall k', hasKey k' history -> (k' <= k)%Q.

(** Every entry of [history] is keyed by the time of a row [j] of the table
    [ts] that is the last row or is followed by a different time, and holds
    the covariance of the first [j + 1] rows: no run of equal times is
    split. *)
Definition entriesEndRuns (ts : list TimeType) (M : MatrixXd) (w : VectorXd)
  (U P : MatrixXd) (history : History) : Prop :=
  forall k V, In (k, V) history ->
    exists j,
      j < length ts /\
      (k == nth j ts 0)%Q /\
      V = covarianceOfPrefix M w U P (j + 1) /\
      (S j < length ts -> ~ (nth j ts 0 == nth (S j) ts 0)%Q).

(** ** The output times *)

(** The first and the last time of the time-ordered table: the initial value
    of [currentTime] and the bound of the loop. *)
Definition firstTime (md : PodInputType) : TimeType := nth 0 (orderedTimesOf md) 0%Q.

Definition lastTime (md : PodInputType) : TimeType :=
  nth (length (orderedTimesOf md) - 1) (orderedTimesOf md) 0%Q.

(** The value of [currentTime] after [n] passes of a loop that starts at the
    time [t]: [n] additions of the step, each rounded as [TimeType] rounds. *)
Definition queryTime (t : TimeType) (outputTimeStep : Q) (n : nat) : TimeType :=
  Nat.iter n (fun currentTime => plusAssign currentTime outputTimeStep) t.

(** The lookup scheme that the function builds over the time-ordered table. *)
Definition timeLookupOf (md : PodInputType) : TimeType -> nat :=
  interpolators.findNearestLowerNeighbour (orderedTimesOf md).

End Vocabulary.

(** ** Inputs of the worked examples *)

(** A size-3 observable with two samples, then a size-1 observable with two
    link ends. *)
Definition collatorExample : @PodInputType sizedObservables :=
  [ (3%Z, [ (0, ([], ([5; 7]%Q, tt))) ]);
    (1%Z, [ (0, ([], ([0; 1]%Q, tt))); (1, ([], ([4]%Q, tt))) ]) ].

(** Three time tags out of order and a 3 x 2 information matrix. *)
Definition reindexerExample : @PodInputType sizedObservables :=
  [ (1%Z, [ (0, ([], ([3; 1; 2]%Q, tt))) ]) ].

Definition reindexerMatrix : MatrixXd :=
  mkMatrix 2 [ [30; 31]; [10; 11]; [20; 21] ]%Q.

(** Two observations of size 1, at the times 0 and 3. *)
Definition twoTimesExample : @PodInputType sizedObservables :=
  [ (1%Z, [ (0, ([], ([0; 3]%Q, tt))) ]) ].

(** One parameter; both partials are 1, both weights 1, the a-priori inverse
    covariance is 2 and the normalization factor 2. *)
Definition twoTimesH : MatrixXd := mkMatrix 1 [ [1]; [1] ]%Q.

Definition twoTimesP : MatrixXd := mkMatrix 1 [ [2] ]%Q.

(** One parameter, all partials 0 and a-priori inverse covariance 0: the sum of
    every output step is the 1 x 1 zero matrix. *)
Definition singularH : MatrixXd := mkMatrix 1 [ [0]; [0] ]%Q.

Definition singularP : MatrixXd := mkMatrix 1 [ [0] ]%Q.

(** Four observations of size 1 at the times 0, 1, 1, 3, two parameters. *)
Definition fourTimesExample : @PodInputType sizedObservables :=
  [ (1%Z, [ (0, ([], ([0; 1; 1; 3]%Q, tt))) ]) ].

Definition fourTimesH : MatrixXd := mkMatrix 2 [ [1; 0]; [0; 1]; [1; 1]; [1; 2] ]%Q.

Definition fourTimesP : MatrixXd := mkMatrix 2 [ [1; 0]; [0; 1] ]%Q.

(** Two observations at the [double]s nearest to 0.1 and to
    0.30000000000000004, which is the [double] that [0.1 + 0.2] rounds to. *)
Definition roundedTimesExample : @PodInputType sizedObservables :=
  [ (1%Z, [ (0, ([], ([ binary64.round (1 # 10);
                        binary64.round (30000000000000004 # 100000000000000000) ],
                      tt))) ]) ].

(** Two observations at the times 1e16 and 1e16 + 2, neighbouring [double]s. *)
Definition absorbedStepExample : @PodInputType sizedObservables :=
  [ (1%Z, [ (0, ([], ([10000000000000000; 10000000000000002]%Q, tt))) ]) ].

(** A lookup scheme over the table 0, 1, 1, 3 that answers, for every query
    from time 1 on, the first of the two rows at time 1. *)
Definition tiedPairLookup : TimeType -> nat :=
  fun t => if Qle_bool 1 t then 1 else 0.

(** * The vocabulary of the further properties *)

Section FurtherVocabulary.

Context {OM : ObservationModels}.

(** The observation vector of one (link ends, data) entry. *)
Definition observationsOf (data : LinkEnds * (VectorXd * (list TimeType * LinkEndType)))
  : VectorXd := fst (snd data).

(** The entries of all observable types, in iteration order. *)
Definition entriesOf (measurementData : PodInputType)
  : list (LinkEnds * (VectorXd * (list TimeType * LinkEndType))) :=
  flat_map snd measurementData.

(** All observations, in the order of the observable types and then of the
    link ends. *)
Definition allObservations (measurementData : PodInputType) : VectorXd :=
  flat_map observationsOf (entriesOf measurementData).

(** Every entry holds one observation of the size of its observable per
    sample time. *)
Definition entriesAgree (measurementData : PodInputType) : Prop :=
  forall ty links data,
    In (ty, links) measurementData -> In data links ->
    length (observationsOf data) =
    length (timesOf data) * Z.to_nat (getObservableSize ty).

(** The keys of a history increase strictly. *)
Definition increasingKeys (history : History) : Prop :=
  StronglySorted (fun a b => (fst a < fst b)%Q) history.

End FurtherVocabulary.

(** A helper that counts the observations of the example inputs. *)
Definition countObservations (measurementData : @PodInputType sizedObservables)
  : list (Z * Z) * Z :=
  ([], Z.of_nat (length (allObservations measurementData))).

(** Two observable types: a size-2 observable with two samples, and a size-1
    observable with one sample. *)
Definition measurementExample : @PodInputType sizedObservables :=
  [ (2%Z, [ (0, ([10; 11; 20; 21]%Q, ([5; 7]%Q, tt))) ]);
    (1%Z, [ (0, ([30]%Q, ([6]%Q, tt))) ]) ].

(** A single observation, at time 5, of one parameter. *)
Definition oneTimeExample : @PodInputType sizedObservables :=
  [ (1%Z, [ (0, ([], ([5]%Q, tt))) ]) ].

(** Stand-ins for the conversions that the header of the unified state model
    calls, with [ScalarType] the rationals: the Keplerian elements are the
    Cartesian ones behind the gravitational parameter, the unified-state-model
    elements the Keplerian ones in reverse. *)
#[local] Instance listConversions : orbital_element_conversions.ElementConversions Q :=
  {| orbital_element_conversions.castToDouble := fun x => x;
     orbital_element_conversions.castFromDouble := fun x => x;
     orbital_element_conversions.convertCartesianToKeplerianElements := fun c mu => mu :: c;
     orbital_element_conversions.convertKeplerianToCartesianElements := fun k _ => tl k;
     orbital_element_conversions.convertKeplerianToUnifiedStateModelWithQuaternionsElements :=
       fun k _ => rev k;
     orbital_element_conversions.convertUnifiedStateModelWithQuaternionsToKeplerianElements :=
       fun u _ => rev u |}.

(** Stand-ins for what captureLeg.cpp calls: the delta V is the excess
    velocity it is given, the norm the first coefficient, the trajectory
    sampler returns its two vectors as they are. *)
#[local] Instance plainMissionSegments : spaceTrajectories.MissionSegments :=
  {| spaceTrajectories.computeEscapeOrCaptureDeltaV := fun _ _ _ excessVelocity => excessVelocity;
     spaceTrajectories.returnTrajectory := fun _ _ _ _ positions times _ => (positions, times);
     spaceTrajectories.norm := spaceTrajectories.coeff0;
     spaceTrajectories.newVector3d :=
       spaceTrajectories.mkVector3d (spaceTrajectories.Finite 0) (spaceTrajectories.Finite 0)
                                    (spaceTrajectories.Finite 0);
     spaceTrajectories.newDouble := spaceTrajectories.Finite 0 |}.

(** A leg that has not been calculated: its velocity after departure is NaN. *)
Definition freshLeg : spaceTrajectories.CaptureLeg :=
  spaceTrajectories.mkCaptureLeg
    (spaceTrajectories.mkVector3d (spaceTrajectories.Finite 1) (spaceTrajectories.Finite 2)
                                  (spaceTrajectories.Finite 3))
    (spaceTrajectories.mkVector3d (spaceTrajectories.Finite 4) (spaceTrajectories.Finite 5)
                                  (spaceTrajectories.Finite 6))
    (spaceTrajectories.mkVector3d spaceTrajectories.NaN spaceTrajectories.NaN
                                  spaceTrajectories.NaN)
    spaceTrajectories.NaN (spaceTrajectories.Finite 10) (spaceTrajectories.Finite 1)
    (spaceTrajectories.Finite 1) (spaceTrajectories.Finite 7) (spaceTrajectories.Finite 0).

(** * Properties *)

(** ** Outcomes *)

Lemma bind_Return_inv (A B : Type) (c : outcome A) (k : A -> outcome B) (b : B) :
  bind c k = Return b -> exists a, c = Return a /\ k a = Return b.
Proof. destruct c; simpl; intros E; try discriminate. eauto. Qed.

Lemma bind_Throw_inv (A B : Type) (c : outcome A) (k : A -> outcome B) (e : exception) :
  bind c k = Throw e -> c = Throw e \/ exists a, c = Return a /\ k a = Throw e.
Proof.
  destruct c; simpl; intros E; try discriminate.
  - right. exists a. split; [reflexivity | exact E].
  - left. congruence.
Qed.

(** ** The observation collator: [getConcatenatedTimeVector] *)

Section Collator.

Context {OM : ObservationModels}.

Lemma fold_left_appending (A B : Type) (f : list B -> A -> list B) (g : A -> list B) :
  (forall acc x, f acc x = acc ++ g x) ->
  forall l init, fold_left f l init = init ++ flat_map g l.
Proof.
  intros Hf l; induction l as [|x l IH]; intros init; simpl.
  - now rewrite app_nil_r.
  - rewrite IH, Hf, <- app_assoc. reflexivity.
Qed.

Lemma copyTimeTags_repeat (size : Z) (times : list TimeType) :
  copyTimeTags size times = flat_map (fun t => repeat t (Z.to_nat size)) times.
Proof.
  unfold copyTimeTags.
  now rewrite (fold_left_appending _ _ _ (fun t => repeat t (Z.to_nat size))).
Qed.

Lemma flat_map_repeat_once (A : Type) (l : list A) :
  flat_map (fun t => repeat t 1) l = l.
Proof.
  induction l as [|x l IH]; [reflexivity|].
  change (x :: flat_map (fun t => repeat t 1) l = x :: l). now rewrite IH.
Qed.

Lemma length_flat_map_repeat (A : Type) (n : nat) (l : list A) :
  length (flat_map (fun t => repeat t n) l) = (length l * n)%nat.
Proof.
  induction l as [|x l IH]; simpl; [reflexivity|].
  rewrite length_app, repeat_length, IH. lia.
Qed.

Lemma getConcatenatedTimeVector_flat_map (measurementData : PodInputType) :
  getConcatenatedTimeVector measurementData =
  flat_map (fun observables =>
              flat_map (fun data =>
                          timeTagsOfEntry (getObservableSize (fst observables)) (timesOf data))
                       (snd observables))
           measurementData.
Proof.
  unfold getConcatenatedTimeVector.
  rewrite (fold_left_appending _ _ _
             (fun observables =>
                flat_map (fun data =>
                            timeTagsOfEntry (getObservableSize (fst observables)) (timesOf data))
                         (snd observables))); [reflexivity|].
  intros acc [ty links]; simpl.
  apply fold_left_appending.
  intros acc' data. unfold timeTagsOfEntry, timesOf.
  destruct (Z.eqb_spec (getObservableSize ty) 1) as [E|E].
  - rewrite E. simpl. now rewrite flat_map_repeat_once.
  - now rewrite copyTimeTags_repeat.
Qed.

Lemma length_getConcatenatedTimeVector (measurementData : PodInputType) :
  (forall ty links, In (ty, links) measurementData -> (0 <= getObservableSize ty)%Z) ->
  Z.of_nat (length (getConcatenatedTimeVector measurementData)) =
  totalNumberOfObservations measurementData.
Proof.
  rewrite getConcatenatedTimeVector_flat_map.
  induction measurementData as [|[ty links] md IH]; intros Hpos; simpl; [reflexivity|].
  rewrite length_app, Nat2Z.inj_add, IH by (intros; eapply Hpos; right; eauto).
  assert (Hty : (0 <= getObservableSize ty)%Z) by (eapply Hpos; left; reflexivity).
  clear IH Hpos. generalize (totalNumberOfObservations md) as total. intros total.
  induction links as [|data links IHl]; simpl; [reflexivity|].
  rewrite length_app, Nat2Z.inj_add, <- IHl.
  unfold timeTagsOfEntry at 1. rewrite length_flat_map_repeat. lia.
Qed.

End Collator.

(** ** Comparisons of times *)

Lemma Qlt_bool_iff (a b : Q) : Qlt_bool a b = true <-> (a < b)%Q.
Proof.
  unfold Qlt_bool. rewrite negb_true_iff.
  destruct (Qle_bool b a) eqn:E.
  - apply Qle_bool_iff in E. split; [discriminate | intros H; exfalso; lra].
  - split; [intros _ | reflexivity].
    destruct (Qlt_le_dec a b) as [H|H]; [exact H|].
    apply Qle_bool_iff in H. congruence.
Qed.

Lemma Qlt_bool_false_iff (a b : Q) : Qlt_bool a b = false <-> (b <= a)%Q.
Proof.
  unfold Qlt_bool. rewrite negb_false_iff. apply Qle_bool_iff.
Qed.

Lemma Qle_bool_false_iff (a b : Q) : Qle_bool a b = false <-> (b < a)%Q.
Proof.
  destruct (Qle_bool a b) eqn:E.
  - apply Qle_bool_iff in E. split; [discriminate | intros H; exfalso; lra].
  - split; [intros _ | reflexivity].
    destruct (Qlt_le_dec b a) as [H|H]; [exact H|].
    apply Qle_bool_iff in H. congruence.
Qed.

(** ** Rounding to binary64 *)

Section Binary64.

Import binary64.

(** The nearest integer is the floor, or the next integer when the value is
    not an integer. *)
Lemma roundHalfEven_cases (q : Q) :
  roundHalfEven q = Qfloor q \/
  (roundHalfEven q = (Qfloor q + 1)%Z /\ (inject_Z (Qfloor q) < q)%Q).
Proof.
  unfold roundHalfEven.
  destruct (q - inject_Z (Qfloor q) ?= 1 # 2)%Q eqn:E.
  - apply Qeq_alt in E. destruct (Z.even (Qfloor q)); [left; reflexivity|].
    right. split; [reflexivity | lra].
  - left. reflexivity.
  - apply Qgt_alt in E. right. split; [reflexivity | lra].
Qed.

Lemma roundHalfEven_le (q : Q) (n : Z) :
  (q <= inject_Z n)%Q -> (roundHalfEven q <= n)%Z.
Proof.
  intros Hq.
  assert (Hf : (Qfloor q <= n)%Z).
  { rewrite <- (Qfloor_Z n). apply Qfloor_resp_le, Hq. }
  destruct (roundHalfEven_cases q) as [->|[-> Hlt]]; [exact Hf|].
  assert (Hs : (inject_Z (Qfloor q) < inject_Z n)%Q) by lra.
  rewrite <- Zlt_Qlt in Hs. lia.
Qed.

Lemma roundHalfEven_ge (q : Q) (n : Z) :
  (inject_Z n <= q)%Q -> (n <= roundHalfEven q)%Z.
Proof.
  intros Hq.
  assert (Hf : (n <= Qfloor q)%Z).
  { rewrite <- (Qfloor_Z n). apply Qfloor_resp_le, Hq. }
  destruct (roundHalfEven_cases q) as [->|[-> _]]; lia.
Qed.

Lemma pow2_pos (e : Z) : (0 < 2 ^ e)%Q.
Proof. apply Qpower_0_lt. reflexivity. Qed.

Lemma pow2_inject (n : Z) : (0 <= n)%Z -> (inject_Z (2 ^ n) == 2 ^ n)%Q.
Proof. intros Hn. rewrite Zpower_Qpower by exact Hn. reflexivity. Qed.

Lemma pow2_le (n m : Z) : (n <= m)%Z -> (2 ^ n <= 2 ^ m)%Q.
Proof. intros Hnm. apply Qpower_le_compat_l; [exact Hnm | discriminate]. Qed.

Lemma pow2_split (n m : Z) : (2 ^ (n + m) == 2 ^ n * 2 ^ m)%Q.
Proof. apply Qpower_plus. discriminate. Qed.

(** The bounds of [ilog2]. *)
Lemma ilog2_spec (q : Q) :
  ~ (q == 0)%Q -> (2 ^ ilog2 q <= Qabs q < 2 ^ (ilog2 q + 1))%Q.
Proof.
  intros Hq. unfold ilog2.
  set (n := Z.abs (Qnum q)). set (d := Zpos (Qden q)).
  assert (Hn : (0 < n)%Z).
  { unfold n. destruct q as [[|p|p] dq]; simpl; try lia.
    exfalso. apply Hq. reflexivity. }
  assert (Hd : (0 < d)%Z) by (unfold d; lia).
  pose proof (Z.log2_spec n Hn) as [Hn1 Hn2].
  pose proof (Z.log2_spec d Hd) as [Hd1 Hd2].
  pose proof (Z.log2_nonneg n) as Ha. pose proof (Z.log2_nonneg d) as Hb.
  set (a := Z.log2 n) in *. set (b := Z.log2 d) in *.
  assert (Habs : (Qabs q * inject_Z d == inject_Z n)%Q).
  { destruct q as [qn qd]. unfold Qabs, n, d, Qeq. simpl. lia. }
  rewrite Zle_Qle, pow2_inject in Hn1, Hd1 by assumption.
  rewrite Zlt_Qlt, pow2_inject in Hn2, Hd2 by lia.
  replace (Z.succ a) with (a + 1)%Z in Hn2 by lia.
  replace (Z.succ b) with (b + 1)%Z in Hd2 by lia.
  rewrite pow2_split in Hn2, Hd2. change (2 ^ 1)%Q with 2%Q in Hn2, Hd2.
  assert (Hk : (2 ^ (a - b) * 2 ^ b == 2 ^ a)%Q).
  { rewrite <- pow2_split. replace (a - b + b)%Z with a by lia. reflexivity. }
  pose proof (pow2_pos a) as Pa. pose proof (pow2_pos b) as Pb.
  pose proof (pow2_pos (a - b)) as Pk.
  pose proof (Qabs_nonneg q) as Pq.
  assert (Pd : (0 < inject_Z d)%Q)
    by (change (inject_Z 0 < inject_Z d)%Q; rewrite <- Zlt_Qlt; exact Hd).
  destruct (Qle_bool (2 ^ (a - b)) (Qabs q)) eqn:E.
  - apply Qle_bool_iff in E. split; [exact E|].
    rewrite pow2_split. change (2 ^ 1)%Q with 2%Q.
    apply Qnot_le_lt. intros Hc. nra.
  - assert (E' : (Qabs q < 2 ^ (a - b))%Q).
    { apply Qnot_le_lt. intros Hc. apply Qle_bool_iff in Hc. congruence. }
    replace (a - b - 1 + 1)%Z with (a - b)%Z by lia. split; [|exact E'].
    assert (Hh : (2 ^ (a - b - 1) * 2 == 2 ^ (a - b))%Q).
    { replace (a - b)%Z with (a - b - 1 + 1)%Z at 2 by lia.
      rewrite pow2_split. reflexivity. }
    pose proof (pow2_pos (a - b - 1)) as Pk1.
    apply Qnot_lt_le. intros Hc. nra.
Qed.

(** [ilog2] and the exponent of the last place are monotone in the
    magnitude. *)
Lemma ilog2_le (x y : Q) :
  ~ (x == 0)%Q -> ~ (y == 0)%Q -> (Qabs x <= Qabs y)%Q -> (ilog2 x <= ilog2 y)%Z.
Proof.
  intros Hx Hy Hxy.
  destruct (ilog2_spec x Hx) as [Hx1 _]. destruct (ilog2_spec y Hy) as [_ Hy2].
  destruct (Z.le_gt_cases (ilog2 x) (ilog2 y)) as [Hle|Hgt]; [exact Hle|].
  exfalso. pose proof (pow2_le (ilog2 y + 1) (ilog2 x) ltac:(lia)). lra.
Qed.

Lemma ulpExponent_le (x y : Q) :
  ~ (x == 0)%Q -> ~ (y == 0)%Q -> (Qabs x <= Qabs y)%Q ->
  (ulpExponent x <= ulpExponent y)%Z.
Proof.
  intros Hx Hy Hxy. unfold ulpExponent.
  pose proof (ilog2_le x y Hx Hy Hxy). lia.
Qed.

Lemma round_nonzero (q : Q) :
  ~ (q == 0)%Q ->
  (round q == inject_Z (roundHalfEven (q / 2 ^ ulpExponent q)) * 2 ^ ulpExponent q)%Q.
Proof.
  intros Hq. unfold round.
  destruct (Qeq_bool q 0) eqn:E; [apply Qeq_bool_iff in E; contradiction|].
  apply Qred_correct.
Qed.

Lemma round_zero (q : Q) : (q == 0)%Q -> (round q == 0)%Q.
Proof.
  intros Hq. unfold round.
  destruct (Qeq_bool q 0) eqn:E; [reflexivity|].
  apply Qeq_bool_neq in E. contradiction.
Qed.

(** Rounding does not cross a value of the grid it rounds to, or of a
    coarser one. *)
Lemma round_le_grid (x y : Q) (N e : Z) :
  ~ (x == 0)%Q -> (y == inject_Z N * 2 ^ e)%Q -> (ulpExponent x <= e)%Z ->
  (x <= y)%Q -> (round x <= y)%Q.
Proof.
  intros Hx Hy He Hxy. rewrite round_nonzero by exact Hx.
  set (ex := ulpExponent x) in *.
  pose proof (pow2_pos ex) as Pe.
  assert (Hgrid : (y == inject_Z (N * 2 ^ (e - ex)) * 2 ^ ex)%Q).
  { rewrite Hy, inject_Z_mult, pow2_inject by lia.
    rewrite <- Qmult_assoc, <- pow2_split.
    replace (e - ex + ex)%Z with e by lia. reflexivity. }
  assert (Hq : (x / 2 ^ ex <= inject_Z (N * 2 ^ (e - ex)))%Q).
  { apply Qle_shift_div_r; [exact Pe|]. rewrite <- Hgrid. exact Hxy. }
  apply roundHalfEven_le in Hq. rewrite Zle_Qle in Hq.
  rewrite Hgrid. apply Qmult_le_compat_r; [exact Hq | lra].
Qed.

Lemma round_ge_grid (x y : Q) (N e : Z) :
  ~ (x == 0)%Q -> (y == inject_Z N * 2 ^ e)%Q -> (ulpExponent x <= e)%Z ->
  (y <= x)%Q -> (y <= round x)%Q.
Proof.
  intros Hx Hy He Hxy. rewrite round_nonzero by exact Hx.
  set (ex := ulpExponent x) in *.
  pose proof (pow2_pos ex) as Pe.
  assert (Hgrid : (y == inject_Z (N * 2 ^ (e - ex)) * 2 ^ ex)%Q).
  { rewrite Hy, inject_Z_mult, pow2_inject by lia.
    rewrite <- Qmult_assoc, <- pow2_split.
    replace (e - ex + ex)%Z with e by lia. reflexivity. }
  assert (Hq : (inject_Z (N * 2 ^ (e - ex)) <= x / 2 ^ ex)%Q).
  { apply Qle_shift_div_l; [exact Pe|]. rewrite <- Hgrid. exact Hxy. }
  apply roundHalfEven_ge in Hq. rewrite Zle_Qle in Hq.
  rewrite Hgrid. apply Qmult_le_compat_r; [exact Hq | lra].
Qed.

(** A value of a [double] lies on the grid of its own last place. *)
Lemma representable_grid (y : Q) :
  representable y -> ~ (y == 0)%Q ->
  exists N, (y == inject_Z N * 2 ^ ulpExponent y)%Q.
Proof.
  intros Hr Hy. exists (roundHalfEven (y / 2 ^ ulpExponent y)).
  rewrite <- round_nonzero by exact Hy. symmetry. exact Hr.
Qed.

(** A value with a coarser last place than [y] is beyond the next power of
    two. *)
Lemma coarser_grid (x y : Q) :
  ~ (x == 0)%Q -> ~ (y == 0)%Q -> (ulpExponent y < ulpExponent x)%Z ->
  (Qabs y < 2 ^ ilog2 x)%Q /\
  (2 ^ ilog2 x == inject_Z (2 ^ 52) * 2 ^ ulpExponent x)%Q.
Proof.
  intros Hx Hy He. unfold ulpExponent in *.
  destruct (ilog2_spec y Hy) as [_ Hy2].
  assert (Hk : (ilog2 y + 1 <= ilog2 x)%Z) by lia.
  split.
  - pose proof (pow2_le _ _ Hk). lra.
  - replace (Z.max (ilog2 x - 52) (-1074)) with (ilog2 x - 52)%Z by lia.
    rewrite pow2_inject by lia. rewrite <- pow2_split.
    replace (52 + (ilog2 x - 52))%Z with (ilog2 x) by lia. reflexivity.
Qed.

(** Rounding is monotone against the values of [double]s: it crosses
    none. *)
Lemma round_le (x y : Q) :
  representable y -> (x <= y)%Q -> (round x <= y)%Q.
Proof.
  intros Hr Hxy.
  destruct (Qeq_dec x 0) as [Hx|Hx]; [rewrite (round_zero x Hx); lra|].
  destruct (Qeq_dec y 0) as [Hy|Hy].
  { apply (round_le_grid x y 0 (ulpExponent x)); [exact Hx | | lia | exact Hxy].
    rewrite Hy. ring. }
  destruct (representable_grid y Hr Hy) as (N & HN).
  destruct (Z.le_gt_cases (ulpExponent x) (ulpExponent y)) as [He|He].
  { apply (round_le_grid x y N (ulpExponent y)); assumption. }
  destruct (coarser_grid x y Hx Hy He) as [Hsmall Hpow].
  destruct (ilog2_spec x Hx) as [Hx1 _].
  assert (Hneg : (x < 0)%Q).
  { apply Qnot_le_lt. intros Hpos.
    rewrite (Qabs_pos x Hpos) in Hx1.
    pose proof (Qle_Qabs y). rewrite Qabs_pos in Hsmall by lra. lra. }
  rewrite Qabs_neg in Hx1 by lra.
  assert (Hstep : (round x <= - 2 ^ ilog2 x)%Q).
  { apply (round_le_grid x _ (- 2 ^ 52) (ulpExponent x)); [exact Hx | | lia | lra].
    rewrite Hpow, inject_Z_opp. ring. }
  apply Qabs_Qlt_condition in Hsmall. lra.
Qed.

Lemma round_ge (x y : Q) :
  representable y -> (y <= x)%Q -> (y <= round x)%Q.
Proof.
  intros Hr Hxy.
  destruct (Qeq_dec x 0) as [Hx|Hx]; [rewrite (round_zero x Hx); lra|].
  destruct (Qeq_dec y 0) as [Hy|Hy].
  { apply (round_ge_grid x y 0 (ulpExponent x)); [exact Hx | | lia | exact Hxy].
    rewrite Hy. ring. }
  destruct (representable_grid y Hr Hy) as (N & HN).
  destruct (Z.le_gt_cases (ulpExponent x) (ulpExponent y)) as [He|He].
  { apply (round_ge_grid x y N (ulpExponent y)); assumption. }
  destruct (coarser_grid x y Hx Hy He) as [Hsmall Hpow].
  destruct (ilog2_spec x Hx) as [Hx1 _].
  assert (Hpos : (0 < x)%Q).
  { apply Qnot_le_lt. intros Hneg.
    rewrite (Qabs_neg x Hneg) in Hx1.
    apply Qabs_Qlt_condition in Hsmall. lra. }
  rewrite Qabs_pos in Hx1 by lra.
  assert (Hstep : (2 ^ ilog2 x <= round x)%Q).
  { apply (round_ge_grid x _ (2 ^ 52) (ulpExponent x)); [exact Hx | | lia | lra].
    exact Hpow. }
  apply Qabs_Qlt_condition in Hsmall. lra.
Qed.

End Binary64.

(** The sums used in the worked examples, computed by the Standard Library's
    specification of IEEE 754 addition: [0.1 + 0.2], [1e16 + 1],
    [(1e16 + 2) + 1], [0 + 2], [2 + 2], [0 + 3], [0 + -1], [0.1 + -3]. *)
Lemma plus_agrees_with_SpecFloat :
  Forall (fun ab =>
            SFadd 53 1024 (binary64.toSpecFloat (fst ab)) (binary64.toSpecFloat (snd ab)) =
            binary64.toSpecFloat (binary64.plus (fst ab) (snd ab)))
         [ (binary64.round (1 # 10), binary64.round (2 # 10));
           (10000000000000000, 1); (10000000000000002, 1);
           (0, 2); (2, 2); (0, 3); (0, -1); (binary64.round (1 # 10), -3) ]%Q.
Proof. repeat constructor. Qed.

(** ** The stable time sorter *)

Section Sorter.

Import utilities.

Lemma insertByTime_perm (p : TimeType * nat) (l : list (TimeType * nat)) :
  Permutation (insertByTime p l) (p :: l).
Proof.
  induction l as [|q r IH]; simpl; [reflexivity|].
  destruct (Qlt_bool (fst p) (fst q)); [reflexivity|].
  rewrite IH. apply perm_swap.
Qed.

Lemma insertByTime_sorted (p : TimeType * nat) (l : list (TimeType * nat)) :
  StronglySorted timeLe l -> StronglySorted timeLe (insertByTime p l).
Proof.
  induction 1 as [|q r Hs IH Hq]; simpl.
  - repeat constructor.
  - destruct (Qlt_bool (fst p) (fst q)) eqn:E.
    + apply Qlt_bool_iff in E.
      constructor; [constructor; assumption|].
      constructor; [unfold timeLe; lra|].
      eapply Forall_impl; [|exact Hq]. unfold timeLe. intros a Ha. lra.
    + apply Qlt_bool_false_iff in E.
      constructor; [exact IH|].
      eapply Permutation_Forall; [symmetry; apply insertByTime_perm|].
      constructor; [exact E | exact Hq].
Qed.

Lemma fold_insertByTime_perm (l acc : list (TimeType * nat)) :
  Permutation (fold_left (fun sortMap p => insertByTime p sortMap) l acc) (l ++ acc).
Proof.
  revert acc; induction l as [|p l IH]; intros acc; simpl; [reflexivity|].
  rewrite IH, insertByTime_perm. symmetry. apply Permutation_middle.
Qed.

Lemma fold_insertByTime_sorted (l acc : list (TimeType * nat)) :
  StronglySorted timeLe acc ->
  StronglySorted timeLe (fold_left (fun sortMap p => insertByTime p sortMap) l acc).
Proof.
  revert acc; induction l as [|p l IH]; intros acc Hs; simpl; [exact Hs|].
  apply IH, insertByTime_sorted, Hs.
Qed.

(** Equal times keep the order of the input: the two 1s at the positions 1
    and 3. *)
Lemma getSortOrderOfVectorAndSortedVector_example :
  getSortOrderOfVectorAndSortedVector [3; 1; 2; 1; 0]%Q =
  ([4; 1; 3; 2; 0], [0; 1; 1; 2; 3]%Q).
Proof. reflexivity. Qed.

Lemma sortedPairs_perm (v : list TimeType) :
  Permutation (sortedPairs v) (combine v (seq 0 (length v))).
Proof.
  unfold sortedPairs. rewrite fold_insertByTime_perm. now rewrite app_nil_r.
Qed.

Lemma sortedPairs_sorted (v : list TimeType) : StronglySorted timeLe (sortedPairs v).
Proof. apply fold_insertByTime_sorted. constructor. Qed.

Lemma map_fst_combine_seq (A : Type) (v : list A) (start : nat) :
  map fst (combine v (seq start (length v))) = v.
Proof.
  revert start; induction v as [|x v IH]; intros start; simpl; [reflexivity|].
  now rewrite IH.
Qed.

Lemma map_snd_combine_seq (A : Type) (v : list A) (start : nat) :
  map snd (combine v (seq start (length v))) = seq start (length v).
Proof.
  revert start; induction v as [|x v IH]; intros start; simpl; [reflexivity|].
  now rewrite IH.
Qed.

(** The sort order is a permutation of the indices. *)
Lemma sortOrder_perm (v : list TimeType) :
  Permutation (fst (getSortOrderOfVectorAndSortedVector v)) (seq 0 (length v)).
Proof.
  simpl. rewrite (Permutation_map snd (sortedPairs_perm v)).
  now rewrite map_snd_combine_seq.
Qed.

Lemma sortedVector_perm (v : list TimeType) :
  Permutation (snd (getSortOrderOfVectorAndSortedVector v)) v.
Proof.
  simpl. rewrite (Permutation_map fst (sortedPairs_perm v)).
  now rewrite map_fst_combine_seq.
Qed.

Lemma sortOrder_length (v : list TimeType) :
  length (fst (getSortOrderOfVectorAndSortedVector v)) = length v.
Proof. rewrite (Permutation_length (sortOrder_perm v)). apply length_seq. Qed.

Lemma sortedVector_length (v : list TimeType) :
  length (snd (getSortOrderOfVectorAndSortedVector v)) = length v.
Proof. apply Permutation_length, sortedVector_perm. Qed.

Lemma sortOrder_in_range (v : list TimeType) :
  Forall (fun p => p < length v) (fst (getSortOrderOfVectorAndSortedVector v)).
Proof.
  eapply Permutation_Forall; [symmetry; apply sortOrder_perm|].
  apply Forall_forall. intros p Hp. apply in_seq in Hp. lia.
Qed.

(** The sorted sequence is non-decreasing. *)
Lemma sortedVector_sorted (v : list TimeType) :
  StronglySorted Qle (snd (getSortOrderOfVectorAndSortedVector v)).
Proof.
  simpl. generalize (sortedPairs_sorted v). generalize (sortedPairs v) as l.
  induction 1 as [|q r Hs IH Hq]; simpl; constructor; [exact IH|].
  apply Forall_map. exact Hq.
Qed.

Lemma combine_seq_lookup (v : list TimeType) (start : nat) :
  Forall (fun p => nth_error v (snd p - start) = Some (fst p) /\ start <= snd p)
         (combine v (seq start (length v))).
Proof.
  revert start; induction v as [|x v IH]; intros start; simpl; constructor.
  - simpl. rewrite Nat.sub_diag. split; [reflexivity | lia].
  - eapply Forall_impl; [|apply (IH (S start))].
    intros [t i]; simpl. intros [H1 H2]. split; [|lia].
    replace (i - start) with (S (i - S start)) by lia. exact H1.
Qed.

(** Entry [k] of the sorted sequence is the entry of the input at position
    [order[k]]. *)
Lemma sortedVector_lookup (v : list TimeType) (k : nat) :
  k < length v ->
  nth_error (snd (getSortOrderOfVectorAndSortedVector v)) k =
  nth_error v (nth k (fst (getSortOrderOfVectorAndSortedVector v)) 0).
Proof.
  intros Hk. simpl.
  assert (HF : Forall (fun p => nth_error v (snd p) = Some (fst p)) (sortedPairs v)).
  { eapply Permutation_Forall; [symmetry; apply sortedPairs_perm|].
    eapply Forall_impl; [|apply (combine_seq_lookup v 0)].
    intros p [H _]. now rewrite Nat.sub_0_r in H. }
  assert (Hlen : length (sortedPairs v) = length v).
  { rewrite (Permutation_length (sortedPairs_perm v)), length_combine, length_seq. lia. }
  destruct (nth_error (sortedPairs v) k) as [p|] eqn:E.
  - rewrite nth_error_map, E. simpl.
    rewrite (nth_error_nth _ _ 0 (map_nth_error snd _ _ E)).
    symmetry. rewrite Forall_forall in HF. apply HF. eapply nth_error_In, E.
  - apply nth_error_None in E. lia.
Qed.

End Sorter.

(** ** The information-matrix reindexer *)

Section Reindexer.

Lemma set_nth_length (A : Type) (i : nat) (x : A) (v : list A) :
  length (Std.set_nth i x v) = length v.
Proof.
  revert i; induction v as [|y v IH]; intros [|i]; simpl; auto.
Qed.

Lemma set_nth_lookup (A : Type) (i : nat) (x : A) (v : list A) (k : nat) :
  i < length v ->
  nth_error (Std.set_nth i x v) k = if k =? i then Some x else nth_error v k.
Proof.
  revert i k; induction v as [|y v IH]; intros [|i] [|k] Hi; simpl in *;
    try lia; try reflexivity.
  apply IH. lia.
Qed.

(** The cases of an index [k] against the window of rows [i], [i+1], ...
    that a reordering loop still has to write. *)
Ltac window_cases i k n :=
  destruct (Nat.leb_spec (S i) k), (Nat.ltb_spec k (S i + n)),
           (Nat.leb_spec i k), (Nat.ltb_spec k (i + S n)),
           (Nat.eqb_spec k i); cbn [andb].

Lemma reorderRows_lookup (M : MatrixXd) (order : list nat) :
  Forall (fun p => p < rows M) order ->
  forall (i : nat) (S0 : MatrixXd),
    i + length order <= rows S0 ->
    exists S1,
      reorderRows M order i S0 = Return S1 /\
      cols S1 = cols S0 /\ rows S1 = rows S0 /\
      forall k, nth_error (rowData S1) k =
                if (i <=? k) && (k <? i + length order)
                then nth_error (rowData M) (nth (k - i) order 0)
                else nth_error (rowData S0) k.
Proof.
  induction 1 as [|p rest Hp Hrest IH]; intros i S0 Hi; simpl in *.
  - exists S0. repeat split; auto. intros k.
    destruct (i <=? k) eqn:E1; destruct (k <? i + 0) eqn:E2; simpl; try reflexivity.
    apply Nat.leb_le in E1. apply Nat.ltb_lt in E2. lia.
  - unfold rowBlock. destruct (nth_error (rowData M) p) as [r|] eqn:Er;
      [|apply nth_error_None in Er; unfold rows in Hp; lia].
    simpl. unfold assignRowBlock.
    destruct (i <? rows S0) eqn:Ei; [|apply Nat.ltb_ge in Ei; lia].
    simpl. apply Nat.ltb_lt in Ei.
    destruct (IH (S i) (mkMatrix (cols S0) (Std.set_nth i r (rowData S0)))) as
      (S1 & HS1 & Hc & Hr & Hk).
    { unfold rows; simpl. rewrite set_nth_length. fold (rows S0). lia. }
    exists S1. split; [exact HS1|]. split; [exact Hc|]. split.
    { rewrite Hr. unfold rows; simpl. apply set_nth_length. }
    intros k. rewrite Hk. cbn [rowData]. rewrite set_nth_lookup by exact Ei.
    window_cases i k (length rest); try lia; try reflexivity.
    + replace (k - i) with (S (k - S i)) by lia. reflexivity.
    + subst k. rewrite Nat.sub_diag. symmetry. exact Er.
Qed.

Lemma reorderRows_permute (M : MatrixXd) (order : list nat) :
  Forall (fun p => p < rows M) order ->
  length order = rows M ->
  reorderRows M order 0 (Zero (rows M) (cols M)) = Return (permuteRows order M).
Proof.
  intros Hrange Hlen.
  destruct (reorderRows_lookup M order Hrange 0 (Zero (rows M) (cols M))) as
    (S1 & HS1 & Hc & Hr & Hk).
  { unfold rows, Zero; simpl. rewrite repeat_length. fold (rows M). lia. }
  rewrite HS1. f_equal. destruct S1 as [c d]. unfold permuteRows. simpl in *.
  f_equal; [exact Hc|].
  apply nth_error_ext. intros k. rewrite Hk. simpl. rewrite Nat.sub_0_r.
  assert (Hd : length d = rows M).
  { unfold rows in Hr; simpl in Hr. rewrite Hr. apply repeat_length. }
  destruct (k <? length order) eqn:E.
  - apply Nat.ltb_lt in E. rewrite nth_error_map.
    rewrite (nth_error_nth' order 0 E). simpl.
    rewrite Forall_forall in Hrange.
    apply nth_error_nth'. apply Hrange. apply nth_In. exact E.
  - apply Nat.ltb_ge in E. rewrite nth_error_map.
    replace (nth_error order k) with (@None nat) by (symmetry; apply nth_error_None; lia).
    simpl. apply nth_error_None. rewrite repeat_length. lia.
Qed.

Lemma reorderWeights_lookup (w : VectorXd) (order : list nat) :
  Forall (fun p => p < length w) order ->
  forall (i : nat) (v0 : VectorXd),
    i + length order <= length v0 ->
    exists v1,
      reorderWeights w order i v0 = Return v1 /\
      length v1 = length v0 /\
      forall k, nth_error v1 k =
                if (i <=? k) && (k <? i + length order)
                then nth_error w (nth (k - i) order 0)
                else nth_error v0 k.
Proof.
  induction 1 as [|p rest Hp Hrest IH]; intros i v0 Hi; simpl in *.
  - exists v0. repeat split; auto. intros k.
    destruct (i <=? k) eqn:E1; destruct (k <? i + 0) eqn:E2; simpl; try reflexivity.
    apply Nat.leb_le in E1. apply Nat.ltb_lt in E2. lia.
  - unfold coeff. destruct (nth_error w p) as [x|] eqn:Ex;
      [|apply nth_error_None in Ex; lia].
    simpl. unfold assignCoeff.
    destruct (i <? length v0) eqn:Ei; [|apply Nat.ltb_ge in Ei; lia].
    simpl. apply Nat.ltb_lt in Ei.
    destruct (IH (S i) (Std.set_nth i x v0)) as (v1 & Hv1 & Hl & Hk).
    { rewrite set_nth_length. lia. }
    exists v1. split; [exact Hv1|]. split.
    { rewrite Hl. apply set_nth_length. }
    intros k. rewrite Hk. rewrite set_nth_lookup by exact Ei.
    window_cases i k (length rest); try lia; try reflexivity.
    + replace (k - i) with (S (k - S i)) by lia. reflexivity.
    + subst k. rewrite Nat.sub_diag. symmetry. exact Ex.
Qed.

Lemma reorderWeights_permute (w : VectorXd) (order : list nat) :
  Forall (fun p => p < length w) order ->
  length order = length w ->
  reorderWeights w order 0 (VectorZero (length w)) = Return (permuteCoeffs order w).
Proof.
  intros Hrange Hlen.
  destruct (reorderWeights_lookup w order Hrange 0 (VectorZero (length w))) as (v1 & Hv1 & Hl & Hk).
  { unfold VectorZero. rewrite repeat_length. lia. }
  rewrite Hv1. f_equal. unfold permuteCoeffs.
  apply nth_error_ext. intros k. rewrite Hk. simpl. rewrite Nat.sub_0_r.
  destruct (k <? length order) eqn:E.
  - apply Nat.ltb_lt in E. rewrite nth_error_map.
    rewrite (nth_error_nth' order 0 E). simpl.
    rewrite Forall_forall in Hrange.
    apply nth_error_nth'. apply Hrange. apply nth_In. exact E.
  - apply Nat.ltb_ge in E. rewrite nth_error_map.
    replace (nth_error order k) with (@None nat) by (symmetry; apply nth_error_None; lia).
    simpl. apply nth_error_None. unfold VectorZero. rewrite repeat_length. lia.
Qed.

End Reindexer.

Section TimeOrdering.

Context {OM : ObservationModels}.

Lemma getTimeOrderedInformationMatrix_Return (md : PodInputType) (H : MatrixXd) :
  rows H = length (getConcatenatedTimeVector md) ->
  getTimeOrderedInformationMatrix md H =
  let sortOutput :=
    utilities.getSortOrderOfVectorAndSortedVector (getConcatenatedTimeVector md) in
  Return ((permuteRows (fst sortOutput) H, snd sortOutput), fst sortOutput).
Proof.
  intros Hrows. unfold getTimeOrderedInformationMatrix.
  set (v := getConcatenatedTimeVector md) in *.
  rewrite sortOrder_length, <- Hrows, Nat.eqb_refl.
  rewrite reorderRows_permute; [reflexivity | |].
  - rewrite Hrows. apply sortOrder_in_range.
  - rewrite sortOrder_length. symmetry. exact Hrows.
Qed.

Lemma getTimeOrderedInformationMatrix_Throw (md : PodInputType) (H : MatrixXd) :
  rows H <> length (getConcatenatedTimeVector md) ->
  getTimeOrderedInformationMatrix md H = Throw SortSizesIncompatible.
Proof.
  intros Hrows. unfold getTimeOrderedInformationMatrix.
  rewrite sortOrder_length.
  destruct (Nat.eqb_spec (length (getConcatenatedTimeVector md)) (rows H)) as [E|E];
    [congruence | reflexivity].
Qed.

End TimeOrdering.

(** ** The lookup scheme *)

Section Lookup.

Import interpolators.

Lemma lastIndexNotAbove_spec (values : list TimeType) (t : TimeType) :
  forall i best,
    let r := lastIndexNotAbove values t i best in
    (r = best /\ forall x, In x values -> (t < x)%Q) \/
    (i <= r < i + length values /\
     (exists x, nth_error values (r - i) = Some x /\ (x <= t)%Q) /\
     forall k y, nth_error values k = Some y -> (y <= t)%Q -> i + k <= r).
Proof.
  induction values as [|x rest IH]; intros i best; simpl.
  - left. split; [reflexivity | intros x []].
  - destruct (IH (S i) (if Qle_bool x t then i else best)) as
      [[Hr Hall] | (Hr & (x' & Hx' & Hle) & Hmax)].
    + destruct (Qle_bool x t) eqn:E.
      * right. rewrite Hr. apply Qle_bool_iff in E. split; [lia|]. split.
        { exists x. rewrite Nat.sub_diag. split; [reflexivity | exact E]. }
        intros [|k] y Hy Hyt; [lia|]. simpl in Hy.
        apply nth_error_In, Hall in Hy. exfalso; lra.
      * left. split; [exact Hr|]. apply Qle_bool_false_iff in E.
        intros y [<-|Hy]; [exact E | apply Hall, Hy].
    + right. split; [lia|]. split.
      * exists x'. replace (lastIndexNotAbove rest t (S i) (if Qle_bool x t then i else best) - i)
          with (S (lastIndexNotAbove rest t (S i) (if Qle_bool x t then i else best) - S i))
          by lia.
        split; [exact Hx' | exact Hle].
      * intros [|k] y Hy Hyt; [lia|]. simpl in Hy.
        specialize (Hmax k y Hy Hyt). lia.
Qed.

(** The queries of spec 8 on the table 1, 1, 3, 5, 5, 5, 8. *)
Lemma findNearestLowerNeighbour_examples :
  map (findNearestLowerNeighbour [1; 1; 3; 5; 5; 5; 8]%Q) [0; 4; 5; 100]%Q = [0; 2; 5; 6].
Proof. reflexivity. Qed.

(** The index is a row of the table. *)
Lemma findNearestLowerNeighbour_in_range (values : list TimeType) (t : TimeType) :
  values <> [] -> findNearestLowerNeighbour values t < length values.
Proof.
  intros Hne. unfold findNearestLowerNeighbour.
  destruct (lastIndexNotAbove_spec values t 0 0) as [[Hr _] | (Hr & _)].
  - rewrite Hr. destruct values; [congruence | simpl; lia].
  - lia.
Qed.

(** No row after the index has a value that is not above the query. *)
Lemma findNearestLowerNeighbour_largest (values : list TimeType) (t : TimeType)
  (k : nat) (y : TimeType) :
  nth_error values k = Some y -> (y <= t)%Q ->
  k <= findNearestLowerNeighbour values t.
Proof.
  intros Hy Hyt. unfold findNearestLowerNeighbour.
  destruct (lastIndexNotAbove_spec values t 0 0) as [[_ Hall] | (_ & _ & Hmax)].
  - apply nth_error_In, Hall in Hy. exfalso; lra.
  - apply (Hmax k y Hy Hyt).
Qed.

(** Unless the query is below every value, the value at the index is not
    above the query. *)
Lemma findNearestLowerNeighbour_not_above (values : list TimeType) (t : TimeType)
  (k : nat) (y : TimeType) :
  nth_error values k = Some y -> (y <= t)%Q ->
  (nth (findNearestLowerNeighbour values t) values 0 <= t)%Q.
Proof.
  intros Hy Hyt. unfold findNearestLowerNeighbour.
  destruct (lastIndexNotAbove_spec values t 0 0) as
    [[_ Hall] | (_ & (x & Hx & Hle) & _)].
  - apply nth_error_In, Hall in Hy. exfalso; lra.
  - rewrite Nat.sub_0_r in Hx. rewrite (nth_error_nth _ _ 0%Q Hx). exact Hle.
Qed.

End Lookup.

(** ** Non-decreasing sequences by index *)

Lemma StronglySorted_nth (ts : list TimeType) :
  StronglySorted Qle ts ->
  forall i j, i <= j < length ts -> (nth i ts 0 <= nth j ts 0)%Q.
Proof.
  induction 1 as [|x r Hs IH Hx]; intros i j Hij; simpl in *; [lia|].
  destruct i as [|i], j as [|j]; try lia.
  - lra.
  - rewrite Forall_forall in Hx. apply Hx, nth_In. lia.
  - apply IH. lia.
Qed.

(** ** std::vector accesses *)

Lemma at_in_range (ts : list TimeType) (i : nat) :
  i < length ts -> Std.at_ ts i = Return (nth i ts 0%Q).
Proof.
  intros Hi. unfold Std.at_. now rewrite (nth_error_nth' ts 0%Q Hi).
Qed.

Lemma at_Return_inv (ts : list TimeType) (i : nat) (x : TimeType) :
  Std.at_ ts i = Return x -> i < length ts /\ x = nth i ts 0%Q.
Proof.
  unfold Std.at_. destruct (nth_error ts i) as [y|] eqn:E; [|discriminate].
  intros [= <-]. split.
  - apply nth_error_Some. congruence.
  - symmetry. apply nth_error_nth, E.
Qed.

Lemma at_out_of_range (ts : list TimeType) (i : nat) :
  length ts <= i -> Std.at_ ts i = Throw StdOutOfRange.
Proof.
  intros Hi. unfold Std.at_.
  now replace (nth_error ts i) with (@None Q) by (symmetry; apply nth_error_None; lia).
Qed.

Lemma indexLast_nonempty (ts : list TimeType) :
  ts <> [] -> Std.indexLast ts = Return (nth (length ts - 1) ts 0%Q).
Proof.
  intros Hne. destruct ts as [|x r]; [congruence|].
  unfold Std.indexLast, Std.index.
  rewrite (nth_error_nth' (x :: r) 0%Q); [reflexivity | simpl; lia].
Qed.

(** ** The tie extension (the inner loop) *)

Section TieExtension.

Variable ts : list TimeType.

(** Whatever the index it starts from, the inner loop returns a row of the
    table or throws [std::out_of_range]. *)
Lemma extendThroughTies_in_range :
  forall fuel i j, extendThroughTies fuel ts i = Return j -> j < length ts.
Proof.
  induction fuel as [|fuel IH]; intros i j; simpl; [discriminate|].
  intros E.
  apply bind_Return_inv in E as (a & Ha & E).
  apply bind_Return_inv in E as (b & Hb & E).
  apply at_Return_inv in Ha as [Hi _]. apply at_Return_inv in Hb as [Hi' _].
  destruct (Qeq_bool a b).
  - destruct (Std.isLastIndex ts (S i)).
    + injection E as <-. lia.
    + eapply IH, E.
  - injection E as <-. exact Hi.
Qed.

Lemma extendThroughTies_never_OutputTimeNotFound :
  forall fuel i e, extendThroughTies fuel ts i = Throw e -> e = StdOutOfRange.
Proof.
  induction fuel as [|fuel IH]; intros i e; simpl; [discriminate|].
  unfold Std.at_.
  destruct (nth_error ts i) as [a|]; simpl; [|congruence].
  destruct (nth_error ts (i + 1)) as [b|]; simpl; [|congruence].
  destruct (Qeq_bool a b); [|discriminate].
  destruct (Std.isLastIndex ts (S i)); [discriminate|]. apply IH.
Qed.

(** Started below the last row with one unit of fuel per remaining row, the
    inner loop returns the end of the run of equal times that contains the
    start. *)
Lemma extendThroughTies_spec :
  forall fuel i,
    S i < length ts -> length ts - 1 - i <= fuel ->
    exists j,
      extendThroughTies fuel ts i = Return j /\
      i <= j < length ts /\
      (forall k, i <= k <= j -> (nth k ts 0 == nth i ts 0)%Q) /\
      (S j < length ts -> ~ (nth j ts 0 == nth (S j) ts 0)%Q).
Proof.
  induction fuel as [|fuel IH]; intros i Hi Hfuel; [lia|].
  simpl. rewrite at_in_range by lia. rewrite at_in_range by lia. simpl.
  replace (i + 1) with (S i) by lia.
  destruct (Qeq_bool (nth i ts 0%Q) (nth (S i) ts 0%Q)) eqn:E.
  - apply Qeq_bool_iff in E.
    unfold Std.isLastIndex. destruct (Nat.eqb_spec (S (S i)) (length ts)) as [El|El].
    + exists (S i). split; [reflexivity|]. split; [lia|]. split; [|lia].
      intros k Hk. assert (Hc : k = i \/ k = S i) by lia.
      destruct Hc as [->| ->]; [reflexivity | symmetry; exact E].
    + destruct (IH (S i)) as (j & Hj & Hr & Heq & Hend); [lia | lia |].
      exists j. split; [exact Hj|]. split; [lia|]. split; [|exact Hend].
      intros k Hk. destruct (Nat.eq_dec k i) as [->|Hne]; [reflexivity|].
      rewrite (Heq k) by lia. symmetry. exact E.
  - apply Qeq_bool_neq in E.
    exists i. split; [reflexivity|]. split; [lia|]. split.
    + intros k Hk. replace k with i by lia. reflexivity.
    + intros _. exact E.
Qed.

(** Lines 243-255 when the lookup scheme has returned a row of the table,
    whichever: the index becomes the end of the run of equal times that
    contains that row. *)
Lemma findCurrentIndex_spec (timeLookup : TimeType -> nat) (t : TimeType) :
  timeLookup t < length ts ->
  exists j,
    findCurrentIndex ts timeLookup t = Return j /\
    timeLookup t <= j < length ts /\
    (forall k, timeLookup t <= k <= j -> (nth k ts 0 == nth (timeLookup t) ts 0)%Q) /\
    (S j < length ts -> ~ (nth j ts 0 == nth (S j) ts 0)%Q).
Proof.
  intros Hc. unfold findCurrentIndex.
  set (c := timeLookup t) in *.
  unfold Std.isLastIndex. destruct (Nat.eqb_spec (S c) (length ts)) as [El|El]; cbn [negb].
  - exists c. split; [reflexivity|]. split; [lia|]. split; [|lia].
    intros k Hk. replace k with c by lia. reflexivity.
  - apply extendThroughTies_spec; lia.
Qed.

(** Lines 243-260 on any table: the index is a row, or the access
    [at( currentIndex )] has thrown. *)
Lemma findCurrentIndex_in_range (timeLookup : TimeType -> nat) (t : TimeType) (j : nat) :
  findCurrentIndex ts timeLookup t = Return j -> j < length ts.
Proof.
  unfold findCurrentIndex.
  destruct (negb (Std.isLastIndex ts (timeLookup t))) eqn:E.
  - intros Hj. eapply extendThroughTies_in_range, Hj.
  - apply negb_false_iff in E. unfold Std.isLastIndex in E. apply Nat.eqb_eq in E.
    intros [= <-]. lia.
Qed.

Lemma findCurrentIndex_Throw (timeLookup : TimeType -> nat) (t : TimeType)
  (e : exception) :
  findCurrentIndex ts timeLookup t = Throw e -> e = StdOutOfRange.
Proof.
  unfold findCurrentIndex.
  destruct (negb (Std.isLastIndex ts (timeLookup t)));
    [apply extendThroughTies_never_OutputTimeNotFound | discriminate].
Qed.

End TieExtension.

(** ** The covariance history as a map *)

Lemma assign_In_inv (key : TimeType) (value : MatrixXd) (history : History)
  (k : TimeType) (v : MatrixXd) :
  In (k, v) (assign key value history) ->
  ((k == key)%Q /\ v = value) \/ In (k, v) history.
Proof.
  induction history as [|[k0 v0] r IH]; simpl.
  - intros [[= <- <-]|[]]. left. split; reflexivity.
  - destruct (key ?= k0)%Q eqn:E.
    + apply Qeq_alt in E. intros [[= <- <-]|Hin].
      * left. split; [symmetry; exact E | reflexivity].
      * right. right. exact Hin.
    + intros [[= <- <-]|Hin]; [left; split; reflexivity | right; exact Hin].
    + intros [Hin|Hin]; [right; left; exact Hin|].
      destruct (IH Hin) as [Hl|Hr]; [left; exact Hl | right; right; exact Hr].
Qed.

Lemma assign_key_present (key : TimeType) (value : MatrixXd) (history : History) :
  exists k, In (k, value) (assign key value history) /\ (k == key)%Q.
Proof.
  induction history as [|[k0 v0] r IH]; simpl.
  - exists key. split; [left; reflexivity | reflexivity].
  - destruct (key ?= k0)%Q eqn:E.
    + apply Qeq_alt in E. exists k0. split; [left; reflexivity | symmetry; exact E].
    + exists key. split; [left; reflexivity | reflexivity].
    + destruct IH as (k & Hin & Hk). exists k. split; [right; exact Hin | exact Hk].
Qed.

Lemma assign_keys_kept (key : TimeType) (value : MatrixXd) (history : History)
  (k : TimeType) (v : MatrixXd) :
  In (k, v) history -> exists v', In (k, v') (assign key value history).
Proof.
  induction history as [|[k0 v0] r IH]; simpl; [intros []|].
  intros Hin. destruct (key ?= k0)%Q eqn:E.
  - destruct Hin as [[= <- <-]|Hin].
    + exists value. left. reflexivity.
    + exists v. right. exact Hin.
  - exists v. right. exact Hin.
  - destruct Hin as [[= <- <-]|Hin].
    + exists v0. left. reflexivity.
    + destruct (IH Hin) as (v' & Hv'). exists v'. right. exact Hv'.
Qed.

Lemma assign_hasKey (key : TimeType) (value : MatrixXd) (history : History)
  (k : TimeType) :
  hasKey k (assign key value history) <-> (k == key)%Q \/ hasKey k history.
Proof.
  split.
  - intros (k' & v & Hin & Hk).
    destruct (assign_In_inv _ _ _ _ _ Hin) as [[Hk' _]|Hold].
    + left. rewrite <- Hk. exact Hk'.
    + right. exists k', v. split; assumption.
  - intros [Hk|(k' & v & Hin & Hk)].
    + destruct (assign_key_present key value history) as (k' & Hin & Hk').
      exists k', value. split; [exact Hin|]. rewrite Hk', Hk. reflexivity.
    + destruct (assign_keys_kept key value history _ _ Hin) as (v' & Hin').
      exists k', v'. split; assumption.
Qed.

Lemma hasKey_nil (k : TimeType) : ~ hasKey k [].
Proof. intros (k' & v & [] & _). Qed.

(** Finitely many positive steps span any length of time. *)
Lemma steps_span (a dt : Q) :
  (0 < dt)%Q -> exists n, (a <= inject_Z (Z.of_nat n) * dt)%Q.
Proof.
  intros Hdt.
  set (c := Qceiling (a / dt)).
  exists (Z.to_nat c).
  assert (Hc : (a / dt <= inject_Z (Z.of_nat (Z.to_nat c)))%Q).
  { eapply Qle_trans; [apply Qle_ceiling|]. fold c.
    rewrite <- Zle_Qle. lia. }
  apply (Qmult_le_compat_r _ _ dt) in Hc; [|lra].
  assert (Hq : (a / dt * dt == a)%Q) by (field; lra).
  rewrite Hq in Hc. exact Hc.
Qed.

(** ** The outer loop *)

Lemma queryTime_shift {TA : TimeArithmetic} (t : TimeType) (dt : Q) (n : nat) :
  queryTime t dt (S n) = queryTime (plusAssign t dt) dt n.
Proof. exact (Nat.iter_succ_r n Q (fun currentTime => plusAssign currentTime dt) t). Qed.

Section OuterLoop.

Context {DI : DenseInverse} {TA : TimeArithmetic}.

Variables (ts : list TimeType) (timeLookup : TimeType -> nat) (M : MatrixXd)
          (w : VectorXd) (U : MatrixXd) (dt : Q) (P : MatrixXd).

Hypothesis ts_nonempty : ts <> [].
Hypothesis timeLookup_in_range : forall t, timeLookup t < length ts.
Hypothesis M_rows : rows M = length ts.
Hypothesis w_rows : length w = length ts.

Let lastTime : TimeType := nth (length ts - 1) ts 0%Q.

Lemma covarianceUpTo_Return (j : nat) :
  j < length ts ->
  covarianceUpTo M w U P j = Return (covarianceOfPrefix M w U P (j + 1)).
Proof.
  clear timeLookup_in_range.
  intros Hj. unfold covarianceUpTo, topRows, headSegment.
  replace (j + 1 <=? rows M) with true by (symmetry; apply Nat.leb_le; lia).
  replace (j + 1 <=? length w) with true by (symmetry; apply Nat.leb_le; lia).
  reflexivity.
Qed.

Lemma loopBody_Return (t : TimeType) (h : History) :
  exists j,
    findCurrentIndex ts timeLookup (plusAssign t dt) = Return j /\ j < length ts /\
    loopBody ts timeLookup M w U dt P t h =
    Return (plusAssign t dt,
            assign (nth j ts 0%Q) (covarianceOfPrefix M w U P (j + 1)) h).
Proof.
  destruct (findCurrentIndex_spec ts timeLookup (plusAssign t dt)
              (timeLookup_in_range _)) as (j & Hj & Hr & _).
  exists j. split; [exact Hj|]. split; [lia|].
  unfold loopBody. rewrite Hj. simpl.
  replace (length ts <=? j) with false by (symmetry; apply Nat.leb_gt; lia).
  simpl. rewrite covarianceUpTo_Return by lia. simpl.
  rewrite at_in_range by lia. reflexivity.
Qed.

Lemma covarianceLoop_step (fuel : nat) (t : TimeType) (h : History) :
  covarianceLoop ts timeLookup M w U dt P (S fuel) t h =
  if Qlt_bool t lastTime then
    st <- loopBody ts timeLookup M w U dt P t h ;;
    covarianceLoop ts timeLookup M w U dt P fuel (fst st) (snd st)
  else Return h.
Proof.
  simpl. rewrite indexLast_nonempty by exact ts_nonempty. reflexivity.
Qed.

(** Partial correctness: a property preserved by every pass holds of the
    returned history, and the query time has then reached the last time. *)
Lemma covarianceLoop_invariant (Inv : TimeType -> History -> Prop) :
  (forall t h j,
      Inv t h -> (t < lastTime)%Q ->
      findCurrentIndex ts timeLookup (plusAssign t dt) = Return j -> j < length ts ->
      Inv (plusAssign t dt)
          (assign (nth j ts 0%Q) (covarianceOfPrefix M w U P (j + 1)) h)) ->
  forall fuel t h h',
    Inv t h -> covarianceLoop ts timeLookup M w U dt P fuel t h = Return h' ->
    exists t', Inv t' h' /\ (lastTime <= t')%Q.
Proof.
  intros Hstep. induction fuel as [|fuel IH]; intros t h h' Hinv; [discriminate|].
  rewrite covarianceLoop_step.
  destruct (Qlt_bool t lastTime) eqn:E.
  - apply Qlt_bool_iff in E.
    destruct (loopBody_Return t h) as (j & Hj & Hr & Hbody).
    rewrite Hbody. simpl. apply IH. apply Hstep; assumption.
  - apply Qlt_bool_false_iff in E. intros [= <-]. exists t. split; assumption.
Qed.

Lemma covarianceLoop_fuel_mono (fuel fuel' : nat) (t : TimeType) (h h' : History) :
  covarianceLoop ts timeLookup M w U dt P fuel t h = Return h' -> fuel <= fuel' ->
  covarianceLoop ts timeLookup M w U dt P fuel' t h = Return h'.
Proof.
  revert fuel' t h. induction fuel as [|fuel IH]; intros fuel' t h; [discriminate|].
  intros E Hle. destruct fuel' as [|fuel']; [lia|].
  rewrite covarianceLoop_step in *.
  destruct (Qlt_bool t lastTime); [|exact E].
  destruct (loopBody_Return t h) as (j & _ & _ & Hbody).
  rewrite Hbody in *. simpl in *. apply IH; [exact E | lia].
Qed.

(** With consistent sizes and a lookup scheme that returns rows, the loop
    neither throws nor runs into undefined behaviour. *)
Lemma covarianceLoop_Return_or_OutOfFuel (fuel : nat) (t : TimeType) (h : History) :
  (exists h', covarianceLoop ts timeLookup M w U dt P fuel t h = Return h') \/
  covarianceLoop ts timeLookup M w U dt P fuel t h = OutOfFuel.
Proof.
  revert t h. induction fuel as [|fuel IH]; intros t h; [right; reflexivity|].
  rewrite covarianceLoop_step.
  destruct (Qlt_bool t lastTime); [|left; exists h; reflexivity].
  destruct (loopBody_Return t h) as (j & _ & _ & Hbody).
  rewrite Hbody. simpl. apply IH.
Qed.

(** Termination: [n] passes suffice when [n] additions of the step bring the
    time to the last time or beyond. *)
Lemma covarianceLoop_terminates (n : nat) :
  forall t h,
    (lastTime <= queryTime t dt n)%Q ->
    exists h', covarianceLoop ts timeLookup M w U dt P (S n) t h = Return h'.
Proof.
  induction n as [|n IH]; intros t h Hn; rewrite covarianceLoop_step.
  - replace (Qlt_bool t lastTime) with false; [exists h; reflexivity|].
    symmetry. apply Qlt_bool_false_iff. exact Hn.
  - destruct (Qlt_bool t lastTime); [|exists h; reflexivity].
    destruct (loopBody_Return t h) as (j & _ & _ & Hbody).
    rewrite Hbody. simpl. apply IH.
    rewrite queryTime_shift in Hn. exact Hn.
Qed.

(** A loop that returns has brought the time to the last time or beyond, in
    fewer additions than it had fuel. *)
Lemma covarianceLoop_Return_reaches :
  forall fuel t h h',
    covarianceLoop ts timeLookup M w U dt P fuel t h = Return h' ->
    exists n, n < fuel /\ (lastTime <= queryTime t dt n)%Q.
Proof.
  induction fuel as [|fuel IH]; intros t h h'; [discriminate|].
  rewrite covarianceLoop_step.
  destruct (Qlt_bool t lastTime) eqn:E.
  - destruct (loopBody_Return t h) as (j & _ & _ & Hbody).
    rewrite Hbody. simpl. intros Hr.
    destruct (IH _ _ _ Hr) as (n & Hn & Hreach).
    exists (S n). split; [lia|]. rewrite queryTime_shift. exact Hreach.
  - intros _. exists 0. split; [lia|]. apply Qlt_bool_false_iff in E. exact E.
Qed.

(** Divergence: the loop never ends from a time in a set of times below the
    last time that the addition of the step does not leave. *)
Lemma covarianceLoop_diverges (Stay : TimeType -> Prop) :
  (forall t, Stay t -> (t < lastTime)%Q /\ Stay (plusAssign t dt)) ->
  forall fuel t h, Stay t -> covarianceLoop ts timeLookup M w U dt P fuel t h = OutOfFuel.
Proof.
  intros Hstay. induction fuel as [|fuel IH]; intros t h Ht; [reflexivity|].
  rewrite covarianceLoop_step.
  destruct (Hstay t Ht) as [Hbelow Hnext].
  replace (Qlt_bool t lastTime) with true by (symmetry; apply Qlt_bool_iff; exact Hbelow).
  destruct (loopBody_Return t h) as (j & _ & _ & Hbody).
  rewrite Hbody. simpl. apply IH, Hnext.
Qed.

End OuterLoop.

(** ** The whole function *)

Lemma checkInputConsistency_cases (H : MatrixXd) (nf w : VectorXd) (P : MatrixXd) :
  (checkInputConsistency H nf w P = Return tt /\ consistentShapes H nf w P) \/
  (exists e, checkInputConsistency H nf w P = Throw e /\ isShapeError e /\
             ~ consistentShapes H nf w P).
Proof.
  unfold checkInputConsistency, consistentShapes, isShapeError.
  destruct (Nat.eqb_spec (cols P) (rows P)) as [E1|E1];
    [|right; eexists; split; [reflexivity|]; split; [tauto | intros (? & ? & ? & ?); tauto]].
  destruct (Nat.eqb_spec (cols H) (cols P)) as [E2|E2];
    [|right; eexists; split; [reflexivity|]; split; [tauto | intros (? & ? & ? & ?); tauto]].
  destruct (Nat.eqb_spec (length nf) (cols P)) as [E3|E3];
    [|right; eexists; split; [reflexivity|]; split; [tauto | intros (? & ? & ? & ?); tauto]].
  destruct (Nat.eqb_spec (rows H) (length w)) as [E4|E4];
    [|right; eexists; split; [reflexivity|]; split; [tauto | intros (? & ? & ? & ?); tauto]].
  left. tauto.
Qed.

Section WholeFunction.

Context {OM : ObservationModels} {DI : DenseInverse} {TA : TimeArithmetic}.

Lemma orderedTimesOf_length (md : PodInputType) :
  length (orderedTimesOf md) = length (getConcatenatedTimeVector md).
Proof. apply sortedVector_length. Qed.

Lemma sortOrderOf_length (md : PodInputType) :
  length (sortOrderOf md) = length (getConcatenatedTimeVector md).
Proof. apply sortOrder_length. Qed.

Lemma calculate_as_loop (fuel : nat) (md : PodInputType) (H : MatrixXd)
  (nf : VectorXd) (dt : Q) (w : VectorXd) (P : MatrixXd) :
  validInput md H nf w P ->
  calculateCovarianceMatrixAsFunctionOfTime fuel md H nf dt w P =
  covarianceLoop (orderedTimesOf md) (timeLookupOf md)
                 (permuteRows (sortOrderOf md) H)
                 (permuteCoeffs (sortOrderOf md) w) (asDiagonal nf) dt P
                 fuel (firstTime md) [].
Proof.
  intros (Hshape & Hrows & Hne).
  unfold calculateCovarianceMatrixAsFunctionOfTime.
  destruct (checkInputConsistency_cases H nf w P) as [[-> _]|(e & _ & _ & Hn)];
    [|contradiction].
  cbn [bind]. rewrite getTimeOrderedInformationMatrix_Return by exact Hrows.
  cbn [bind fst snd]. fold (sortOrderOf md). fold (orderedTimesOf md).
  destruct Hshape as (_ & _ & _ & Hw).
  rewrite reorderWeights_permute.
  - cbn [bind]. unfold Std.index.
    rewrite (nth_error_nth' (orderedTimesOf md) 0%Q); [reflexivity|].
    rewrite orderedTimesOf_length.
    destruct (getConcatenatedTimeVector md); [congruence | simpl; lia].
  - rewrite <- Hw, Hrows. apply sortOrder_in_range.
  - rewrite sortOrderOf_length. congruence.
Qed.

Lemma validInput_table (md : PodInputType) (H : MatrixXd) (nf w : VectorXd) (P : MatrixXd) :
  validInput md H nf w P ->
  orderedTimesOf md <> [] /\
  rows (permuteRows (sortOrderOf md) H) = length (orderedTimesOf md) /\
  length (permuteCoeffs (sortOrderOf md) w) = length (orderedTimesOf md).
Proof.
  intros (Hshape & Hrows & Hne). split; [|split].
  - intros E. apply (f_equal (@length Q)) in E.
    rewrite orderedTimesOf_length in E.
    destruct (getConcatenatedTimeVector md); [congruence | discriminate].
  - unfold rows, permuteRows; simpl. rewrite length_map.
    now rewrite sortOrderOf_length, orderedTimesOf_length.
  - unfold permuteCoeffs. rewrite length_map.
    now rewrite sortOrderOf_length, orderedTimesOf_length.
Qed.

(** The lookup scheme of a non-empty table returns rows of the table. *)
Lemma timeLookupOf_in_range (md : PodInputType) :
  orderedTimesOf md <> [] ->
  forall t, timeLookupOf md t < length (orderedTimesOf md).
Proof. intros Hne t. apply findNearestLowerNeighbour_in_range, Hne. Qed.

(** A call that returns was given a valid input. *)
Lemma calculate_Return_valid (md : PodInputType) (H : MatrixXd) (nf : VectorXd) (dt : Q)
  (w : VectorXd) (P : MatrixXd) (fuel : nat) (h : History) :
  calculateCovarianceMatrixAsFunctionOfTime fuel md H nf dt w P = Return h ->
  validInput md H nf w P.
Proof.
  intros E. unfold calculateCovarianceMatrixAsFunctionOfTime in E.
  destruct (checkInputConsistency_cases H nf w P) as [[Hc Hs]|(e & Hc & _)];
    rewrite Hc in E; cbn [bind] in E; [|discriminate].
  split; [exact Hs|].
  destruct (Nat.eq_dec (rows H) (length (getConcatenatedTimeVector md))) as [Hrows|Hrows];
    [|rewrite getTimeOrderedInformationMatrix_Throw in E by exact Hrows; discriminate].
  split; [exact Hrows|]. intros Hv.
  rewrite getTimeOrderedInformationMatrix_Return in E by exact Hrows.
  cbn [bind fst snd] in E. rewrite Hv in E. cbn in E. discriminate.
Qed.

(** The function returns, with any fuel above [n] and the same history, when
    [n] additions of the step bring the time from the first to the last
    observation time or beyond. *)
Lemma calculate_returns (md : PodInputType) (H : MatrixXd) (nf : VectorXd) (dt : Q)
  (w : VectorXd) (P : MatrixXd) (n : nat) :
  validInput md H nf w P ->
  (lastTime md <= queryTime (firstTime md) dt n)%Q ->
  exists h, forall fuel, S n <= fuel ->
    calculateCovarianceMatrixAsFunctionOfTime fuel md H nf dt w P = Return h.
Proof.
  intros Hvalid Hn.
  destruct (validInput_table md H nf w P Hvalid) as (Hne & HM & Hw).
  destruct (covarianceLoop_terminates (orderedTimesOf md) (timeLookupOf md)
              (permuteRows (sortOrderOf md) H)
              (permuteCoeffs (sortOrderOf md) w) (asDiagonal nf) dt P Hne
              (timeLookupOf_in_range md Hne) HM Hw n _ [] Hn)
    as (h & Hh).
  exists h. intros fuel Hfuel.
  rewrite calculate_as_loop by exact Hvalid.
  eapply covarianceLoop_fuel_mono; eauto. apply timeLookupOf_in_range, Hne.
Qed.

(** A call that returns has brought the time to the last observation time or
    beyond, in fewer additions than it had fuel. *)
Lemma calculate_Return_reaches (fuel : nat) (md : PodInputType) (H : MatrixXd)
  (nf : VectorXd) (dt : Q) (w : VectorXd) (P : MatrixXd) (h : History) :
  validInput md H nf w P ->
  calculateCovarianceMatrixAsFunctionOfTime fuel md H nf dt w P = Return h ->
  exists n, n < fuel /\ (lastTime md <= queryTime (firstTime md) dt n)%Q.
Proof.
  intros Hvalid E. rewrite calculate_as_loop in E by exact Hvalid.
  destruct (validInput_table md H nf w P Hvalid) as (Hne & HM & Hw).
  eapply covarianceLoop_Return_reaches; [exact Hne | | exact HM | exact Hw | exact E].
  apply timeLookupOf_in_range, Hne.
Qed.

End WholeFunction.

(** ** Exceptions a call can throw *)

Section Exceptions.

Context {OM : ObservationModels} {DI : DenseInverse} {TA : TimeArithmetic}.

Lemma reorderRows_never_throws (M : MatrixXd) (order : list nat) :
  forall i S0 e, reorderRows M order i S0 <> Throw e.
Proof.
  induction order as [|p rest IH]; intros i S0 e; simpl; [discriminate|].
  unfold rowBlock, assignRowBlock.
  destruct (nth_error (rowData M) p); simpl; [|discriminate].
  destruct (i <? rows S0); simpl; [apply IH | discriminate].
Qed.

Lemma reorderWeights_never_throws (w : VectorXd) (order : list nat) :
  forall i v0 e, reorderWeights w order i v0 <> Throw e.
Proof.
  induction order as [|p rest IH]; intros i v0 e; simpl; [discriminate|].
  unfold coeff, assignCoeff.
  destruct (nth_error w p); simpl; [|discriminate].
  destruct (i <? length v0); simpl; [apply IH | discriminate].
Qed.

Lemma getTimeOrderedInformationMatrix_Throw_inv (md : PodInputType) (H : MatrixXd)
  (e : exception) :
  getTimeOrderedInformationMatrix md H = Throw e ->
  e = SortSizesIncompatible /\ rows H <> length (getConcatenatedTimeVector md).
Proof.
  destruct (Nat.eq_dec (rows H) (length (getConcatenatedTimeVector md))) as [E|E].
  - rewrite getTimeOrderedInformationMatrix_Return by exact E. discriminate.
  - rewrite getTimeOrderedInformationMatrix_Throw by exact E.
    intros [= <-]. split; [reflexivity | exact E].
Qed.

Lemma loopBody_Throw_inv (ts : list TimeType) (timeLookup : TimeType -> nat)
  (M : MatrixXd) (w : VectorXd) (U : MatrixXd) (dt : Q) (P : MatrixXd) (t : TimeType)
  (h : History) (e : exception) :
  loopBody ts timeLookup M w U dt P t h = Throw e -> e = StdOutOfRange.
Proof.
  unfold loopBody. intros E.
  apply bind_Throw_inv in E as [E|(j & Hj & E)];
    [eapply findCurrentIndex_Throw, E|].
  apply findCurrentIndex_in_range in Hj.
  replace (length ts <=? j) with false in E by (symmetry; apply Nat.leb_gt; exact Hj).
  cbn [negb] in E.
  apply bind_Throw_inv in E as [E|(V & _ & E)].
  - unfold covarianceUpTo, topRows, headSegment in E.
    destruct (j + 1 <=? rows M); [|discriminate].
    destruct (j + 1 <=? length w); discriminate.
  - rewrite at_in_range in E by exact Hj. discriminate.
Qed.

Lemma covarianceLoop_Throw_inv (ts : list TimeType) (timeLookup : TimeType -> nat)
  (M : MatrixXd) (w : VectorXd) (U : MatrixXd) (dt : Q) (P : MatrixXd) :
  forall fuel t h e,
    covarianceLoop ts timeLookup M w U dt P fuel t h = Throw e -> e = StdOutOfRange.
Proof.
  induction fuel as [|fuel IH]; intros t h e; simpl; [discriminate|].
  intros E. apply bind_Throw_inv in E as [E|(last & _ & E)].
  - unfold Std.indexLast, Std.index in E.
    destruct ts; [discriminate|]. destruct (nth_error _ _); discriminate.
  - destruct (Qlt_bool t last); [|discriminate].
    apply bind_Throw_inv in E as [E|(st & _ & E)].
    + eapply loopBody_Throw_inv, E.
    + eapply IH, E.
Qed.

(** The only exceptions of the function: the four of the consistency checks,
    the one of the sort-size check, and [std::out_of_range]. *)
Lemma calculate_Throw_inv (fuel : nat) (md : PodInputType) (H : MatrixXd)
  (nf : VectorXd) (dt : Q) (w : VectorXd) (P : MatrixXd) (e : exception) :
  calculateCovarianceMatrixAsFunctionOfTime fuel md H nf dt w P = Throw e ->
  (isShapeError e /\ checkInputConsistency H nf w P = Throw e) \/
  (consistentShapes H nf w P /\
   (e = SortSizesIncompatible /\ rows H <> length (getConcatenatedTimeVector md) \/
    e = StdOutOfRange)).
Proof.
  unfold calculateCovarianceMatrixAsFunctionOfTime. intros E.
  destruct (checkInputConsistency_cases H nf w P) as [[Hc Hs]|(e' & Hc & He' & _)];
    rewrite Hc in E; cbn [bind] in E.
  - right. split; [exact Hs|].
    apply bind_Throw_inv in E as [E|(out & _ & E)];
      [left; eapply getTimeOrderedInformationMatrix_Throw_inv, E|].
    apply bind_Throw_inv in E as [E|(w' & _ & E)];
      [exfalso; eapply reorderWeights_never_throws, E|].
    apply bind_Throw_inv in E as [E|(t0 & _ & E)].
    + unfold Std.index in E. destruct (nth_error _ 0); discriminate.
    + right. eapply covarianceLoop_Throw_inv, E.
  - left. injection E as <-. split; [exact He' | exact Hc].
Qed.

End Exceptions.

(** * The properties of the specification *)

(** C5.  [calculateCovarianceMatrixAsFunctionOfTime] throws one of the four
    exceptions of its consistency checks exactly when one of the four shape
    conditions fails (square a-priori inverse covariance; as many columns of
    the information matrix, and as many normalization factors, as its
    dimension; as many weights as rows of the information matrix); the
    exception is thrown whatever the measurement data, the output step and the
    fuel are, that is before any other work. *)
Theorem C5_shape_errors_exactly_on_inconsistent_shapes
  {OM : ObservationModels} {DI : DenseInverse} {TA : TimeArithmetic}
  (fuel : nat) (md : PodInputType) (H : MatrixXd) (nf : VectorXd) (dt : Q)
  (w : VectorXd) (P : MatrixXd) :
  ((exists e, isShapeError e /\
              calculateCovarianceMatrixAsFunctionOfTime fuel md H nf dt w P = Throw e)
   <-> ~ consistentShapes H nf w P) /\
  (forall e, checkInputConsistency H nf w P = Throw e ->
             forall fuel' md' dt',
               calculateCovarianceMatrixAsFunctionOfTime fuel' md' H nf dt' w P = Throw e).
Proof.
  split.
  - split.
    + intros (e & He & E). apply calculate_Throw_inv in E.
      destruct E as [[_ Hc]|[Hs [[-> _]| ->]]].
      * destruct (checkInputConsistency_cases H nf w P) as [[Hr _]|(e' & _ & _ & Hn)];
          [congruence | exact Hn].
      * destruct He as [He|[He|[He|He]]]; discriminate.
      * destruct He as [He|[He|[He|He]]]; discriminate.
    + intros Hn.
      destruct (checkInputConsistency_cases H nf w P) as [[_ Hs]|(e & Hc & He & _)];
        [contradiction|].
      exists e. split; [exact He|].
      unfold calculateCovarianceMatrixAsFunctionOfTime. now rewrite Hc.
  - intros e Hc fuel' md' dt'.
    unfold calculateCovarianceMatrixAsFunctionOfTime. now rewrite Hc.
Qed.

(** An a-priori inverse covariance with one row and two columns is rejected
    by the first check. *)
Lemma C5_shape_errors_exactly_on_inconsistent_shapes_witness :
  exists e,
    isShapeError e /\
    @calculateCovarianceMatrixAsFunctionOfTime sizedObservables exactDenseInverse doubleTime
      3 twoTimesExample twoTimesH [2]%Q 2%Q [1; 1]%Q (mkMatrix 2 [ [1; 0] ]%Q) = Throw e.
Proof.
  destruct (@C5_shape_errors_exactly_on_inconsistent_shapes sizedObservables exactDenseInverse
      doubleTime
              3 twoTimesExample twoTimesH [2]%Q 2%Q [1; 1]%Q (mkMatrix 2 [ [1; 0] ]%Q))
    as [[_ Hthrows] _].
  apply Hthrows. intros (Hsquare & _). discriminate Hsquare.
Defined.

(** C6.  [getConcatenatedTimeVector] concatenates, in the iteration order of
    the observable types and then of the link ends, the time tags of every
    entry: each sample time repeated contiguously as many times as the
    observable size, which for size 1 is the time list itself; its length is
    the sum over the entries of sample count times observable size. *)
Theorem C6_concatenated_time_vector {OM : ObservationModels} (md : PodInputType) :
  (forall ty links, In (ty, links) md -> (1 <= getObservableSize ty)%Z) ->
  getConcatenatedTimeVector md =
  flat_map (fun observables =>
              flat_map (fun data =>
                          flat_map (fun t => repeat t (Z.to_nat (getObservableSize (fst observables))))
                                   (timesOf data))
                       (snd observables))
           md /\
  (forall times : list TimeType, flat_map (fun t => repeat t (Z.to_nat 1)) times = times) /\
  Z.of_nat (length (getConcatenatedTimeVector md)) = totalNumberOfObservations md.
Proof.
  intros Hsize. split; [|split].
  - apply getConcatenatedTimeVector_flat_map.
  - intros times. apply flat_map_repeat_once.
  - apply length_getConcatenatedTimeVector.
    intros ty links Hin. specialize (Hsize ty links Hin). lia.
Qed.

Lemma C6_concatenated_time_vector_witness :
  getConcatenatedTimeVector collatorExample = [5; 5; 5; 7; 7; 7; 0; 1; 4]%Q /\
  Z.of_nat (length (getConcatenatedTimeVector collatorExample)) =
  totalNumberOfObservations collatorExample.
Proof.
  assert (Hsize : forall ty links, In (ty, links) collatorExample ->
                                   (1 <= getObservableSize ty)%Z).
  { intros ty links [E|[E|[]]]; injection E as <- _; simpl; lia. }
  destruct (C6_concatenated_time_vector collatorExample Hsize) as (Hv & _ & Hlen).
  split; [rewrite Hv; reflexivity | exact Hlen].
Defined.

(** C7.  When the information matrix has as many rows as there are
    concatenated time tags, [getTimeOrderedInformationMatrix] returns a matrix
    of the same shape whose row [i] is row [order[i]] of the input, [order]
    being the sort order of the concatenated times (a permutation of the
    indices, returned through the reference argument), together with the
    sorted times, which are non-decreasing and are the input times in that
    order; it throws the size-mismatch error exactly when the length of the
    sort order differs from the number of rows. *)
Theorem C7_time_ordered_information_matrix {OM : ObservationModels}
  (md : PodInputType) (H : MatrixXd) :
  let v := getConcatenatedTimeVector md in
  let order := fst (utilities.getSortOrderOfVectorAndSortedVector v) in
  (rows H = length v ->
   exists sortedMatrix times,
     getTimeOrderedInformationMatrix md H = Return ((sortedMatrix, times), order) /\
     rows sortedMatrix = rows H /\ cols sortedMatrix = cols H /\
     (forall i, i < rows H ->
                nth_error (rowData sortedMatrix) i = nth_error (rowData H) (nth i order 0)) /\
     Permutation order (seq 0 (length v)) /\
     length times = length v /\
     (forall i, i < length v -> nth_error times i = nth_error v (nth i order 0)) /\
     (forall i j, i <= j < length times -> (nth i times 0 <= nth j times 0)%Q)) /\
  (getTimeOrderedInformationMatrix md H = Throw SortSizesIncompatible
   <-> length order <> rows H).
Proof.
  intros v order. split.
  - intros Hrows.
    exists (permuteRows order H), (snd (utilities.getSortOrderOfVectorAndSortedVector v)).
    split; [apply getTimeOrderedInformationMatrix_Return, Hrows|].
    assert (Hlen : length order = length v) by apply sortOrder_length.
    split; [unfold rows in *; simpl; rewrite length_map; congruence|].
    split; [reflexivity|].
    split.
    { intros i Hi. unfold permuteRows; simpl. rewrite nth_error_map.
      rewrite (nth_error_nth' order 0) by lia. simpl.
      symmetry. apply nth_error_nth'.
      pose proof (sortOrder_in_range v) as Hr. rewrite Forall_forall in Hr.
      unfold rows in *. rewrite Hrows. apply Hr, nth_In. fold order. lia. }
    split; [apply sortOrder_perm|].
    split; [apply sortedVector_length|].
    split; [intros i Hi; apply sortedVector_lookup, Hi|].
    apply StronglySorted_nth, sortedVector_sorted.
  - assert (Hlen : length order = length v) by apply sortOrder_length.
    split.
    + intros E. apply getTimeOrderedInformationMatrix_Throw_inv in E as [_ E].
      fold v in E. lia.
    + intros Hne. apply getTimeOrderedInformationMatrix_Throw. fold v. lia.
Qed.

Lemma C7_time_ordered_information_matrix_witness :
  rows reindexerMatrix = length (getConcatenatedTimeVector reindexerExample) /\
  exists sortedMatrix times,
    getTimeOrderedInformationMatrix reindexerExample reindexerMatrix =
    Return ((sortedMatrix, times), [1; 2; 0]) /\
    nth_error (rowData sortedMatrix) 0 = Some [10; 11]%Q /\
    nth_error (rowData sortedMatrix) 2 = Some [30; 31]%Q /\
    (nth 0 times 0 <= nth 2 times 0)%Q.
Proof.
  split; [reflexivity|].
  destruct (C7_time_ordered_information_matrix reindexerExample reindexerMatrix)
    as [Hreturn _].
  destruct (Hreturn eq_refl) as
    (sortedMatrix & times & E & _ & _ & Hrow & _ & Hlen & _ & Hsorted).
  exists sortedMatrix, times.
  split; [exact E|].
  split; [apply (Hrow 0); unfold rows, reindexerMatrix; simpl; lia|].
  split; [apply (Hrow 2); unfold rows, reindexerMatrix; simpl; lia|].
  apply Hsorted. rewrite Hlen. unfold reindexerExample; simpl. lia.
Defined.

(** C8.  With no time tag at all and consistent shapes (an information matrix
    without rows, no weight), the ordered time vector is empty, the size check
    of the sorter passes, and the function reads its element 0: an access out
    of bounds, undefined behaviour. *)
Theorem C8_empty_observation_set_reads_out_of_bounds
  {OM : ObservationModels} {DI : DenseInverse} {TA : TimeArithmetic}
  (fuel : nat) (md : PodInputType) (H : MatrixXd) (nf : VectorXd) (dt : Q)
  (w : VectorXd) (P : MatrixXd) :
  getConcatenatedTimeVector md = [] ->
  consistentShapes H nf w P ->
  rows H = 0 ->
  orderedTimesOf md = [] /\
  Std.index (orderedTimesOf md) 0 = Undefined /\
  calculateCovarianceMatrixAsFunctionOfTime fuel md H nf dt w P = Undefined.
Proof.
  intros Hv Hshape Hrows.
  assert (Hts : orderedTimesOf md = []).
  { unfold orderedTimesOf. rewrite Hv. reflexivity. }
  split; [exact Hts|]. split; [rewrite Hts; reflexivity|].
  unfold calculateCovarianceMatrixAsFunctionOfTime.
  destruct (checkInputConsistency_cases H nf w P) as [[-> _]|(e & _ & _ & Hn)];
    [|contradiction].
  cbn [bind]. rewrite getTimeOrderedInformationMatrix_Return by (rewrite Hv; exact Hrows).
  cbn [bind fst snd]. fold (sortOrderOf md). fold (orderedTimesOf md).
  unfold sortOrderOf. rewrite Hv, Hts. reflexivity.
Qed.

Lemma C8_empty_observation_set_reads_out_of_bounds_witness :
  @calculateCovarianceMatrixAsFunctionOfTime sizedObservables exactDenseInverse doubleTime
    5 [] (mkMatrix 1 []) [2]%Q 2%Q [] (mkMatrix 1 [[1]]%Q) = Undefined.
Proof.
  apply (@C8_empty_observation_set_reads_out_of_bounds sizedObservables exactDenseInverse
      doubleTime
           5 [] (mkMatrix 1 []) [2]%Q 2%Q [] (mkMatrix 1 [[1]]%Q)).
  - reflexivity.
  - repeat split.
  - reflexivity.
Defined.

(** C10.  Whatever the table (non-decreasing or not) and whatever index the
    inner loop starts from, the index it returns is a row of the table, at
    most the last one; so is the index of lines 243-255, whatever the lookup
    scheme has returned, and the function never throws the "output time not
    found" exception. *)
Theorem C10_output_time_not_found_unreachable
  {OM : ObservationModels} {DI : DenseInverse} {TA : TimeArithmetic} :
  (forall (ts : list TimeType) fuel i j,
      extendThroughTies fuel ts i = Return j -> j <= length ts - 1 /\ j < length ts) /\
  (forall (ts : list TimeType) (timeLookup : TimeType -> nat) t j,
      findCurrentIndex ts timeLookup t = Return j ->
      j <= length ts - 1 /\ (length ts <=? j) = false) /\
  (forall fuel md H nf dt w P,
      calculateCovarianceMatrixAsFunctionOfTime fuel md H nf dt w P
      <> Throw OutputTimeNotFound).
Proof.
  split; [|split].
  - intros ts fuel i j E. apply extendThroughTies_in_range in E. lia.
  - intros ts timeLookup t j E. apply findCurrentIndex_in_range in E.
    split; [lia | apply Nat.leb_gt; exact E].
  - intros fuel md H nf dt w P E. apply calculate_Throw_inv in E.
    destruct E as [[He _]|[_ [[He _]|He]]]; try discriminate.
    destruct He as [He|[He|[He|He]]]; discriminate.
Qed.

(** Started at the first of the two rows at time 1, the inner loop returns
    the second. *)
Lemma C10_output_time_not_found_unreachable_witness :
  extendThroughTies 5 [0; 1; 1; 3]%Q 1 = Return 2 /\
  (2 <= length [0; 1; 1; 3]%Q - 1 /\ 2 < length [0; 1; 1; 3]%Q) /\
  @calculateCovarianceMatrixAsFunctionOfTime sizedObservables exactDenseInverse doubleTime
    3 twoTimesExample twoTimesH [2]%Q 2%Q [1; 1]%Q twoTimesP <> Throw OutputTimeNotFound.
Proof.
  destruct (@C10_output_time_not_found_unreachable sizedObservables exactDenseInverse doubleTime)
    as (Hinner & _ & Hcall).
  split; [reflexivity|]. split.
  - apply (Hinner [0; 1; 1; 3]%Q 5 1 2). reflexivity.
  - apply Hcall.
Defined.

(** ** Earliest and latest observation time *)

Lemma sorted_bounds (ts : list TimeType) (x : TimeType) :
  StronglySorted Qle ts -> In x ts ->
  (nth 0 ts 0 <= x <= nth (length ts - 1) ts 0)%Q.
Proof.
  intros Hs Hx. destruct (In_nth ts x 0%Q Hx) as (k & Hk & <-).
  split; apply StronglySorted_nth; try assumption; lia.
Qed.

Section OrderedTimes.

Context {OM : ObservationModels}.

Variable md : PodInputType.

Lemma orderedTimesOf_sorted : StronglySorted Qle (orderedTimesOf md).
Proof. apply sortedVector_sorted. Qed.

Lemma orderedTimesOf_In (x : TimeType) :
  In x (orderedTimesOf md) <-> In x (getConcatenatedTimeVector md).
Proof.
  split; apply Permutation_in;
    [apply sortedVector_perm | symmetry; apply sortedVector_perm].
Qed.

Lemma first_isEarliest :
  getConcatenatedTimeVector md <> [] ->
  isEarliest (nth 0 (orderedTimesOf md) 0%Q) (getConcatenatedTimeVector md).
Proof.
  intros Hne. split.
  - apply orderedTimesOf_In, nth_In. rewrite orderedTimesOf_length.
    destruct (getConcatenatedTimeVector md); [congruence | simpl; lia].
  - intros x Hx. apply orderedTimesOf_In in Hx.
    apply (sorted_bounds _ _ orderedTimesOf_sorted Hx).
Qed.

Lemma last_isLatest :
  getConcatenatedTimeVector md <> [] ->
  isLatest (nth (length (orderedTimesOf md) - 1) (orderedTimesOf md) 0%Q)
           (getConcatenatedTimeVector md).
Proof.
  intros Hne. split.
  - apply orderedTimesOf_In, nth_In. rewrite orderedTimesOf_length.
    destruct (getConcatenatedTimeVector md); [congruence | simpl; lia].
  - intros x Hx. apply orderedTimesOf_In in Hx.
    apply (sorted_bounds _ _ orderedTimesOf_sorted Hx).
Qed.

Lemma isEarliest_unique (a b : TimeType) (l : list TimeType) :
  isEarliest a l -> isEarliest b l -> (a == b)%Q.
Proof.
  intros [Ha Hal] [Hb Hbl]. specialize (Hal b Hb). specialize (Hbl a Ha). lra.
Qed.

Lemma isLatest_unique (a b : TimeType) (l : list TimeType) :
  isLatest a l -> isLatest b l -> (a == b)%Q.
Proof.
  intros [Ha Hal] [Hb Hbl]. specialize (Hal b Hb). specialize (Hbl a Ha). lra.
Qed.

(** Two distinct observation times: the first ordered time is below the
    last. *)
Lemma distinct_times_span :
  (exists x y, In x (getConcatenatedTimeVector md) /\
               In y (getConcatenatedTimeVector md) /\ ~ (x == y)%Q) ->
  (nth 0 (orderedTimesOf md) 0 <
   nth (length (orderedTimesOf md) - 1) (orderedTimesOf md) 0)%Q.
Proof.
  intros (x & y & Hx & Hy & Hxy).
  apply orderedTimesOf_In in Hx. apply orderedTimesOf_In in Hy.
  pose proof (sorted_bounds _ _ orderedTimesOf_sorted Hx) as Bx.
  pose proof (sorted_bounds _ _ orderedTimesOf_sorted Hy) as By.
  destruct (Qlt_le_dec (nth 0 (orderedTimesOf md) 0%Q)
              (nth (length (orderedTimesOf md) - 1) (orderedTimesOf md) 0%Q)) as [Hlt|Hle];
    [exact Hlt|].
  exfalso. apply Hxy. lra.
Qed.

End OrderedTimes.

(** ** The index of an output time in a non-decreasing table *)

Section Epochs.

Variable ts : list TimeType.
Hypothesis ts_sorted : StronglySorted Qle ts.
Hypothesis ts_nonempty : ts <> [].

Let timeLookup : TimeType -> nat := interpolators.findNearestLowerNeighbour ts.

Lemma findCurrentIndex_Return_inv (t : TimeType) (j : nat) :
  findCurrentIndex ts timeLookup t = Return j ->
  timeLookup t <= j < length ts /\
  (nth j ts 0 == nth (timeLookup t) ts 0)%Q /\
  (S j < length ts -> ~ (nth j ts 0 == nth (S j) ts 0)%Q).
Proof.
  clear ts_sorted. intros E.
  destruct (findCurrentIndex_spec ts timeLookup t
              (findNearestLowerNeighbour_in_range ts t ts_nonempty))
    as (j' & E' & Hr & Heq & Hend).
  assert (j' = j) as -> by congruence.
  split; [exact Hr|]. split; [apply Heq; lia | exact Hend].
Qed.

(** A query at or after the last time selects the last row. *)
Lemma findCurrentIndex_last (t : TimeType) (j : nat) :
  (nth (length ts - 1) ts 0 <= t)%Q ->
  findCurrentIndex ts timeLookup t = Return j -> j = length ts - 1.
Proof.
  clear ts_sorted. intros Ht E. apply findCurrentIndex_Return_inv in E as (Hr & _).
  assert (Hlen : 0 < length ts) by (destruct ts; [congruence | simpl; lia]).
  assert (Hk : length ts - 1 <= timeLookup t).
  { eapply findNearestLowerNeighbour_largest; [|exact Ht].
    apply nth_error_nth'. lia. }
  lia.
Qed.

(** The time at the row selected for a query is not above the query and not
    below any time that is not above the query. *)
Lemma findCurrentIndex_key_bounds (t : TimeType) (j : nat) (x : TimeType) :
  findCurrentIndex ts timeLookup t = Return j -> In x ts -> (x <= t)%Q ->
  (x <= nth j ts 0 <= t)%Q.
Proof.
  intros E Hx Hxt.
  apply findCurrentIndex_Return_inv in E as (Hr & Heq & _).
  destruct (In_nth ts x 0%Q Hx) as (k & Hk & <-).
  assert (Hkc : k <= timeLookup t).
  { eapply findNearestLowerNeighbour_largest; [|exact Hxt]. apply nth_error_nth'. exact Hk. }
  pose proof (StronglySorted_nth ts ts_sorted k _ ltac:(split; [exact Hkc | lia])) as Hle.
  pose proof (findNearestLowerNeighbour_not_above ts t k _
                (nth_error_nth' ts 0%Q Hk) Hxt) as Hc.
  rewrite Heq. split; assumption.
Qed.

End Epochs.

(** ** The history of a valid input *)

Lemma hasKey_Qeq (k k' : TimeType) (h : History) :
  (k == k')%Q -> hasKey k h -> hasKey k' h.
Proof.
  intros Hk (k0 & v & Hin & Hk0). exists k0, v. split; [exact Hin|].
  rewrite Hk0. exact Hk.
Qed.

(** Whatever rows the lookup scheme returns, the passes of the loop add only
    entries that end a run of equal times. *)
Lemma covarianceLoop_entries {DI : DenseInverse} {TA : TimeArithmetic}
  (ts : list TimeType) (timeLookup : TimeType -> nat) (M : MatrixXd) (w : VectorXd)
  (U : MatrixXd) (dt : Q) (P : MatrixXd) :
  ts <> [] -> (forall t, timeLookup t < length ts) ->
  rows M = length ts -> length w = length ts ->
  forall fuel t h h',
    entriesEndRuns ts M w U P h ->
    covarianceLoop ts timeLookup M w U dt P fuel t h = Return h' ->
    entriesEndRuns ts M w U P h'.
Proof.
  intros Hne Hrange HM Hw fuel t h h' Hh E.
  destruct (covarianceLoop_invariant ts timeLookup M w U dt P Hne Hrange HM Hw
              (fun _ h => entriesEndRuns ts M w U P h))
    with (fuel := fuel) (t := t) (h := h) (h' := h') as (t' & Hinv & _);
    [|exact Hh | exact E | exact Hinv].
  intros t1 h0 j Hinv _ Hj Hjr k V Hin.
  apply assign_In_inv in Hin as [[Hk ->]|Hin]; [|apply Hinv, Hin].
  exists j. split; [exact Hjr|]. split; [exact Hk|]. split; [reflexivity|].
  destruct (findCurrentIndex_spec ts timeLookup (plusAssign t1 dt) (Hrange _))
    as (j' & Hj' & _ & _ & Hend).
  assert (j' = j) as <- by congruence. exact Hend.
Qed.

Section HistoryOfValidInput.

Context {OM : ObservationModels} {DI : DenseInverse} {TA : TimeArithmetic}.

Variables (md : PodInputType) (H : MatrixXd) (nf : VectorXd) (dt : Q)
          (w : VectorXd) (P : MatrixXd).

Hypothesis valid : validInput md H nf w P.

(** Every entry of the returned history is keyed by the time of a row [j] of
    the time-ordered table at which a run of equal times ends, and holds the
    covariance of the first [j + 1] rows. *)
Lemma history_entries (fuel : nat) (h : History) :
  calculateCovarianceMatrixAsFunctionOfTime fuel md H nf dt w P = Return h ->
  forall k V, In (k, V) h ->
    exists j,
      j < length (orderedTimesOf md) /\
      (k == nth j (orderedTimesOf md) 0)%Q /\
      V = covarianceOfPrefix (permuteRows (sortOrderOf md) H)
                             (permuteCoeffs (sortOrderOf md) w)
                             (asDiagonal nf) P (j + 1) /\
      (S j < length (orderedTimesOf md) ->
       ~ (nth j (orderedTimesOf md) 0 == nth (S j) (orderedTimesOf md) 0)%Q).
Proof.
  rewrite calculate_as_loop by exact valid.
  destruct (validInput_table md H nf w P valid) as (Hne & HM & Hw).
  intros E.
  apply (covarianceLoop_entries _ _ _ _ _ dt _ Hne (timeLookupOf_in_range md Hne) HM Hw
           fuel (firstTime md) [] h); [|exact E].
  intros k V [].
Qed.

Hypothesis span : (firstTime md < lastTime md)%Q.

(** The largest key of the returned history is the last observation time. *)
Lemma history_largest_key (fuel : nat) (h : History) :
  calculateCovarianceMatrixAsFunctionOfTime fuel md H nf dt w P = Return h ->
  largestKey (lastTime md) h.
Proof.
  intros E. split.
  - rewrite calculate_as_loop in E by exact valid.
    destruct (validInput_table md H nf w P valid) as (Hne & HM & Hw).
    destruct (covarianceLoop_invariant (orderedTimesOf md) (timeLookupOf md) _ _
                (asDiagonal nf) dt P Hne (timeLookupOf_in_range md Hne) HM Hw
                (fun t h => (lastTime md <= t)%Q -> hasKey (lastTime md) h))
      with (fuel := fuel) (t := firstTime md) (h := @nil (Q * MatrixXd))
           (h' := h) as (t' & Hinv & Ht').
    + intros t h0 j _ _ Hj _ Hlast. apply assign_hasKey. left.
      rewrite (findCurrentIndex_last _ Hne _ _ Hlast Hj). reflexivity.
    + intros Hle. exfalso. lra.
    + exact E.
    + apply Hinv, Ht'.
  - intros k' (k0 & V & Hin & Hk0).
    destruct (history_entries fuel h E k0 V Hin) as (j & Hj & Hk & _).
    rewrite <- Hk0, Hk.
    apply StronglySorted_nth; [apply orderedTimesOf_sorted | lia].
Qed.

End HistoryOfValidInput.

(** ** Worked example: two observations, at times 0 and 3 *)

Lemma twoTimes_valid : validInput twoTimesExample twoTimesH [2]%Q [1; 1]%Q twoTimesP.
Proof. repeat split. discriminate. Qed.

Lemma twoTimes_distinct :
  exists x y, In x (getConcatenatedTimeVector twoTimesExample) /\
              In y (getConcatenatedTimeVector twoTimesExample) /\ ~ (x == y)%Q.
Proof.
  exists 0%Q, 3%Q. split; [left; reflexivity|]. split; [right; left; reflexivity|].
  intros E. discriminate E.
Qed.

Lemma twoTimes_earliest : isEarliest 0%Q (getConcatenatedTimeVector twoTimesExample).
Proof.
  split; [left; reflexivity|].
  intros x [<-|[<-|[]]]; unfold Qle; simpl; lia.
Qed.

Lemma twoTimes_latest : isLatest 3%Q (getConcatenatedTimeVector twoTimesExample).
Proof.
  split; [right; left; reflexivity|].
  intros x [<-|[<-|[]]]; unfold Qle; simpl; lia.
Qed.

(** With output step 2 the history has the keys 0 and 3. *)
Lemma twoTimes_history :
  @calculateCovarianceMatrixAsFunctionOfTime sizedObservables exactDenseInverse doubleTime
    3 twoTimesExample twoTimesH [2]%Q 2%Q [1; 1]%Q twoTimesP =
  Return [ (0%Q, mkMatrix 1 [ [1 # 12] ]%Q); (3%Q, mkMatrix 1 [ [1 # 16] ]%Q) ].
Proof. vm_compute. reflexivity. Qed.

(** ** Termination of the loop *)

(** Additions that advance the time by at least a fixed positive amount
    bring it to any time. *)
Lemma queryTime_progress {TA : TimeArithmetic} (t0 tl dt delta : Q) :
  (0 < delta)%Q ->
  (forall t, (t0 <= t < tl)%Q -> (t + delta <= plusAssign t dt)%Q) ->
  exists n, (tl <= queryTime t0 dt n)%Q.
Proof.
  intros Hd Hadv.
  assert (Hall : forall n,
             (exists k, (tl <= queryTime t0 dt k)%Q) \/
             ((t0 + inject_Z (Z.of_nat n) * delta <= queryTime t0 dt n)%Q /\
              (queryTime t0 dt n < tl)%Q)).
  { induction n as [|n [Hreached|[Hlow Hbelow]]].
    - destruct (Qlt_le_dec t0 tl) as [Hlt|Hge]; [|left; exists 0; exact Hge].
      right. change (queryTime t0 dt 0) with t0.
      change (inject_Z (Z.of_nat 0)) with 0%Q. split; [lra | exact Hlt].
    - left. exact Hreached.
    - destruct (Qlt_le_dec (queryTime t0 dt (S n)) tl) as [Hlt|Hge];
        [|left; exists (S n); exact Hge].
      right. split; [|exact Hlt].
      assert (Hn : (0 <= inject_Z (Z.of_nat n))%Q)
        by (change (inject_Z 0 <= inject_Z (Z.of_nat n))%Q; rewrite <- Zle_Qle; lia).
      assert (Hnd : (0 <= inject_Z (Z.of_nat n) * delta)%Q) by nra.
      assert (Hin : (t0 <= queryTime t0 dt n < tl)%Q) by (split; [nra | exact Hbelow]).
      specialize (Hadv (queryTime t0 dt n) Hin).
      change (queryTime t0 dt (S n)) with (plusAssign (queryTime t0 dt n) dt).
      rewrite Nat2Z.inj_succ, <- Z.add_1_r, inject_Z_plus.
      change (inject_Z 1) with 1%Q. nra. }
  destruct (steps_span (tl - t0) delta Hd) as (n & Hn).
  destruct (Hall n) as [Hreached|[Hlow Hbelow]]; [exact Hreached | exfalso; lra].
Qed.

Section Termination.

Context {OM : ObservationModels} {DI : DenseInverse} {TA : TimeArithmetic}.

Variables (md : PodInputType) (H : MatrixXd) (nf : VectorXd) (dt : Q)
          (w : VectorXd) (P : MatrixXd).

Hypothesis valid : validInput md H nf w P.

(** The function never returns when the first time lies in a set of times
    below the last time that the addition of the step does not leave. *)
Lemma calculate_diverges (Stay : TimeType -> Prop) :
  Stay (firstTime md) ->
  (forall t, Stay t -> (t < lastTime md)%Q /\ Stay (plusAssign t dt)) ->
  forall fuel, calculateCovarianceMatrixAsFunctionOfTime fuel md H nf dt w P = OutOfFuel.
Proof.
  intros Hfirst Hstay fuel. rewrite calculate_as_loop by exact valid.
  destruct (validInput_table md H nf w P valid) as (Hne & HM & Hw).
  apply (covarianceLoop_diverges _ _ _ _ _ _ _ Hne (timeLookupOf_in_range md Hne) HM Hw Stay);
    assumption.
Qed.

Lemma calculate_never_reaches :
  (forall n, (queryTime (firstTime md) dt n < lastTime md)%Q) ->
  forall fuel, calculateCovarianceMatrixAsFunctionOfTime fuel md H nf dt w P = OutOfFuel.
Proof.
  intros Hnever.
  apply (calculate_diverges (fun t => exists n, t = queryTime (firstTime md) dt n)).
  - exists 0. reflexivity.
  - intros t (n & ->). split; [apply Hnever|]. exists (S n). reflexivity.
Qed.

Lemma calculate_returns_by_progress (delta : Q) :
  (0 < delta)%Q ->
  (forall t, (firstTime md <= t < lastTime md)%Q -> (t + delta <= plusAssign t dt)%Q) ->
  exists n h, forall fuel, n <= fuel ->
    calculateCovarianceMatrixAsFunctionOfTime fuel md H nf dt w P = Return h.
Proof.
  intros Hd Hadv.
  destruct (queryTime_progress (firstTime md) (lastTime md) dt delta Hd Hadv) as (n & Hn).
  destruct (calculate_returns md H nf dt w P n valid Hn) as (h & Hh).
  exists (S n), h. exact Hh.
Qed.

Lemma calculate_diverges_by_decrease :
  (firstTime md < lastTime md)%Q ->
  (forall t, (t <= firstTime md)%Q -> (plusAssign t dt <= t)%Q) ->
  forall fuel, calculateCovarianceMatrixAsFunctionOfTime fuel md H nf dt w P = OutOfFuel.
Proof.
  intros Hspan Hdec.
  apply (calculate_diverges (fun t => (t <= firstTime md)%Q)); [lra|].
  intros t Ht. specialize (Hdec t Ht). split; lra.
Qed.

End Termination.

(** With exact additions a positive step always ends the loop and a
    non-positive step never does. *)
Lemma calculate_returns_exact {OM : ObservationModels} {DI : DenseInverse}
  (md : PodInputType) (H : MatrixXd) (nf : VectorXd) (dt : Q) (w : VectorXd)
  (P : MatrixXd) :
  validInput md H nf w P -> (0 < dt)%Q ->
  exists n h, forall fuel, n <= fuel ->
    @calculateCovarianceMatrixAsFunctionOfTime OM DI exactTime fuel md H nf dt w P =
    Return h.
Proof.
  intros Hvalid Hdt.
  apply (@calculate_returns_by_progress OM DI exactTime md H nf dt w P Hvalid dt Hdt).
  intros t _. apply Qle_refl.
Qed.

Lemma calculate_diverges_exact {OM : ObservationModels} {DI : DenseInverse}
  (md : PodInputType) (H : MatrixXd) (nf : VectorXd) (dt : Q) (w : VectorXd)
  (P : MatrixXd) :
  validInput md H nf w P -> (firstTime md < lastTime md)%Q -> (dt <= 0)%Q ->
  forall fuel,
    @calculateCovarianceMatrixAsFunctionOfTime OM DI exactTime fuel md H nf dt w P =
    OutOfFuel.
Proof.
  intros Hvalid Hspan Hdt.
  apply (@calculate_diverges_by_decrease OM DI exactTime md H nf dt w P Hvalid Hspan).
  intros t _. change (t + dt <= t)%Q. lra.
Qed.

(** With [double]s a non-positive step never ends the loop: no addition
    brings the time above the first time. *)
Lemma calculate_diverges_double {OM : ObservationModels} {DI : DenseInverse}
  (md : PodInputType) (H : MatrixXd) (nf : VectorXd) (dt : Q) (w : VectorXd)
  (P : MatrixXd) :
  validInput md H nf w P -> (firstTime md < lastTime md)%Q ->
  binary64.representable (firstTime md) -> (dt <= 0)%Q ->
  forall fuel,
    @calculateCovarianceMatrixAsFunctionOfTime OM DI doubleTime fuel md H nf dt w P =
    OutOfFuel.
Proof.
  intros Hvalid Hspan Hfirst Hdt.
  apply (@calculate_diverges OM DI doubleTime md H nf dt w P Hvalid
           (fun t => (t <= firstTime md)%Q)); [lra|].
  intros t Ht. split; [lra|].
  change (binary64.round (t + dt) <= firstTime md)%Q.
  apply round_le; [exact Hfirst | lra].
Qed.

(** C9, as the code has it.  For an input of consistent shapes with two
    distinct observation times: the consistency checks pass whatever the
    output step is, which they do not read; with a number of rows other than
    the number of time tags the sorter's check throws before the loop; with
    as many rows as time tags, the function returns when the additions of the
    step, each rounded as [TimeType] rounds, bring the time from the first to
    the last observation time or beyond, and never returns when they never
    do.  The additions reach the last time when each advances the time by at
    least a fixed positive amount, as the exact additions of a positive step
    do; they never reach it when none increases the time, as for a
    non-positive step with exact additions, or with [double]s when the first
    observation time is one. *)
Theorem C9_loop_termination
  {OM : ObservationModels} {DI : DenseInverse} {TA : TimeArithmetic}
  (md : PodInputType) (H : MatrixXd) (nf : VectorXd) (dt : Q) (w : VectorXd)
  (P : MatrixXd) :
  consistentShapes H nf w P ->
  (exists x y, In x (getConcatenatedTimeVector md) /\
               In y (getConcatenatedTimeVector md) /\ ~ (x == y)%Q) ->
  checkInputConsistency H nf w P = Return tt /\
  (rows H <> length (getConcatenatedTimeVector md) ->
   forall fuel,
     calculateCovarianceMatrixAsFunctionOfTime fuel md H nf dt w P =
     Throw SortSizesIncompatible) /\
  (rows H = length (getConcatenatedTimeVector md) ->
   (forall n, (lastTime md <= queryTime (firstTime md) dt n)%Q ->
      exists h, forall fuel, S n <= fuel ->
        calculateCovarianceMatrixAsFunctionOfTime fuel md H nf dt w P = Return h) /\
   ((forall n, (queryTime (firstTime md) dt n < lastTime md)%Q) ->
    forall fuel,
      calculateCovarianceMatrixAsFunctionOfTime fuel md H nf dt w P = OutOfFuel) /\
   (forall delta, (0 < delta)%Q ->
      (forall t, (firstTime md <= t < lastTime md)%Q ->
                 (t + delta <= plusAssign t dt)%Q) ->
      exists n h, forall fuel, n <= fuel ->
        calculateCovarianceMatrixAsFunctionOfTime fuel md H nf dt w P = Return h) /\
   ((forall t, (t <= firstTime md)%Q -> (plusAssign t dt <= t)%Q) ->
    forall fuel,
      calculateCovarianceMatrixAsFunctionOfTime fuel md H nf dt w P = OutOfFuel) /\
   ((0 < dt)%Q ->
    exists n h, forall fuel, n <= fuel ->
      @calculateCovarianceMatrixAsFunctionOfTime OM DI exactTime fuel md H nf dt w P =
      Return h) /\
   ((dt <= 0)%Q ->
    forall fuel,
      @calculateCovarianceMatrixAsFunctionOfTime OM DI exactTime fuel md H nf dt w P =
      OutOfFuel) /\
   ((dt <= 0)%Q -> binary64.representable (firstTime md) ->
    forall fuel,
      @calculateCovarianceMatrixAsFunctionOfTime OM DI doubleTime fuel md H nf dt w P =
      OutOfFuel)).
Proof.
  intros Hshape Hdistinct.
  split; [|split].
  - destruct (checkInputConsistency_cases H nf w P) as [[Hc _]|(e & _ & _ & Hn)];
      [exact Hc | contradiction].
  - intros Hrows fuel. unfold calculateCovarianceMatrixAsFunctionOfTime.
    destruct (checkInputConsistency_cases H nf w P) as [[-> _]|(e & _ & _ & Hn)];
      [|contradiction].
    cbn [bind]. rewrite getTimeOrderedInformationMatrix_Throw by exact Hrows.
    reflexivity.
  - intros Hrows.
    assert (Hvalid : validInput md H nf w P).
    { split; [exact Hshape|]. split; [exact Hrows|].
      destruct Hdistinct as (x & _ & Hx & _). intros E. rewrite E in Hx. exact Hx. }
    pose proof (distinct_times_span md Hdistinct) as Hspan.
    fold (firstTime md) (lastTime md) in Hspan.
    split; [|split; [|split; [|split; [|split; [|split]]]]].
    + intros n Hn. apply calculate_returns; assumption.
    + apply calculate_never_reaches, Hvalid.
    + intros delta. apply calculate_returns_by_progress, Hvalid.
    + apply calculate_diverges_by_decrease; assumption.
    + apply calculate_returns_exact, Hvalid.
    + apply calculate_diverges_exact; assumption.
    + intros Hdt Hfirst. apply calculate_diverges_double; assumption.
Qed.

Lemma roundedTimes_valid :
  validInput roundedTimesExample twoTimesH [2]%Q [1; 1]%Q twoTimesP.
Proof. repeat split. discriminate. Qed.

Lemma roundedTimes_distinct :
  exists x y, In x (getConcatenatedTimeVector roundedTimesExample) /\
              In y (getConcatenatedTimeVector roundedTimesExample) /\ ~ (x == y)%Q.
Proof.
  eexists _, _. split; [left; reflexivity|]. split; [right; left; reflexivity|].
  intros E. vm_compute in E. discriminate E.
Qed.

(** With [double]s: at the times 0.1 and 0.30000000000000004 one addition of
    the step 0.2 reaches the last time; at the times 0 and 3 the step -1
    never ends the loop. *)
Lemma C9_loop_termination_witness :
  (exists h, forall fuel, 2 <= fuel ->
     @calculateCovarianceMatrixAsFunctionOfTime sizedObservables exactDenseInverse doubleTime
       fuel roundedTimesExample twoTimesH [2]%Q (binary64.round (2 # 10)) [1; 1]%Q twoTimesP
     = Return h) /\
  (forall fuel,
     @calculateCovarianceMatrixAsFunctionOfTime sizedObservables exactDenseInverse doubleTime
       fuel twoTimesExample twoTimesH [2]%Q (-1)%Q [1; 1]%Q twoTimesP = OutOfFuel).
Proof.
  split.
  - destruct roundedTimes_valid as (Hshape & Hrows & _).
    destruct (@C9_loop_termination sizedObservables exactDenseInverse doubleTime
                roundedTimesExample twoTimesH [2]%Q (binary64.round (2 # 10)) [1; 1]%Q
                twoTimesP Hshape roundedTimes_distinct) as (_ & _ & Hloop).
    destruct (Hloop Hrows) as (Hreach & _).
    apply (Hreach 1). vm_compute. discriminate.
  - destruct twoTimes_valid as (Hshape & Hrows & _).
    destruct (@C9_loop_termination sizedObservables exactDenseInverse doubleTime
                twoTimesExample twoTimesH [2]%Q (-1)%Q [1; 1]%Q
                twoTimesP Hshape twoTimes_distinct) as (_ & _ & Hloop).
    destruct (Hloop Hrows) as (_ & _ & _ & _ & _ & _ & Hdouble).
    apply Hdouble; [discriminate | reflexivity].
Defined.

Lemma absorbedStep_valid :
  validInput absorbedStepExample twoTimesH [2]%Q [1; 1]%Q twoTimesP.
Proof. repeat split. discriminate. Qed.

(** C9 as stated fails: with [double]s, observation times 1e16 and 1e16 + 2
    and the positive output step 1, the shape checks pass and the loop never
    ends, because [1e16 + 1] rounds to [1e16]: the time stays at the first
    observation time. *)
Lemma C9_counterexample :
  consistentShapes twoTimesH [2]%Q [1; 1]%Q twoTimesP /\
  getConcatenatedTimeVector absorbedStepExample =
    [10000000000000000; 10000000000000002]%Q /\
  binary64.representable 10000000000000000 /\
  binary64.representable 10000000000000002 /\
  binary64.representable 1 /\
  (0 < 1)%Q /\
  binary64.plus 10000000000000000 1 = 10000000000000000%Q /\
  forall fuel,
    @calculateCovarianceMatrixAsFunctionOfTime sizedObservables exactDenseInverse doubleTime
      fuel absorbedStepExample twoTimesH [2]%Q 1%Q [1; 1]%Q twoTimesP = OutOfFuel.
Proof.
  split; [apply absorbedStep_valid|]. split; [reflexivity|].
  split; [reflexivity|]. split; [reflexivity|]. split; [reflexivity|].
  split; [reflexivity|]. split; [reflexivity|].
  apply (@calculate_diverges sizedObservables exactDenseInverse doubleTime
           absorbedStepExample twoTimesH [2]%Q 1%Q [1; 1]%Q twoTimesP absorbedStep_valid
           (fun t => t = 10000000000000000%Q)).
  - reflexivity.
  - intros t ->. split; reflexivity.
Qed.

(** C2, as the code has it.  For a valid input with two distinct observation
    times, the largest key of every history that the function returns is the
    last observation time, whether or not the step divides the span; the
    function returns when the additions of the step bring the time from the
    first to the last observation time or beyond.  (The lookup scheme is that
    of spec 4.4.) *)
Theorem C2_history_keys
  {OM : ObservationModels} {DI : DenseInverse} {TA : TimeArithmetic}
  (md : PodInputType) (H : MatrixXd) (nf : VectorXd) (dt : Q) (w : VectorXd)
  (P : MatrixXd) (t0 tl : TimeType) :
  validInput md H nf w P ->
  isEarliest t0 (getConcatenatedTimeVector md) ->
  isLatest tl (getConcatenatedTimeVector md) ->
  (t0 < tl)%Q ->
  (forall fuel h,
      calculateCovarianceMatrixAsFunctionOfTime fuel md H nf dt w P = Return h ->
      largestKey tl h) /\
  (forall n, (lastTime md <= queryTime (firstTime md) dt n)%Q ->
     exists h,
       (forall fuel, S n <= fuel ->
          calculateCovarianceMatrixAsFunctionOfTime fuel md H nf dt w P = Return h) /\
       largestKey tl h).
Proof.
  intros Hvalid Hfirst Hlast Hspan.
  assert (Hne : getConcatenatedTimeVector md <> []) by apply Hvalid.
  pose proof (isEarliest_unique _ _ _ Hfirst (first_isEarliest md Hne)) as E0.
  pose proof (isLatest_unique _ _ _ Hlast (last_isLatest md Hne)) as El.
  fold (firstTime md) in E0. fold (lastTime md) in El.
  assert (Hspan' : (firstTime md < lastTime md)%Q) by (rewrite <- E0, <- El; exact Hspan).
  assert (Hkey : forall fuel h,
             calculateCovarianceMatrixAsFunctionOfTime fuel md H nf dt w P = Return h ->
             largestKey tl h).
  { intros fuel h E.
    destruct (history_largest_key md H nf dt w P Hvalid Hspan' fuel h E) as [Hk Hmax].
    split; [eapply hasKey_Qeq; [symmetry; exact El | exact Hk]|].
    intros k' Hk'. rewrite El. apply Hmax, Hk'. }
  split; [exact Hkey|].
  intros n Hn. destruct (calculate_returns md H nf dt w P n Hvalid Hn) as (h & Hh).
  exists h. split; [exact Hh|]. apply (Hkey (S n)), Hh, le_n.
Qed.

Lemma C2_history_keys_witness :
  exists h,
    (forall fuel, 3 <= fuel ->
       @calculateCovarianceMatrixAsFunctionOfTime sizedObservables exactDenseInverse doubleTime
         fuel twoTimesExample twoTimesH [2]%Q 2%Q [1; 1]%Q twoTimesP = Return h) /\
    largestKey 3%Q h.
Proof.
  destruct (@C2_history_keys sizedObservables exactDenseInverse doubleTime
              twoTimesExample twoTimesH [2]%Q 2%Q [1; 1]%Q twoTimesP 0%Q 3%Q
              twoTimes_valid twoTimes_earliest twoTimes_latest eq_refl) as [_ Hret].
  apply (Hret 2). vm_compute. discriminate.
Defined.

(** C2 as stated fails: with [double]s, observation times 0 and 3 and output
    step 2 (which does not divide the span 3), the largest key of the history
    is the last observation time 3, not a time strictly below it; the history
    also has an entry keyed by the starting time 0. *)
Lemma C2_counterexample :
  validInput twoTimesExample twoTimesH [2]%Q [1; 1]%Q twoTimesP /\
  exists h,
    @calculateCovarianceMatrixAsFunctionOfTime sizedObservables exactDenseInverse doubleTime
      3 twoTimesExample twoTimesH [2]%Q 2%Q [1; 1]%Q twoTimesP = Return h /\
    isEarliest 0%Q (getConcatenatedTimeVector twoTimesExample) /\
    isLatest 3%Q (getConcatenatedTimeVector twoTimesExample) /\
    (forall n : Z, ~ (0 + inject_Z n * 2 == 3)%Q) /\
    hasKey 0%Q h /\
    largestKey 3%Q h /\
    ~ (exists k, largestKey k h /\ (k < 3)%Q).
Proof.
  split; [apply twoTimes_valid|].
  eexists. split; [apply twoTimes_history|].
  split; [apply twoTimes_earliest|]. split; [apply twoTimes_latest|].
  assert (Hlargest : largestKey 3%Q
            [ (0%Q, mkMatrix 1 [ [1 # 12] ]%Q); (3%Q, mkMatrix 1 [ [1 # 16] ]%Q) ]).
  { split.
    - exists 3%Q, (mkMatrix 1 [ [1 # 16] ]%Q). split; [right; left; reflexivity | reflexivity].
    - intros k' (k0 & V & [E|[E|[]]] & Hk0); injection E as <- _; rewrite <- Hk0;
        unfold Qle; simpl; lia. }
  split.
  { intros n E. unfold Qeq in E. simpl in E. lia. }
  split.
  { exists 0%Q, (mkMatrix 1 [ [1 # 12] ]%Q). split; [left; reflexivity | reflexivity]. }
  split; [exact Hlargest|].
  intros (k & [_ Hmax] & Hlt). destruct Hlargest as [H3 _].
  specialize (Hmax _ H3). lra.
Qed.

(** C1, as the code has it.  For a valid input, the matrix stored at every
    output epoch of a returned history is [D^-1 * C * D^-1]: [C] is the
    inverse of the updated normalized covariance sum of the rows up to the
    epoch's row [j] of the time-ordered table, and [D] the diagonal matrix of
    the normalization factors, inverted on both sides.  The function returns
    such a history when the additions of the step bring the time from the
    first to the last observation time or beyond, as the exact additions of a
    positive step do. *)
Theorem C1_stored_covariance_is_unnormalized_by_inverse
  {OM : ObservationModels} {DI : DenseInverse} {TA : TimeArithmetic}
  (md : PodInputType) (H : MatrixXd) (nf : VectorXd) (dt : Q) (w : VectorXd)
  (P : MatrixXd) :
  validInput md H nf w P ->
  let stored (h : History) :=
    forall k V, In (k, V) h ->
      exists j,
        j < length (orderedTimesOf md) /\
        (k == nth j (orderedTimesOf md) 0)%Q /\
        let D := asDiagonal nf in
        let C :=
          inverse (linear_algebra.calculateInverseOfUpdatedCovarianceMatrix
                     (mkMatrix (cols H)
                               (firstn (j + 1) (rowData (permuteRows (sortOrderOf md) H))))
                     (firstn (j + 1) (permuteCoeffs (sortOrderOf md) w))
                     P) in
        V = mul (mul (inverse D) C) (inverse D) in
  (forall fuel h,
      calculateCovarianceMatrixAsFunctionOfTime fuel md H nf dt w P = Return h ->
      stored h) /\
  (forall n, (lastTime md <= queryTime (firstTime md) dt n)%Q ->
     exists h,
       (forall fuel, S n <= fuel ->
          calculateCovarianceMatrixAsFunctionOfTime fuel md H nf dt w P = Return h) /\
       stored h) /\
  ((0 < dt)%Q ->
   exists n h,
     (forall fuel, n <= fuel ->
        @calculateCovarianceMatrixAsFunctionOfTime OM DI exactTime fuel md H nf dt w P =
        Return h) /\
     stored h).
Proof.
  intros Hvalid stored.
  assert (Hstored : forall (TA' : TimeArithmetic) fuel h,
             @calculateCovarianceMatrixAsFunctionOfTime OM DI TA' fuel md H nf dt w P =
             Return h -> stored h).
  { intros TA' fuel h E k V Hin.
    destruct (@history_entries OM DI TA' md H nf dt w P Hvalid fuel h E k V Hin)
      as (j & Hj & Hk & HV & _).
    exists j. split; [exact Hj|]. split; [exact Hk | exact HV]. }
  split; [apply Hstored|]. split.
  - intros n Hn. destruct (calculate_returns md H nf dt w P n Hvalid Hn) as (h & Hh).
    exists h. split; [exact Hh|]. apply (Hstored TA (S n)), Hh, le_n.
  - intros Hdt. destruct (calculate_returns_exact md H nf dt w P Hvalid Hdt) as (n & h & Hh).
    exists n, h. split; [exact Hh|]. apply (Hstored exactTime n), Hh, le_n.
Qed.

Lemma C1_stored_covariance_is_unnormalized_by_inverse_witness :
  exists h,
    (forall fuel, 3 <= fuel ->
       @calculateCovarianceMatrixAsFunctionOfTime sizedObservables exactDenseInverse doubleTime
         fuel twoTimesExample twoTimesH [2]%Q 2%Q [1; 1]%Q twoTimesP = Return h) /\
    forall k V, In (k, V) h ->
      exists j,
        j < length (orderedTimesOf twoTimesExample) /\
        (k == nth j (orderedTimesOf twoTimesExample) 0)%Q /\
        let D := asDiagonal [2]%Q in
        let C :=
          @inverse exactDenseInverse
            (linear_algebra.calculateInverseOfUpdatedCovarianceMatrix
               (mkMatrix (cols twoTimesH)
                  (firstn (j + 1) (rowData (permuteRows (sortOrderOf twoTimesExample) twoTimesH))))
               (firstn (j + 1) (permuteCoeffs (sortOrderOf twoTimesExample) [1; 1]%Q))
               twoTimesP) in
        V = mul (mul (@inverse exactDenseInverse D) C) (@inverse exactDenseInverse D).
Proof.
  destruct (@C1_stored_covariance_is_unnormalized_by_inverse
              sizedObservables exactDenseInverse doubleTime
              twoTimesExample twoTimesH [2]%Q 2%Q [1; 1]%Q twoTimesP twoTimes_valid)
    as (_ & Hret & _).
  apply (Hret 2). vm_compute. discriminate.
Defined.

(** C1 as stated fails: with normalization factor 2, a-priori inverse
    covariance 2 and two unit-weight observations with partial 1, the matrix
    stored at the last epoch (key 3, all rows) is [1/16], that is
    [D^-1 * C * D^-1] with [C = 1/4] and [D = 2], while [D * C * D] is [1]. *)
Lemma C1_counterexample :
  let D := asDiagonal [2]%Q in
  let C := @inverse exactDenseInverse
             (linear_algebra.calculateInverseOfUpdatedCovarianceMatrix
                twoTimesH [1; 1]%Q twoTimesP) in
  validInput twoTimesExample twoTimesH [2]%Q [1; 1]%Q twoTimesP /\
  exists h V,
    @calculateCovarianceMatrixAsFunctionOfTime sizedObservables exactDenseInverse doubleTime
      3 twoTimesExample twoTimesH [2]%Q 2%Q [1; 1]%Q twoTimesP = Return h /\
    In (3%Q, V) h /\
    rowData C = [ [1 # 4] ]%Q /\
    rowData V = [ [1 # 16] ]%Q /\
    (nth 0 (nth 0 (rowData (mul (mul D C) D)) []) 0 == 1)%Q /\
    V <> mul (mul D C) D.
Proof.
  intros D C. split; [apply twoTimes_valid|].
  exists [ (0%Q, mkMatrix 1 [ [1 # 12] ]%Q); (3%Q, mkMatrix 1 [ [1 # 16] ]%Q) ],
         (mkMatrix 1 [ [1 # 16] ]%Q).
  split; [apply twoTimes_history|].
  split; [right; left; reflexivity|].
  split; [reflexivity|]. split; [reflexivity|].
  split; [vm_compute; reflexivity|].
  intros E. apply (f_equal rowData) in E. vm_compute in E. discriminate E.
Qed.

(** C4, as the code has it.  The function has no singular-matrix error: for an
    input of consistent shapes with as many rows as time tags it throws no
    exception at all, whatever Eigen's [inverse( )] returns for the sum of an
    output step, invertible or not; in every history it returns the entry of
    every epoch is the product [D^-1 * inverse( sum ) * D^-1] built from that
    returned inverse; and it returns such a history when the additions of the
    step bring the time from the first to the last observation time or
    beyond, as the exact additions of a positive step do. *)
Theorem C4_no_singular_matrix_error
  {OM : ObservationModels} {DI : DenseInverse} {TA : TimeArithmetic}
  (md : PodInputType) (H : MatrixXd) (nf : VectorXd) (dt : Q) (w : VectorXd)
  (P : MatrixXd) :
  validInput md H nf w P ->
  let stored (h : History) :=
    forall k V, In (k, V) h ->
      exists j,
        j < length (orderedTimesOf md) /\
        (k == nth j (orderedTimesOf md) 0)%Q /\
        V = covarianceOfPrefix (permuteRows (sortOrderOf md) H)
                               (permuteCoeffs (sortOrderOf md) w)
                               (asDiagonal nf) P (j + 1) in
  (forall fuel e,
      calculateCovarianceMatrixAsFunctionOfTime fuel md H nf dt w P <> Throw e) /\
  (forall fuel h,
      calculateCovarianceMatrixAsFunctionOfTime fuel md H nf dt w P = Return h ->
      stored h) /\
  (forall n, (lastTime md <= queryTime (firstTime md) dt n)%Q ->
     exists h,
       (forall fuel, S n <= fuel ->
          calculateCovarianceMatrixAsFunctionOfTime fuel md H nf dt w P = Return h) /\
       stored h) /\
  ((0 < dt)%Q ->
   exists n h,
     (forall fuel, n <= fuel ->
        @calculateCovarianceMatrixAsFunctionOfTime OM DI exactTime fuel md H nf dt w P =
        Return h) /\
     stored h).
Proof.
  intros Hvalid stored.
  assert (Hstored : forall (TA' : TimeArithmetic) fuel h,
             @calculateCovarianceMatrixAsFunctionOfTime OM DI TA' fuel md H nf dt w P =
             Return h -> stored h).
  { intros TA' fuel h E k V Hin.
    destruct (@history_entries OM DI TA' md H nf dt w P Hvalid fuel h E k V Hin)
      as (j & Hj & Hk & HV & _).
    exists j. split; [exact Hj|]. split; [exact Hk | exact HV]. }
  split; [|split; [apply Hstored|split]].
  - intros fuel e. rewrite calculate_as_loop by exact Hvalid.
    destruct (validInput_table md H nf w P Hvalid) as (Hne & HM & Hw).
    destruct (covarianceLoop_Return_or_OutOfFuel (orderedTimesOf md) (timeLookupOf md)
                (permuteRows (sortOrderOf md) H) (permuteCoeffs (sortOrderOf md) w)
                (asDiagonal nf) dt P Hne (timeLookupOf_in_range md Hne) HM Hw fuel
                (firstTime md) [])
      as [(h & ->)| ->]; discriminate.
  - intros n Hn. destruct (calculate_returns md H nf dt w P n Hvalid Hn) as (h & Hh).
    exists h. split; [exact Hh|]. apply (Hstored TA (S n)), Hh, le_n.
  - intros Hdt. destruct (calculate_returns_exact md H nf dt w P Hvalid Hdt) as (n & h & Hh).
    exists n, h. split; [exact Hh|]. apply (Hstored exactTime n), Hh, le_n.
Qed.

Lemma singular_valid : validInput twoTimesExample singularH [2]%Q [1; 1]%Q singularP.
Proof. repeat split. discriminate. Qed.

Lemma C4_no_singular_matrix_error_witness :
  (forall fuel e,
      @calculateCovarianceMatrixAsFunctionOfTime sizedObservables exactDenseInverse doubleTime
        fuel twoTimesExample singularH [2]%Q 2%Q [1; 1]%Q singularP <> Throw e) /\
  exists h,
    (forall fuel, 3 <= fuel ->
       @calculateCovarianceMatrixAsFunctionOfTime sizedObservables exactDenseInverse doubleTime
         fuel twoTimesExample singularH [2]%Q 2%Q [1; 1]%Q singularP = Return h) /\
    forall k V, In (k, V) h ->
      exists j,
        j < length (orderedTimesOf twoTimesExample) /\
        (k == nth j (orderedTimesOf twoTimesExample) 0)%Q /\
        V = @covarianceOfPrefix exactDenseInverse
              (permuteRows (sortOrderOf twoTimesExample) singularH)
              (permuteCoeffs (sortOrderOf twoTimesExample) [1; 1]%Q)
              (asDiagonal [2]%Q) singularP (j + 1).
Proof.
  destruct (@C4_no_singular_matrix_error sizedObservables exactDenseInverse doubleTime
              twoTimesExample singularH [2]%Q 2%Q [1; 1]%Q singularP singular_valid)
    as (Hno & _ & Hret & _).
  split; [exact Hno|]. apply (Hret 2). vm_compute. discriminate.
Defined.

(** C4 as stated fails: with the sum of every output step the 1 x 1 zero
    matrix, which no matrix inverts, the function throws nothing and returns a
    history with an entry for every epoch. *)
Lemma C4_counterexample :
  let S := linear_algebra.calculateInverseOfUpdatedCovarianceMatrix
             singularH [1; 1]%Q singularP in
  validInput twoTimesExample singularH [2]%Q [1; 1]%Q singularP /\
  rowData S = [ [0] ]%Q /\
  (forall X : MatrixXd, ~ (nth 0 (nth 0 (rowData (mul S X)) []) 0 == 1)%Q) /\
  exists h,
    @calculateCovarianceMatrixAsFunctionOfTime sizedObservables exactDenseInverse doubleTime
      3 twoTimesExample singularH [2]%Q 2%Q [1; 1]%Q singularP = Return h /\
    hasKey 0%Q h /\ hasKey 3%Q h.
Proof.
  intros S. split; [apply singular_valid|]. split; [reflexivity|]. split.
  - intros [c data]. unfold S, mul. simpl.
    destruct c as [|c]; simpl; [intros E; discriminate E|].
    unfold column, dot. simpl.
    destruct data as [|r data]; simpl; [intros E; discriminate E|].
    intros E. assert (E' : (0 + 0 * nth 0 r 0 == 0)%Q) by ring.
    rewrite E' in E. discriminate E.
  - eexists. split; [vm_compute; reflexivity|]. split.
    + eexists _, _. split; [left; reflexivity | reflexivity].
    + eexists _, _. split; [right; left; reflexivity | reflexivity].
Qed.

(** ** The scenario of four observations at times 0, 1, 1, 3 *)

Lemma permuteRows_identity4 (H : MatrixXd) :
  rows H = 4 -> permuteRows [0; 1; 2; 3] H = H.
Proof.
  destruct H as [c data]. unfold rows, permuteRows; simpl.
  destruct data as [|r0 [|r1 [|r2 [|r3 [|r4 data]]]]]; simpl; try discriminate.
  reflexivity.
Qed.

(** C3.  The function never splits a run of equal consecutive times of the
    time-ordered table across two output epochs.  Whichever row the lookup
    scheme returns for a query, lines 243-255 move the index to the last row
    of the run of equal times that contains it; so, whatever the lookup
    scheme, every entry that the loop stores is the covariance of the rows up
    to a row [j] that is the last row or is followed by a different time, and
    is keyed by the time of row [j]; so it is in every history the function
    returns.  In particular, for four observations of size 1 at the times
    0, 1, 1, 3 with unit weights, two parameters and output step 2 (with
    [double]s and the lookup scheme of spec 4.4), the history has exactly two
    entries: at key 1 the covariance of the first three rows (both
    observations at time 1 included), at key 3 that of all four. *)
Theorem C3_ties_are_never_split
  {OM : ObservationModels} {DI : DenseInverse} {TA : TimeArithmetic} :
  (forall (ts : list TimeType) (timeLookup : TimeType -> nat) (t : TimeType),
      timeLookup t < length ts ->
      exists j,
        findCurrentIndex ts timeLookup t = Return j /\
        timeLookup t <= j < length ts /\
        (forall k, timeLookup t <= k <= j -> (nth k ts 0 == nth (timeLookup t) ts 0)%Q) /\
        (S j < length ts -> ~ (nth j ts 0 == nth (S j) ts 0)%Q)) /\
  (forall (ts : list TimeType) (timeLookup : TimeType -> nat) (M : MatrixXd)
          (w : VectorXd) (U : MatrixXd) (dt : Q) (P : MatrixXd),
      ts <> [] -> (forall t, timeLookup t < length ts) ->
      rows M = length ts -> length w = length ts ->
      forall fuel t h,
        covarianceLoop ts timeLookup M w U dt P fuel t [] = Return h ->
        entriesEndRuns ts M w U P h) /\
  (forall (md : PodInputType) (H : MatrixXd) (nf : VectorXd) (dt : Q) (w : VectorXd)
          (P : MatrixXd) fuel h,
      calculateCovarianceMatrixAsFunctionOfTime fuel md H nf dt w P = Return h ->
      entriesEndRuns (orderedTimesOf md) (permuteRows (sortOrderOf md) H)
                     (permuteCoeffs (sortOrderOf md) w) (asDiagonal nf) P h) /\
  (forall (md : PodInputType) (H : MatrixXd) (nf : VectorXd) (P : MatrixXd),
      getConcatenatedTimeVector md = [0; 1; 1; 3]%Q ->
      rows H = 4 -> cols H = 2 -> length nf = 2 -> cols P = 2 -> rows P = 2 ->
      forall fuel, 3 <= fuel ->
        @calculateCovarianceMatrixAsFunctionOfTime OM DI doubleTime
          fuel md H nf 2%Q [1; 1; 1; 1]%Q P =
        Return [ (1%Q, covarianceOfPrefix H [1; 1; 1; 1]%Q (asDiagonal nf) P 3);
                 (3%Q, covarianceOfPrefix H [1; 1; 1; 1]%Q (asDiagonal nf) P 4) ]).
Proof.
  split; [|split; [|split]].
  - intros ts timeLookup t. apply findCurrentIndex_spec.
  - intros ts timeLookup M w U dt P Hne Hrange HM Hw fuel t h E.
    apply (covarianceLoop_entries ts timeLookup M w U dt P Hne Hrange HM Hw fuel t [] h);
      [|exact E].
    intros k V [].
  - intros md H nf dt w P fuel h E.
    exact (history_entries md H nf dt w P (calculate_Return_valid md H nf dt w P fuel h E)
             fuel h E).
  - intros md H nf P Hv Hrows Hcols Hnf HPc HPr fuel Hfuel.
    assert (Hvalid : validInput md H nf [1; 1; 1; 1]%Q P).
    { unfold validInput, consistentShapes. rewrite Hv.
      repeat split; simpl; try congruence. }
    destruct (validInput_table md H nf _ P Hvalid) as (Hne & HM & Hw).
    pose proof (timeLookupOf_in_range md Hne) as Hrange.
    rewrite calculate_as_loop by exact Hvalid.
    apply covarianceLoop_fuel_mono with (fuel := 3); try assumption.
    revert Hne HM Hw Hrange.
    unfold timeLookupOf, firstTime, sortOrderOf, orderedTimesOf. rewrite Hv.
    change (utilities.getSortOrderOfVectorAndSortedVector [0; 1; 1; 3]%Q)
      with ([0; 1; 2; 3], [0; 1; 1; 3]%Q).
    cbn [fst snd]. rewrite permuteRows_identity4 by exact Hrows.
    change (permuteCoeffs [0; 1; 2; 3] [1; 1; 1; 1]%Q) with [1; 1; 1; 1]%Q.
    change (nth 0 [0; 1; 1; 3]%Q 0%Q) with 0%Q.
    intros Hne HM Hw Hrange.
    rewrite covarianceLoop_step by assumption.
    replace (Qlt_bool 0 (nth (length [0; 1; 1; 3]%Q - 1) [0; 1; 1; 3]%Q 0%Q))
      with true by reflexivity.
    destruct (@loopBody_Return DI doubleTime [0; 1; 1; 3]%Q _ H [1; 1; 1; 1]%Q
                (asDiagonal nf) 2%Q P Hrange HM Hw 0%Q []) as (j & Hj & _ & ->).
    vm_compute in Hj. injection Hj as <-. cbn [bind fst snd].
    change (@plusAssign doubleTime 0 2) with 2%Q.
    rewrite covarianceLoop_step by assumption.
    replace (Qlt_bool 2 (nth (length [0; 1; 1; 3]%Q - 1) [0; 1; 1; 3]%Q 0%Q))
      with true by reflexivity.
    destruct (@loopBody_Return DI doubleTime [0; 1; 1; 3]%Q _ H [1; 1; 1; 1]%Q
                (asDiagonal nf) 2%Q P Hrange HM Hw 2%Q
                (assign (nth 2 [0; 1; 1; 3]%Q 0%Q)
                        (covarianceOfPrefix H [1; 1; 1; 1]%Q (asDiagonal nf) P (2 + 1)) []))
      as (j & Hj & _ & ->).
    vm_compute in Hj. injection Hj as <-. cbn [bind fst snd].
    change (@plusAssign doubleTime 2 2) with 4%Q.
    rewrite covarianceLoop_step by assumption.
    replace (Qlt_bool 4 (nth (length [0; 1; 1; 3]%Q - 1) [0; 1; 1; 3]%Q 0%Q))
      with false by reflexivity.
    reflexivity.
Qed.

Lemma fourTimes_valid :
  validInput fourTimesExample fourTimesH [1; 2]%Q [1; 1; 1; 1]%Q fourTimesP.
Proof. repeat split. discriminate. Qed.

(** With a lookup scheme that answers the first of the two rows at time 1,
    lines 243-255 move on to the second, and the loop stores at key 1 the
    covariance of the first three rows; with the lookup scheme of the
    function the scenario has its two entries. *)
Lemma C3_ties_are_never_split_witness :
  (exists j,
      findCurrentIndex [0; 1; 1; 3]%Q tiedPairLookup 2%Q = Return j /\
      tiedPairLookup 2%Q = 1 /\ j = 2) /\
  (@covarianceLoop exactDenseInverse doubleTime [0; 1; 1; 3]%Q tiedPairLookup fourTimesH
     [1; 1; 1; 1]%Q (asDiagonal [1; 2]%Q) 2%Q fourTimesP 3 0%Q [] =
   Return [ (1%Q, @covarianceOfPrefix exactDenseInverse fourTimesH [1; 1; 1; 1]%Q
                    (asDiagonal [1; 2]%Q) fourTimesP 3) ] /\
   @entriesEndRuns exactDenseInverse [0; 1; 1; 3]%Q fourTimesH [1; 1; 1; 1]%Q
     (asDiagonal [1; 2]%Q) fourTimesP
     [ (1%Q, @covarianceOfPrefix exactDenseInverse fourTimesH [1; 1; 1; 1]%Q
               (asDiagonal [1; 2]%Q) fourTimesP 3) ]) /\
  @calculateCovarianceMatrixAsFunctionOfTime sizedObservables exactDenseInverse doubleTime
    3 fourTimesExample fourTimesH [1; 2]%Q 2%Q [1; 1; 1; 1]%Q fourTimesP =
  Return
    [ (1%Q, @covarianceOfPrefix exactDenseInverse fourTimesH [1; 1; 1; 1]%Q
              (asDiagonal [1; 2]%Q) fourTimesP 3);
      (3%Q, @covarianceOfPrefix exactDenseInverse fourTimesH [1; 1; 1; 1]%Q
              (asDiagonal [1; 2]%Q) fourTimesP 4) ].
Proof.
  destruct (@C3_ties_are_never_split sizedObservables exactDenseInverse doubleTime)
    as (Hindex & Hloop & _ & Hscenario).
  assert (Hrange : forall t, tiedPairLookup t < length [0; 1; 1; 3]%Q).
  { intros t. unfold tiedPairLookup. destruct (Qle_bool 1 t); simpl; lia. }
  split; [|split].
  - destruct (Hindex [0; 1; 1; 3]%Q tiedPairLookup 2%Q (Hrange _))
      as (j & Hj & _ & _ & _).
    exists j. split; [exact Hj|]. split; [reflexivity|].
    vm_compute in Hj. injection Hj as <-. reflexivity.
  - assert (E : @covarianceLoop exactDenseInverse doubleTime [0; 1; 1; 3]%Q tiedPairLookup
                  fourTimesH [1; 1; 1; 1]%Q (asDiagonal [1; 2]%Q) 2%Q fourTimesP 3 0%Q [] =
                Return [ (1%Q, @covarianceOfPrefix exactDenseInverse fourTimesH
                                 [1; 1; 1; 1]%Q (asDiagonal [1; 2]%Q) fourTimesP 3) ])
      by (vm_compute; reflexivity).
    split; [exact E|].
    apply (Hloop [0; 1; 1; 3]%Q tiedPairLookup fourTimesH [1; 1; 1; 1]%Q
             (asDiagonal [1; 2]%Q) 2%Q fourTimesP ltac:(discriminate) Hrange
             eq_refl eq_refl 3 0%Q _ E).
  - apply Hscenario; reflexivity.
Defined.

(** * Further properties of the code *)

(** ** The measurement collator: [getConcatenatedMeasurementVector] *)

Lemma skipn_repeat (A : Type) (x : A) (n m : nat) :
  skipn n (repeat x m) = repeat x (m - n).
Proof.
  revert n; induction m as [|m IH]; intros [|n]; simpl; try reflexivity. apply IH.
Qed.

Lemma foldOutcome_app (A S : Type) (body : S -> A -> outcome S) (l1 l2 : list A) (s : S) :
  foldOutcome body (l1 ++ l2) s = bind (foldOutcome body l1 s) (foldOutcome body l2).
Proof.
  revert s; induction l1 as [|x l1 IH]; intros s; simpl; [reflexivity|].
  destruct (body s x); simpl; auto.
Qed.

Lemma foldOutcome_nested (A B S : Type) (inner : A -> list B) (body : S -> B -> outcome S)
  (l : list A) (s : S) :
  foldOutcome (fun s x => foldOutcome body (inner x) s) l s =
  foldOutcome body (flat_map inner l) s.
Proof.
  revert s; induction l as [|x l IH]; intros s; simpl; [reflexivity|].
  rewrite foldOutcome_app. destruct (foldOutcome body (inner x) s); simpl; auto.
Qed.

Section MeasurementCollator.

Context {OM : ObservationModels}.

(** Lines 104-105: one pass of the inner loop. *)
Let copyBlock (st : VectorXd * nat)
    (data : LinkEnds * (VectorXd * (list TimeType * LinkEndType))) : outcome (VectorXd * nat) :=
  v <- assignSegment (fst st) (snd st) (fst (snd data)) ;;
  Return (v, snd st + length (fst (snd data))).

Lemma copyBlocks_fit (T : nat) :
  forall datas done,
    length done + length (flat_map observationsOf datas) <= T ->
    foldOutcome copyBlock datas (done ++ repeat 0%Q (T - length done), length done) =
    Return (done ++ flat_map observationsOf datas ++
            repeat 0%Q (T - length done - length (flat_map observationsOf datas)),
            length done + length (flat_map observationsOf datas)).
Proof.
  induction datas as [|data datas IH]; intros done Hfit; simpl in *.
  - rewrite Nat.sub_0_r, Nat.add_0_r. reflexivity.
  - rewrite length_app in Hfit. unfold copyBlock at 1. simpl. unfold assignSegment.
    fold (observationsOf data).
    replace (length done + length (observationsOf data) <=?
             length (done ++ repeat 0%Q (T - length done))) with true
      by (symmetry; apply Nat.leb_le; rewrite length_app, repeat_length; lia).
    simpl.
    rewrite firstn_app, Nat.sub_diag, firstn_all, app_nil_r. simpl.
    rewrite skipn_app, skipn_all2 by lia. simpl.
    replace (length done + length (observationsOf data) - length done)
      with (length (observationsOf data)) by lia.
    rewrite skipn_repeat.
    replace (done ++ observationsOf data ++
             repeat 0%Q (T - length done - length (observationsOf data)))
      with ((done ++ observationsOf data) ++
            repeat 0%Q (T - length (done ++ observationsOf data)))
      by (rewrite <- app_assoc, length_app; do 3 f_equal; lia).
    replace (length done + length (observationsOf data))
      with (length (done ++ observationsOf data)) by apply length_app.
    rewrite IH by (rewrite length_app; lia).
    rewrite !length_app, <- !app_assoc.
    replace (T - (length done + length (observationsOf data)) -
             length (flat_map observationsOf datas))
      with (T - length done -
            (length (observationsOf data) + length (flat_map observationsOf datas)))
      by lia.
    now rewrite Nat.add_assoc.
Qed.

Lemma copyBlocks_overflow (T : nat) :
  forall datas done,
    length done <= T ->
    T < length done + length (flat_map observationsOf datas) ->
    foldOutcome copyBlock datas (done ++ repeat 0%Q (T - length done), length done) =
    Undefined.
Proof.
  induction datas as [|data datas IH]; intros done Hdone Hover; simpl in *; [lia|].
  rewrite length_app in Hover. unfold copyBlock at 1. simpl. unfold assignSegment.
  fold (observationsOf data).
  destruct (Nat.leb_spec (length done + length (observationsOf data))
              (length (done ++ repeat 0%Q (T - length done)))) as [Hfit|Hfit];
    [|reflexivity].
  rewrite length_app, repeat_length in Hfit. simpl.
  rewrite firstn_app, Nat.sub_diag, firstn_all, app_nil_r. simpl.
  rewrite skipn_app, skipn_all2 by lia. simpl.
  replace (length done + length (observationsOf data) - length done)
    with (length (observationsOf data)) by lia.
  rewrite skipn_repeat.
  replace (done ++ observationsOf data ++
           repeat 0%Q (T - length done - length (observationsOf data)))
    with ((done ++ observationsOf data) ++
          repeat 0%Q (T - length (done ++ observationsOf data)))
    by (rewrite <- app_assoc, length_app; do 3 f_equal; lia).
  replace (length done + length (observationsOf data))
    with (length (done ++ observationsOf data)) by apply length_app.
  apply IH; rewrite length_app; lia.
Qed.

Lemma getConcatenatedMeasurementVector_unfold
  (helper : PodInputType -> list (ObservableType * Z) * Z) (md : PodInputType) :
  getConcatenatedMeasurementVector helper md =
  bind (VectorZeroOfInt (snd (helper md)))
       (fun zero => bind (foldOutcome copyBlock (entriesOf md) (zero, 0))
                         (fun st => Return (fst st))).
Proof.
  unfold getConcatenatedMeasurementVector.
  destruct (VectorZeroOfInt (snd (helper md))); simpl; try reflexivity.
  unfold entriesOf. rewrite <- foldOutcome_nested. reflexivity.
Qed.

Lemma getConcatenatedMeasurementVector_fits
  (helper : PodInputType -> list (ObservableType * Z) * Z) (md : PodInputType) :
  (Z.of_nat (length (allObservations md)) <= snd (helper md))%Z ->
  getConcatenatedMeasurementVector helper md =
  Return (allObservations md ++
          repeat 0%Q (Z.to_nat (snd (helper md)) - length (allObservations md))).
Proof.
  intros Hfit.
  rewrite getConcatenatedMeasurementVector_unfold. unfold VectorZeroOfInt.
  replace (snd (helper md) <? 0)%Z with false by (symmetry; apply Z.ltb_ge; lia).
  cbn [bind]. unfold VectorZero.
  pose proof (copyBlocks_fit (Z.to_nat (snd (helper md))) (entriesOf md) []) as Hfill.
  cbn [length app] in Hfill. rewrite Nat.sub_0_r in Hfill.
  fold (allObservations md) in Hfill.
  match goal with
  | |- bind ?c _ = _ =>
      replace c with
        (Return (allObservations md ++
                 repeat 0%Q (Z.to_nat (snd (helper md)) - length (allObservations md)),
                 0 + length (allObservations md)))
        by (symmetry; apply Hfill; lia)
  end.
  reflexivity.
Qed.

Lemma getConcatenatedMeasurementVector_exact
  (helper : PodInputType -> list (ObservableType * Z) * Z) (md : PodInputType) :
  snd (helper md) = Z.of_nat (length (allObservations md)) ->
  getConcatenatedMeasurementVector helper md = Return (allObservations md).
Proof.
  intros Htotal.
  rewrite getConcatenatedMeasurementVector_fits by (rewrite Htotal; apply Z.le_refl).
  rewrite Htotal, Nat2Z.id, Nat.sub_diag. simpl. now rewrite app_nil_r.
Qed.

(** X1.  When the total that the counting helper reports is at least the
    number of observations of all entries, [getConcatenatedMeasurementVector]
    returns the observation vectors of the entries one after the other, in the
    order of the observable types and then of the link ends, followed by
    zeros up to the reported total; when the total is exactly the number of
    observations it returns their concatenation and nothing else. *)
Theorem X1_measurement_vector_is_the_concatenation
  (helper : PodInputType -> list (ObservableType * Z) * Z) (md : PodInputType) :
  (Z.of_nat (length (allObservations md)) <= snd (helper md))%Z ->
  getConcatenatedMeasurementVector helper md =
  Return (allObservations md ++
          repeat 0%Q (Z.to_nat (snd (helper md)) - length (allObservations md))) /\
  (snd (helper md) = Z.of_nat (length (allObservations md)) ->
   getConcatenatedMeasurementVector helper md = Return (allObservations md)).
Proof.
  intros Hfit. split.
  - apply getConcatenatedMeasurementVector_fits, Hfit.
  - apply getConcatenatedMeasurementVector_exact.
Qed.

(** X2.  When the reported total is negative, or smaller than the number of
    observations of all entries, [getConcatenatedMeasurementVector] runs into
    undefined behaviour: a vector of negative size, or a segment that reaches
    past the end of the vector. *)
Theorem X2_measurement_vector_overflow
  (helper : PodInputType -> list (ObservableType * Z) * Z) (md : PodInputType) :
  (snd (helper md) < Z.of_nat (length (allObservations md)))%Z ->
  getConcatenatedMeasurementVector helper md = Undefined.
Proof.
  intros Hover. rewrite getConcatenatedMeasurementVector_unfold. unfold VectorZeroOfInt.
  destruct (Z.ltb_spec (snd (helper md)) 0) as [Hneg|Hpos]; [reflexivity|].
  cbn [bind]. unfold VectorZero.
  pose proof (copyBlocks_overflow (Z.to_nat (snd (helper md))) (entriesOf md) []) as Hfill.
  cbn [length app] in Hfill. rewrite Nat.sub_0_r in Hfill.
  fold (allObservations md) in Hfill.
  match goal with
  | |- bind ?c _ = _ =>
      replace c with (@Undefined (VectorXd * nat)) by (symmetry; apply Hfill; lia)
  end.
  reflexivity.
Qed.

End MeasurementCollator.

Lemma X1_measurement_vector_is_the_concatenation_witness :
  @getConcatenatedMeasurementVector sizedObservables countObservations measurementExample =
  Return [10; 11; 20; 21; 30]%Q.
Proof.
  apply (@X1_measurement_vector_is_the_concatenation sizedObservables
           countObservations measurementExample).
  - apply Z.le_refl.
  - reflexivity.
Defined.

Lemma X2_measurement_vector_overflow_witness :
  @getConcatenatedMeasurementVector sizedObservables (fun _ => ([], 4%Z)) measurementExample =
  Undefined.
Proof.
  apply (@X2_measurement_vector_overflow sizedObservables (fun _ => ([], 4%Z))
           measurementExample).
  reflexivity.
Defined.

Section CollatorsTogether.

Context {OM : ObservationModels}.

Lemma length_allObservations_of_links (size : Z)
  (links : list (LinkEnds * (VectorXd * (list TimeType * LinkEndType)))) :
  (forall data, In data links ->
                length (observationsOf data) = length (timesOf data) * Z.to_nat size) ->
  length (flat_map observationsOf links) =
  length (flat_map (fun data => timeTagsOfEntry size (timesOf data)) links).
Proof.
  induction links as [|data links IH]; intros Hagree; simpl; [reflexivity|].
  rewrite !length_app, IH by (intros; apply Hagree; right; assumption).
  unfold timeTagsOfEntry. rewrite length_flat_map_repeat.
  rewrite (Hagree data) by (left; reflexivity). reflexivity.
Qed.

(** X3.  When every entry holds one observation of the size of its observable
    per sample time, the time tags and the observations line up: the
    concatenated time vector is as long as the observations of all entries,
    and with that length as the reported total
    [getConcatenatedMeasurementVector] returns a vector of the length of
    [getConcatenatedTimeVector]'s. *)
Theorem X3_time_tags_and_observations_line_up
  (helper : PodInputType -> list (ObservableType * Z) * Z) (md : PodInputType) :
  entriesAgree md ->
  snd (helper md) = Z.of_nat (length (getConcatenatedTimeVector md)) ->
  length (allObservations md) = length (getConcatenatedTimeVector md) /\
  exists observations,
    getConcatenatedMeasurementVector helper md = Return observations /\
    length observations = length (getConcatenatedTimeVector md).
Proof.
  intros Hagree Htotal.
  assert (Hlen : length (allObservations md) = length (getConcatenatedTimeVector md)).
  { rewrite getConcatenatedTimeVector_flat_map. unfold allObservations, entriesOf.
    clear Htotal. induction md as [|[ty links] md IH]; simpl; [reflexivity|].
    rewrite flat_map_app, !length_app.
    rewrite IH by (intros ty' links' data Hin; apply Hagree; right; exact Hin).
    f_equal. apply length_allObservations_of_links.
    intros data Hdata. apply (Hagree ty links data); [left; reflexivity | exact Hdata]. }
  split; [exact Hlen|].
  exists (allObservations md). split; [|exact Hlen].
  apply getConcatenatedMeasurementVector_exact. rewrite Htotal, Hlen. reflexivity.
Qed.

(** X4.  A time is in the concatenated time vector exactly when it is a sample
    time of an entry whose observable has a positive size: the entries of an
    observable of size zero or less leave no time tag, and an empty map gives
    the empty vector. *)
Theorem X4_time_tags_are_the_sample_times (md : PodInputType) (t : TimeType) :
  In t (getConcatenatedTimeVector md) <->
  exists ty links data,
    In (ty, links) md /\ In data links /\ In t (timesOf data) /\
    (0 < getObservableSize ty)%Z.
Proof.
  rewrite getConcatenatedTimeVector_flat_map, in_flat_map. split.
  - intros ([ty links] & Hmd & Hin). apply in_flat_map in Hin as (data & Hdata & Hin).
    unfold timeTagsOfEntry in Hin. apply in_flat_map in Hin as (t' & Ht' & Hin).
    simpl in Hin. exists ty, links, data.
    destruct (Z.to_nat (getObservableSize ty)) as [|n] eqn:En; [destruct Hin|].
    apply repeat_spec in Hin. subst t'. repeat split; try assumption. lia.
  - intros (ty & links & data & Hmd & Hdata & Ht & Hsize).
    exists (ty, links). split; [exact Hmd|]. apply in_flat_map.
    exists data. split; [exact Hdata|]. unfold timeTagsOfEntry. apply in_flat_map.
    exists t. split; [exact Ht|]. simpl.
    destruct (Z.to_nat (getObservableSize ty)) as [|n] eqn:En; [lia|]. left. reflexivity.
Qed.

(** X5.  Observable types that come later in the map only append: the
    concatenated time vector of two maps, the keys of the second after those
    of the first, is the time vector of the first followed by that of the
    second, so the positions of the time tags of the first do not move. *)
Theorem X5_time_vector_of_appended_maps (md1 md2 : PodInputType) :
  getConcatenatedTimeVector (md1 ++ md2) =
  getConcatenatedTimeVector md1 ++ getConcatenatedTimeVector md2.
Proof.
  rewrite !getConcatenatedTimeVector_flat_map. apply flat_map_app.
Qed.

End CollatorsTogether.

Lemma X3_time_tags_and_observations_line_up_witness :
  length (allObservations measurementExample) =
  length (getConcatenatedTimeVector measurementExample) /\
  exists observations,
    @getConcatenatedMeasurementVector sizedObservables
      (fun md => ([], Z.of_nat (length (getConcatenatedTimeVector md)))) measurementExample =
    Return observations /\
    length observations = length (getConcatenatedTimeVector measurementExample).
Proof.
  apply (@X3_time_tags_and_observations_line_up sizedObservables
           (fun md => ([], Z.of_nat (length (getConcatenatedTimeVector md))))
           measurementExample).
  - intros ty links data [E|[E|[]]] Hdata; injection E as <- <-;
      destruct Hdata as [<-|[]]; reflexivity.
  - reflexivity.
Defined.

(** ** The reordering of rows, weights and times *)

Section Reordering.

Context {OM : ObservationModels}.

(** X6.  Rows, weights and times stay together: when the information matrix
    and the weight diagonal have as many rows as there are time tags, row [i]
    of the time-ordered matrix, weight [i] of the time-ordered diagonal
    (lines 215-219) and time [i] of the ordered time vector are the row, the
    weight and the time tag of one and the same original position
    [timeOrder[ i ]]. *)
Theorem X6_rows_weights_and_times_stay_together
  (md : PodInputType) (H : MatrixXd) (w : VectorXd) :
  rows H = length (getConcatenatedTimeVector md) ->
  length w = length (getConcatenatedTimeVector md) ->
  exists sortedMatrix times timeOrder orderedWeights,
    getTimeOrderedInformationMatrix md H = Return ((sortedMatrix, times), timeOrder) /\
    reorderWeights w timeOrder 0 (VectorZero (length w)) = Return orderedWeights /\
    forall i, i < length (getConcatenatedTimeVector md) ->
      exists p,
        nth_error timeOrder i = Some p /\
        p < length (getConcatenatedTimeVector md) /\
        nth_error (rowData sortedMatrix) i = nth_error (rowData H) p /\
        nth_error orderedWeights i = nth_error w p /\
        nth_error times i = nth_error (getConcatenatedTimeVector md) p.
Proof.
  intros Hrows Hw.
  set (v := getConcatenatedTimeVector md) in *.
  set (order := fst (utilities.getSortOrderOfVectorAndSortedVector v)).
  assert (Hlen : length order = length v) by apply sortOrder_length.
  assert (Hrange : Forall (fun p => p < length v) order) by apply sortOrder_in_range.
  exists (permuteRows order H), (snd (utilities.getSortOrderOfVectorAndSortedVector v)),
         order, (permuteCoeffs order w).
  split; [apply getTimeOrderedInformationMatrix_Return, Hrows|].
  split; [apply reorderWeights_permute; [rewrite Hw; exact Hrange | congruence]|].
  intros i Hi.
  destruct (nth_error order i) as [p|] eqn:Ep;
    [|apply nth_error_None in Ep; lia].
  assert (Hp : p < length v).
  { rewrite Forall_forall in Hrange. eapply Hrange, nth_error_In, Ep. }
  exists p. split; [reflexivity|]. split; [exact Hp|].
  split; [|split].
  - unfold permuteRows; simpl. rewrite nth_error_map, Ep. simpl.
    symmetry. apply nth_error_nth'. unfold rows in Hrows. lia.
  - unfold permuteCoeffs. rewrite nth_error_map, Ep. simpl.
    symmetry. apply nth_error_nth'. lia.
  - rewrite sortedVector_lookup by exact Hi. fold order.
    now rewrite (nth_error_nth _ _ 0 Ep).
Qed.

Lemma insertByTime_last (p : TimeType * nat) (l : list (TimeType * nat)) :
  Forall (fun q => timeLe q p) l -> utilities.insertByTime p l = l ++ [p].
Proof.
  induction 1 as [|q r Hq Hr IH]; simpl; [reflexivity|].
  replace (Qlt_bool (fst p) (fst q)) with false
    by (symmetry; apply Qlt_bool_false_iff; exact Hq).
  now rewrite IH.
Qed.

Lemma StronglySorted_app_before (A : Type) (R : A -> A -> Prop) (l1 l2 : list A) (x : A) :
  StronglySorted R (l1 ++ x :: l2) -> Forall (fun y => R y x) l1.
Proof.
  induction l1 as [|y l1 IH]; simpl; intros Hs; [constructor|].
  inversion Hs as [|? ? Hs' Hall]; subst. constructor; [|apply IH, Hs'].
  rewrite Forall_forall in Hall. apply Hall, in_elt.
Qed.

Lemma fold_insertByTime_sorted_input (l acc : list (TimeType * nat)) :
  StronglySorted timeLe (acc ++ l) ->
  fold_left (fun sortMap p => utilities.insertByTime p sortMap) l acc = acc ++ l.
Proof.
  revert acc; induction l as [|p l IH]; intros acc Hs; simpl; [now rewrite app_nil_r|].
  rewrite insertByTime_last by (eapply StronglySorted_app_before, Hs).
  rewrite IH; rewrite <- app_assoc; [reflexivity | exact Hs].
Qed.

Lemma combine_seq_sorted (v : list TimeType) :
  StronglySorted Qle v ->
  forall start, StronglySorted timeLe (combine v (seq start (length v))).
Proof.
  induction 1 as [|x r Hs IH Hx]; intros start; simpl; constructor; [apply IH|].
  apply Forall_forall. intros [t i] Hin. apply in_combine_l in Hin.
  rewrite Forall_forall in Hx. apply Hx, Hin.
Qed.

Lemma map_nth_seq_offset (A : Type) (d : A) (pre l : list A) :
  map (fun p => nth p (pre ++ l) d) (seq (length pre) (length l)) = l.
Proof.
  revert pre; induction l as [|x l IH]; intros pre; simpl; [reflexivity|].
  rewrite app_nth2, Nat.sub_diag by lia. simpl. f_equal.
  specialize (IH (pre ++ [x])). rewrite <- app_assoc, length_app in IH. simpl in IH.
  replace (length pre + 1) with (S (length pre)) in IH by lia. exact IH.
Qed.

(** X7.  Observations that are already in time order are left in place: when
    the concatenated time vector is non-decreasing, the sort order is
    0, 1, ..., N-1 (equal times keep their order) and
    [getTimeOrderedInformationMatrix] returns the information matrix and the
    time vector as they were given. *)
Theorem X7_time_ordered_input_is_left_in_place (md : PodInputType) (H : MatrixXd) :
  StronglySorted Qle (getConcatenatedTimeVector md) ->
  rows H = length (getConcatenatedTimeVector md) ->
  getTimeOrderedInformationMatrix md H =
  Return ((H, getConcatenatedTimeVector md),
          seq 0 (length (getConcatenatedTimeVector md))).
Proof.
  intros Hsorted Hrows.
  rewrite getTimeOrderedInformationMatrix_Return by exact Hrows.
  set (v := getConcatenatedTimeVector md) in *.
  assert (Hpairs : utilities.sortedPairs v = combine v (seq 0 (length v))).
  { unfold utilities.sortedPairs.
    apply (fold_insertByTime_sorted_input _ []). simpl.
    apply combine_seq_sorted, Hsorted. }
  cbn zeta. unfold utilities.getSortOrderOfVectorAndSortedVector. cbn [fst snd].
  rewrite Hpairs, map_snd_combine_seq, map_fst_combine_seq.
  do 3 f_equal. destruct H as [c data]. unfold permuteRows, rows in *. simpl in *.
  f_equal. rewrite <- Hrows. apply (map_nth_seq_offset _ [] []).
Qed.

End Reordering.

Lemma X6_rows_weights_and_times_stay_together_witness :
  exists sortedMatrix times timeOrder orderedWeights,
    getTimeOrderedInformationMatrix reindexerExample reindexerMatrix =
    Return ((sortedMatrix, times), timeOrder) /\
    reorderWeights [7; 8; 9]%Q timeOrder 0 (VectorZero 3) = Return orderedWeights /\
    forall i, i < length (getConcatenatedTimeVector reindexerExample) ->
      exists p,
        nth_error timeOrder i = Some p /\
        p < length (getConcatenatedTimeVector reindexerExample) /\
        nth_error (rowData sortedMatrix) i = nth_error (rowData reindexerMatrix) p /\
        nth_error orderedWeights i = nth_error [7; 8; 9]%Q p /\
        nth_error times i = nth_error (getConcatenatedTimeVector reindexerExample) p.
Proof.
  apply (@X6_rows_weights_and_times_stay_together sizedObservables
           reindexerExample reindexerMatrix [7; 8; 9]%Q); reflexivity.
Defined.

Lemma X7_time_ordered_input_is_left_in_place_witness :
  getTimeOrderedInformationMatrix fourTimesExample fourTimesH =
  Return ((fourTimesH, [0; 1; 1; 3]%Q), [0; 1; 2; 3]).
Proof.
  apply (@X7_time_ordered_input_is_left_in_place sizedObservables
           fourTimesExample fourTimesH).
  - repeat constructor; unfold Qle; simpl; lia.
  - reflexivity.
Defined.

(** ** The covariance history: errors, edge cases and invariants *)

Lemma assign_increasing (key : TimeType) (value : MatrixXd) (h : History) :
  increasingKeys h -> increasingKeys (assign key value h).
Proof.
  unfold increasingKeys.
  induction 1 as [|[k v] r Hs IH Hk]; simpl; [repeat constructor|].
  destruct (key ?= k)%Q eqn:E.
  - constructor; [exact Hs | exact Hk].
  - apply Qlt_alt in E. constructor; [constructor; assumption|].
    constructor; [exact E|].
    eapply Forall_impl; [|exact Hk]. simpl. intros b Hb. lra.
  - apply Qgt_alt in E. constructor; [exact IH|].
    apply Forall_forall. intros [k' v'] Hin. simpl.
    apply assign_In_inv in Hin as [[Hk' _]|Hin]; [lra|].
    rewrite Forall_forall in Hk. apply (Hk _ Hin).
Qed.

(** The first query time at or after the last observation time: one pass,
    one entry. *)
Lemma calculate_one_pass {OM : ObservationModels} {DI : DenseInverse}
  {TA : TimeArithmetic} (md : PodInputType) (H : MatrixXd) (nf : VectorXd) (dt : Q)
  (w : VectorXd) (P : MatrixXd) (fuel : nat) :
  validInput md H nf w P ->
  (firstTime md < lastTime md)%Q ->
  (lastTime md <= plusAssign (firstTime md) dt)%Q ->
  calculateCovarianceMatrixAsFunctionOfTime (S (S fuel)) md H nf dt w P =
  Return [ (lastTime md,
            covarianceOfPrefix (permuteRows (sortOrderOf md) H)
                               (permuteCoeffs (sortOrderOf md) w)
                               (asDiagonal nf) P (length (orderedTimesOf md))) ].
Proof.
  intros Hvalid Hspan Hstep. rewrite calculate_as_loop by exact Hvalid.
  destruct (validInput_table md H nf w P Hvalid) as (Hne & HM & Hw).
  pose proof (timeLookupOf_in_range md Hne) as Hrange.
  rewrite covarianceLoop_step by assumption.
  replace (Qlt_bool (firstTime md)
                    (nth (length (orderedTimesOf md) - 1) (orderedTimesOf md) 0%Q))
    with true by (symmetry; apply Qlt_bool_iff; exact Hspan).
  destruct (loopBody_Return (orderedTimesOf md) (timeLookupOf md)
              (permuteRows (sortOrderOf md) H)
              (permuteCoeffs (sortOrderOf md) w) (asDiagonal nf) dt P Hrange HM Hw
              (firstTime md) []) as (j & Hj & Hjr & ->).
  cbn [bind fst snd].
  assert (Hlast : j = length (orderedTimesOf md) - 1).
  { eapply findCurrentIndex_last; [exact Hne | | exact Hj]. exact Hstep. }
  rewrite covarianceLoop_step by assumption.
  replace (Qlt_bool (plusAssign (firstTime md) dt)
                    (nth (length (orderedTimesOf md) - 1) (orderedTimesOf md) 0%Q))
    with false by (symmetry; apply Qlt_bool_false_iff; exact Hstep).
  subst j. replace (length (orderedTimesOf md) - 1 + 1) with (length (orderedTimesOf md)) by lia.
  reflexivity.
Qed.

Section HistoryFurther.

Context {OM : ObservationModels} {DI : DenseInverse} {TA : TimeArithmetic}.

Variables (md : PodInputType) (H : MatrixXd) (nf : VectorXd) (dt : Q)
          (w : VectorXd) (P : MatrixXd).

Lemma calculate_valid_never_throws (fuel : nat) (e : exception) :
  validInput md H nf w P ->
  calculateCovarianceMatrixAsFunctionOfTime fuel md H nf dt w P <> Throw e.
Proof.
  intros Hvalid. rewrite calculate_as_loop by exact Hvalid.
  destruct (validInput_table md H nf w P Hvalid) as (Hne & HM & Hw).
  destruct (covarianceLoop_Return_or_OutOfFuel (orderedTimesOf md) (timeLookupOf md)
              (permuteRows (sortOrderOf md) H) (permuteCoeffs (sortOrderOf md) w)
              (asDiagonal nf) dt P Hne (timeLookupOf_in_range md Hne) HM Hw fuel
              (firstTime md) [])
    as [(h & ->)| ->]; discriminate.
Qed.

(** X8.  The exception of a call is that of the first check that fails, in the
    order of the source: a-priori matrix not square, columns of the
    information matrix, number of normalization factors, number of weights,
    and last the number of rows against the number of time tags.  No call
    throws anything else: neither [std::out_of_range] from an [at( )] nor
    "output time not found". *)
Theorem X8_exception_of_the_first_failing_check (fuel : nat) :
  (cols P <> rows P ->
   calculateCovarianceMatrixAsFunctionOfTime fuel md H nf dt w P =
   Throw APrioriCovarianceNotSquare) /\
  (cols P = rows P -> cols H <> cols P ->
   calculateCovarianceMatrixAsFunctionOfTime fuel md H nf dt w P =
   Throw ParametersInconsistentWithInformationMatrix) /\
  (cols P = rows P -> cols H = cols P -> length nf <> cols P ->
   calculateCovarianceMatrixAsFunctionOfTime fuel md H nf dt w P =
   Throw ParametersInconsistentWithNormalizationFactors) /\
  (cols P = rows P -> cols H = cols P -> length nf = cols P -> rows H <> length w ->
   calculateCovarianceMatrixAsFunctionOfTime fuel md H nf dt w P =
   Throw WeightsInconsistentWithPartials) /\
  (consistentShapes H nf w P -> rows H <> length (getConcatenatedTimeVector md) ->
   calculateCovarianceMatrixAsFunctionOfTime fuel md H nf dt w P =
   Throw SortSizesIncompatible) /\
  (forall e,
      calculateCovarianceMatrixAsFunctionOfTime fuel md H nf dt w P = Throw e ->
      isShapeError e \/ e = SortSizesIncompatible).
Proof.
  unfold calculateCovarianceMatrixAsFunctionOfTime at 1 2 3 4 5, checkInputConsistency.
  repeat split.
  - intros H1. destruct (Nat.eqb_spec (cols P) (rows P)); [contradiction | reflexivity].
  - intros H1 H2. rewrite H1, Nat.eqb_refl, <- H1.
    destruct (Nat.eqb_spec (cols H) (cols P)); [contradiction | reflexivity].
  - intros H1 H2 H3. rewrite H1, Nat.eqb_refl, <- H1, H2, Nat.eqb_refl.
    destruct (Nat.eqb_spec (length nf) (cols P)); [contradiction | reflexivity].
  - intros H1 H2 H3 H4. rewrite H1, Nat.eqb_refl, <- H1, H2, Nat.eqb_refl, H3, Nat.eqb_refl.
    destruct (Nat.eqb_spec (rows H) (length w)); [contradiction | reflexivity].
  - intros (H1 & H2 & H3 & H4) H5.
    rewrite H1, Nat.eqb_refl, <- H1, H2, Nat.eqb_refl, H3, Nat.eqb_refl, H4, Nat.eqb_refl.
    cbn [bind]. rewrite getTimeOrderedInformationMatrix_Throw by exact H5.
    reflexivity.
  - intros e E. pose proof E as E'. apply calculate_Throw_inv in E'.
    destruct E' as [[He _]|[Hs [[-> _]| ->]]]; [left; exact He | right; reflexivity|].
    exfalso.
    destruct (Nat.eq_dec (rows H) (length (getConcatenatedTimeVector md))) as [Hrows|Hrows].
    + destruct (getConcatenatedTimeVector md) as [|t v] eqn:Hv.
      * unfold calculateCovarianceMatrixAsFunctionOfTime in E.
        destruct (checkInputConsistency_cases H nf w P) as [[Hc _]|(e & _ & _ & Hn)];
          [|contradiction].
        rewrite Hc in E. cbn [bind] in E.
        rewrite getTimeOrderedInformationMatrix_Return in E by (rewrite Hv; exact Hrows).
        cbn [bind fst snd] in E. rewrite Hv in E. cbn in E. discriminate.
      * eapply calculate_valid_never_throws; [|exact E].
        split; [exact Hs|]. split; [rewrite Hv; exact Hrows | rewrite Hv; discriminate].
    + unfold calculateCovarianceMatrixAsFunctionOfTime in E.
      destruct (checkInputConsistency_cases H nf w P) as [[Hc _]|(e & _ & _ & Hn)];
        [|contradiction].
      rewrite Hc in E. cbn [bind] in E.
      rewrite getTimeOrderedInformationMatrix_Throw in E by exact Hrows. discriminate.
Qed.

(** X9.  When all observation times are equal (a single observation, or
    simultaneous ones) the loop is not entered: for a valid input the function
    returns the empty history, whatever the output step is, non-positive
    included. *)
Theorem X9_equal_times_give_the_empty_history (fuel : nat) :
  validInput md H nf w P ->
  (forall x y, In x (getConcatenatedTimeVector md) ->
               In y (getConcatenatedTimeVector md) -> (x == y)%Q) ->
  calculateCovarianceMatrixAsFunctionOfTime (S fuel) md H nf dt w P = Return [].
Proof.
  intros Hvalid Hequal. rewrite calculate_as_loop by exact Hvalid.
  destruct (validInput_table md H nf w P Hvalid) as (Hne & HM & Hw).
  rewrite covarianceLoop_step by (try assumption; apply timeLookupOf_in_range, Hne).
  assert (Hv : getConcatenatedTimeVector md <> []) by apply Hvalid.
  destruct (first_isEarliest md Hv) as [Hfirst _].
  destruct (last_isLatest md Hv) as [Hlast _].
  specialize (Hequal _ _ Hlast Hfirst).
  replace (Qlt_bool (firstTime md)
                    (nth (length (orderedTimesOf md) - 1) (orderedTimesOf md) 0%Q))
    with false; [reflexivity|].
  symmetry. apply Qlt_bool_false_iff. unfold firstTime. lra.
Qed.

(** X10.  An output step at least as long as the span of the observations
    gives exactly one entry: for a valid input whose first ordered time is
    below the last, when the first query time (the first time plus the step,
    as rounded) is at or after the last time, the history holds the covariance
    of all rows, keyed by the last observation time, and nothing else.  With
    exact additions, and with [double]s when the last time is one, a step at
    least as long as the span makes it so. *)
Theorem X10_long_step_gives_one_entry (fuel : nat) :
  validInput md H nf w P ->
  (nth 0 (orderedTimesOf md) 0 <
   nth (length (orderedTimesOf md) - 1) (orderedTimesOf md) 0)%Q ->
  let oneEntry : outcome History :=
    Return [ (nth (length (orderedTimesOf md) - 1) (orderedTimesOf md) 0%Q,
              covarianceOfPrefix (permuteRows (sortOrderOf md) H)
                                 (permuteCoeffs (sortOrderOf md) w)
                                 (asDiagonal nf) P (length (orderedTimesOf md))) ] in
  ((nth (length (orderedTimesOf md) - 1) (orderedTimesOf md) 0 <=
    plusAssign (nth 0 (orderedTimesOf md) 0) dt)%Q ->
   calculateCovarianceMatrixAsFunctionOfTime (S (S fuel)) md H nf dt w P = oneEntry) /\
  ((nth (length (orderedTimesOf md) - 1) (orderedTimesOf md) 0 -
    nth 0 (orderedTimesOf md) 0 <= dt)%Q ->
   @calculateCovarianceMatrixAsFunctionOfTime OM DI exactTime (S (S fuel)) md H nf dt w P =
   oneEntry) /\
  ((nth (length (orderedTimesOf md) - 1) (orderedTimesOf md) 0 -
    nth 0 (orderedTimesOf md) 0 <= dt)%Q ->
   binary64.representable (nth (length (orderedTimesOf md) - 1) (orderedTimesOf md) 0%Q) ->
   @calculateCovarianceMatrixAsFunctionOfTime OM DI doubleTime (S (S fuel)) md H nf dt w P =
   oneEntry).
Proof.
  intros Hvalid Hspan oneEntry. split; [|split].
  - intros Hstep. apply calculate_one_pass; assumption.
  - intros Hstep.
    apply (@calculate_one_pass OM DI exactTime md H nf dt w P fuel Hvalid Hspan).
    unfold lastTime, firstTime. change (@plusAssign exactTime) with Qplus. lra.
  - intros Hstep Hlast.
    apply (@calculate_one_pass OM DI doubleTime md H nf dt w P fuel Hvalid Hspan).
    change (lastTime md <= binary64.round (firstTime md + dt))%Q.
    apply round_ge; [exact Hlast | unfold lastTime, firstTime; lra].
Qed.

(** X11.  In a returned history the keys increase strictly, so no time is
    keyed twice, and every key is an observation time of the input. *)
Theorem X11_keys_increase_and_are_observation_times (fuel : nat) (h : History) :
  calculateCovarianceMatrixAsFunctionOfTime fuel md H nf dt w P = Return h ->
  increasingKeys h /\
  forall k, hasKey k h ->
            exists x, In x (getConcatenatedTimeVector md) /\ (x == k)%Q.
Proof.
  intros E. pose proof (calculate_Return_valid md H nf dt w P fuel h E) as Hvalid. split.
  - rewrite calculate_as_loop in E by exact Hvalid.
    destruct (validInput_table md H nf w P Hvalid) as (Hne & HM & Hw).
    destruct (covarianceLoop_invariant (orderedTimesOf md) (timeLookupOf md) _ _
                (asDiagonal nf) dt P Hne (timeLookupOf_in_range md Hne) HM Hw
                (fun _ h => increasingKeys h))
      with (fuel := fuel) (t := firstTime md) (h := @nil (Q * MatrixXd))
           (h' := h) as (t' & Hinv & _).
    + intros t h0 j Hinv _ _ _. apply assign_increasing, Hinv.
    + constructor.
    + exact E.
    + exact Hinv.
  - intros k (k0 & V & Hin & Hk0).
    destruct (history_entries md H nf dt w P Hvalid fuel h E k0 V Hin) as (j & Hj & Hk & _).
    exists (nth j (orderedTimesOf md) 0%Q). split.
    + apply orderedTimesOf_In, nth_In, Hj.
    + rewrite <- Hk0, Hk. reflexivity.
Qed.

(** X12.  The entry at a key is computed from exactly the observations at or
    before that time: its value is the covariance of the first [j + 1] rows of
    the time-ordered table, and the rows whose time is not above the key are
    the rows 0 to [j]. *)
Theorem X12_entry_uses_the_observations_up_to_its_key
  (fuel : nat) (h : History) (k : TimeType) (V : MatrixXd) :
  calculateCovarianceMatrixAsFunctionOfTime fuel md H nf dt w P = Return h ->
  In (k, V) h ->
  exists j,
    j < length (orderedTimesOf md) /\
    V = covarianceOfPrefix (permuteRows (sortOrderOf md) H)
                           (permuteCoeffs (sortOrderOf md) w)
                           (asDiagonal nf) P (j + 1) /\
    forall i, i < length (orderedTimesOf md) ->
              ((nth i (orderedTimesOf md) 0 <= k)%Q <-> i <= j).
Proof.
  intros E Hin. pose proof (calculate_Return_valid md H nf dt w P fuel h E) as Hvalid.
  destruct (history_entries md H nf dt w P Hvalid fuel h E k V Hin)
    as (j & Hj & Hk & HV & Hend).
  exists j. split; [exact Hj|]. split; [exact HV|].
  intros i Hi. pose proof (orderedTimesOf_sorted md) as Hs. split.
  - intros Hle. destruct (Nat.le_gt_cases i j) as [Hij|Hij]; [exact Hij|]. exfalso.
    assert (Hnext : S j < length (orderedTimesOf md)) by lia.
    pose proof (StronglySorted_nth _ Hs j (S j) ltac:(lia)).
    pose proof (StronglySorted_nth _ Hs (S j) i ltac:(lia)).
    apply (Hend Hnext). lra.
  - intros Hij. rewrite Hk. apply StronglySorted_nth; [exact Hs | lia].
Qed.

End HistoryFurther.

Lemma X8_exception_of_the_first_failing_check_witness :
  @calculateCovarianceMatrixAsFunctionOfTime sizedObservables exactDenseInverse doubleTime
    3 twoTimesExample twoTimesH [2]%Q 2%Q [1; 1]%Q (mkMatrix 2 [ [1; 0] ]%Q) =
  Throw APrioriCovarianceNotSquare /\
  @calculateCovarianceMatrixAsFunctionOfTime sizedObservables exactDenseInverse doubleTime
    3 twoTimesExample (mkMatrix 1 [ [1]; [1]; [1] ]%Q) [2]%Q 2%Q [1; 1; 1]%Q twoTimesP =
  Throw SortSizesIncompatible.
Proof.
  split.
  - apply (@X8_exception_of_the_first_failing_check sizedObservables exactDenseInverse doubleTime
             twoTimesExample twoTimesH [2]%Q 2%Q [1; 1]%Q (mkMatrix 2 [ [1; 0] ]%Q) 3).
    discriminate.
  - apply (@X8_exception_of_the_first_failing_check sizedObservables exactDenseInverse doubleTime
             twoTimesExample (mkMatrix 1 [ [1]; [1]; [1] ]%Q) [2]%Q 2%Q [1; 1; 1]%Q
             twoTimesP 3).
    + repeat split.
    + discriminate.
Defined.

Lemma oneTime_valid :
  validInput oneTimeExample (mkMatrix 1 [ [1] ]%Q) [2]%Q [1]%Q twoTimesP.
Proof. repeat split. discriminate. Qed.

Lemma X9_equal_times_give_the_empty_history_witness :
  @calculateCovarianceMatrixAsFunctionOfTime sizedObservables exactDenseInverse doubleTime
    1 oneTimeExample (mkMatrix 1 [ [1] ]%Q) [2]%Q (-1)%Q [1]%Q twoTimesP = Return [].
Proof.
  apply (@X9_equal_times_give_the_empty_history sizedObservables exactDenseInverse doubleTime
           oneTimeExample (mkMatrix 1 [ [1] ]%Q) [2]%Q (-1)%Q [1]%Q twoTimesP 0
           oneTime_valid).
  intros x y [<-|[]] [<-|[]]. reflexivity.
Defined.

Lemma X10_long_step_gives_one_entry_witness :
  @calculateCovarianceMatrixAsFunctionOfTime sizedObservables exactDenseInverse doubleTime
    2 twoTimesExample twoTimesH [2]%Q 3%Q [1; 1]%Q twoTimesP =
  Return [ (3%Q, @covarianceOfPrefix exactDenseInverse
                   (permuteRows (sortOrderOf twoTimesExample) twoTimesH)
                   (permuteCoeffs (sortOrderOf twoTimesExample) [1; 1]%Q)
                   (asDiagonal [2]%Q) twoTimesP 2) ].
Proof.
  destruct (@X10_long_step_gives_one_entry sizedObservables exactDenseInverse doubleTime
              twoTimesExample twoTimesH [2]%Q 3%Q [1; 1]%Q twoTimesP 0 twoTimes_valid
              eq_refl) as (_ & _ & Hdouble).
  apply Hdouble.
  - vm_compute. discriminate.
  - vm_compute. reflexivity.
Defined.

Lemma X11_keys_increase_and_are_observation_times_witness :
  increasingKeys [ (0%Q, mkMatrix 1 [ [1 # 12] ]%Q); (3%Q, mkMatrix 1 [ [1 # 16] ]%Q) ] /\
  forall k,
    hasKey k [ (0%Q, mkMatrix 1 [ [1 # 12] ]%Q); (3%Q, mkMatrix 1 [ [1 # 16] ]%Q) ] ->
    exists x, In x (getConcatenatedTimeVector twoTimesExample) /\ (x == k)%Q.
Proof.
  apply (@X11_keys_increase_and_are_observation_times sizedObservables exactDenseInverse doubleTime
           twoTimesExample twoTimesH [2]%Q 2%Q [1; 1]%Q twoTimesP 3).
  apply twoTimes_history.
Defined.

Lemma X12_entry_uses_the_observations_up_to_its_key_witness :
  exists j,
    j < length (orderedTimesOf twoTimesExample) /\
    mkMatrix 1 [ [1 # 12] ]%Q =
    @covarianceOfPrefix exactDenseInverse
      (permuteRows (sortOrderOf twoTimesExample) twoTimesH)
      (permuteCoeffs (sortOrderOf twoTimesExample) [1; 1]%Q)
      (asDiagonal [2]%Q) twoTimesP (j + 1) /\
    forall i, i < length (orderedTimesOf twoTimesExample) ->
              ((nth i (orderedTimesOf twoTimesExample) 0 <= 0)%Q <-> i <= j).
Proof.
  apply (@X12_entry_uses_the_observations_up_to_its_key sizedObservables exactDenseInverse
      doubleTime
           twoTimesExample twoTimesH [2]%Q 2%Q [1; 1]%Q twoTimesP 3 _ 0%Q
           (mkMatrix 1 [ [1 # 12] ]%Q) twoTimes_history).
  left. reflexivity.
Defined.

Section FineStep.

Context {OM : ObservationModels} {DI : DenseInverse} {TA : TimeArithmetic}.

(** X13.  Query times that advance by less than every gap between two
    different observation times resolve all of them: for a valid input with
    two distinct observation times, when the first [n] additions of the step
    each increase the time, by less than the difference of any two different
    observation times, and bring it to the last observation time or beyond,
    the function returns a history in which every observation time of the
    input, the first included, is a key. *)
Theorem X13_short_step_keys_every_observation_time
  (md : PodInputType) (H : MatrixXd) (nf : VectorXd) (dt : Q) (w : VectorXd)
  (P : MatrixXd) (n : nat) :
  validInput md H nf w P ->
  (exists x y, In x (getConcatenatedTimeVector md) /\
               In y (getConcatenatedTimeVector md) /\ ~ (x == y)%Q) ->
  (lastTime md <= queryTime (firstTime md) dt n)%Q ->
  (forall k, k < n ->
     (queryTime (firstTime md) dt k < queryTime (firstTime md) dt (S k))%Q /\
     forall a b, In a (getConcatenatedTimeVector md) ->
                 In b (getConcatenatedTimeVector md) -> (a < b)%Q ->
                 (queryTime (firstTime md) dt (S k) - queryTime (firstTime md) dt k
                  < b - a)%Q) ->
  exists h,
    (forall fuel, S n <= fuel ->
       calculateCovarianceMatrixAsFunctionOfTime fuel md H nf dt w P = Return h) /\
    forall x, In x (getConcatenatedTimeVector md) -> hasKey x h.
Proof.
  intros Hvalid Hdistinct Hreach Hfine.
  destruct (calculate_returns md H nf dt w P n Hvalid Hreach) as (h & Hn).
  exists h. split; [exact Hn|].
  specialize (Hn (S n) (le_n _)). rewrite calculate_as_loop in Hn by exact Hvalid.
  destruct (validInput_table md H nf w P Hvalid) as (Hne & HM & Hw).
  pose proof (distinct_times_span md Hdistinct) as Hspan.
  fold (firstTime md) (lastTime md) in Hspan.
  pose proof (orderedTimesOf_sorted md) as Hs.
  set (ts := orderedTimesOf md) in *.
  set (q := queryTime (firstTime md) dt) in *.
  assert (Hfirst : forall x, In x ts -> (firstTime md <= x)%Q).
  { intros x Hx. apply (sorted_bounds ts x Hs Hx). }
  destruct (covarianceLoop_invariant ts (timeLookupOf md) _ _ (asDiagonal nf) dt P Hne
              (timeLookupOf_in_range md Hne) HM Hw
              (fun t h => exists k,
                   t = q k /\ (forall i, i < k -> (q i < lastTime md)%Q) /\
                   ((k = 0 /\ h = []) \/
                    (forall x, In x ts -> (x <= t)%Q -> hasKey x h))))
    with (fuel := S n) (t := firstTime md) (h := @nil (Q * MatrixXd)) (h' := h)
    as (t' & (k' & -> & Hbelow' & Hinv) & Ht').
  - intros t h0 j (k & -> & Hbelow & Hinv) Hlt Hj Hjr.
    change (q k < lastTime md)%Q in Hlt.
    exists (S k). split; [reflexivity|]. split.
    { intros i Hi. destruct (Nat.eq_dec i k) as [->|Hik]; [exact Hlt | apply Hbelow; lia]. }
    right. intros x Hx Hxt. change (plusAssign (q k) dt) with (q (S k)) in *.
    assert (Hk : k < n).
    { destruct (Nat.lt_ge_cases k n) as [Hk|Hk]; [exact Hk|]. exfalso.
      destruct (Nat.eq_dec n k) as [->|Hnk]; [lra|].
      specialize (Hbelow n ltac:(lia)). lra. }
    destruct (Hfine k Hk) as [Hadv Hjump].
    pose proof (findCurrentIndex_key_bounds ts Hs Hne _ j x Hj Hx Hxt) as [Hxk Hkt].
    assert (Hkey : In (nth j ts 0%Q) ts) by (apply nth_In; exact Hjr).
    apply assign_hasKey.
    destruct (Qlt_le_dec x (nth j ts 0%Q)) as [Hlow|Hge]; [|left; lra].
    assert (Hwide : (q (S k) - q k < nth j ts 0 - x)%Q)
      by (apply Hjump; [apply orderedTimesOf_In, Hx | apply orderedTimesOf_In, Hkey
                        | exact Hlow]).
    destruct Hinv as [[-> _]|Hall].
    + exfalso. specialize (Hfirst x Hx). change (q 0) with (firstTime md) in *. lra.
    + right. apply Hall; [exact Hx|]. lra.
  - exists 0. split; [reflexivity|]. split; [intros i Hi; lia|]. left. split; reflexivity.
  - exact Hn.
  - intros x Hx. apply orderedTimesOf_In in Hx. fold ts in Hx.
    destruct Hinv as [[-> _]|Hall].
    + exfalso. change (lastTime md <= firstTime md)%Q in Ht'. lra.
    + apply Hall; [exact Hx|].
      pose proof (sorted_bounds ts x Hs Hx) as [_ Hxl].
      change (x <= lastTime md)%Q in Hxl. change (lastTime md <= q k')%Q in Ht'. lra.
Qed.

End FineStep.

(** With [double]s, the times 0 and 3 and the step 2: the query times are 2
    and 4. *)
Lemma X13_short_step_keys_every_observation_time_witness :
  exists h,
    (forall fuel, 3 <= fuel ->
       @calculateCovarianceMatrixAsFunctionOfTime sizedObservables exactDenseInverse doubleTime
         fuel twoTimesExample twoTimesH [2]%Q 2%Q [1; 1]%Q twoTimesP = Return h) /\
    forall x, In x (getConcatenatedTimeVector twoTimesExample) -> hasKey x h.
Proof.
  apply (@X13_short_step_keys_every_observation_time
           sizedObservables exactDenseInverse doubleTime
           twoTimesExample twoTimesH [2]%Q 2%Q [1; 1]%Q twoTimesP 2
           twoTimes_valid twoTimes_distinct).
  - vm_compute. discriminate.
  - intros k Hk.
    assert (Hc : k = 0 \/ k = 1) by lia.
    destruct Hc as [-> | ->].
    + split; [reflexivity|].
      intros a b [<-|[<-|[]]] [<-|[<-|[]]] Hab; try reflexivity;
        exfalso; revert Hab; unfold Qlt; simpl; lia.
    + split; [reflexivity|].
      intros a b [<-|[<-|[]]] [<-|[<-|[]]] Hab; try reflexivity;
        exfalso; revert Hab; unfold Qlt; simpl; lia.
Defined.

(** ** The unified-state-model conversions *)

Section UnifiedStateModel.

Import orbital_element_conversions.

Context {ScalarType : Type} {EC : ElementConversions ScalarType}.

(** X14.  The two templates compose to a round trip: when the casts between
    [ScalarType] and [double] lose nothing, and the Keplerian elements of a
    Cartesian state come back both from their unified-state-model elements and
    from the Cartesian state they convert to, converting the Cartesian state
    to unified-state-model elements and back with the same gravitational
    parameter returns the Cartesian state. *)
Theorem X14_cartesian_round_trip
  (cartesianElements : list ScalarType) (centralBodyGravitationalParameter : ScalarType) :
  let keplerianElements :=
    convertCartesianToKeplerianElements cartesianElements centralBodyGravitationalParameter in
  (forall x, castToDouble (castFromDouble x) = x) ->
  (forall x, castFromDouble (castToDouble x) = x) ->
  convertUnifiedStateModelWithQuaternionsToKeplerianElements
    (convertKeplerianToUnifiedStateModelWithQuaternionsElements
       (map castToDouble keplerianElements)
       (castToDouble centralBodyGravitationalParameter))
    (castToDouble centralBodyGravitationalParameter) =
  map castToDouble keplerianElements ->
  convertKeplerianToCartesianElements keplerianElements centralBodyGravitationalParameter =
  cartesianElements ->
  convertUnifiedStateModelWithQuaternionsToCartesianElements
    (convertCartesianToUnifiedStateModelWithQuaternionsElements
       cartesianElements centralBodyGravitationalParameter)
    centralBodyGravitationalParameter =
  cartesianElements.
Proof.
  intros keplerianElements HtoFrom HfromTo Husm Hcartesian.
  unfold convertUnifiedStateModelWithQuaternionsToCartesianElements,
         convertCartesianToUnifiedStateModelWithQuaternionsElements.
  fold keplerianElements.
  rewrite (map_map castFromDouble castToDouble).
  rewrite (map_ext _ (fun x => x) HtoFrom), map_id, Husm.
  rewrite (map_map castToDouble castFromDouble).
  rewrite (map_ext _ (fun x => x) HfromTo), map_id.
  exact Hcartesian.
Qed.

End UnifiedStateModel.

Lemma X14_cartesian_round_trip_witness :
  @orbital_element_conversions.convertUnifiedStateModelWithQuaternionsToCartesianElements
    Q listConversions
    (@orbital_element_conversions.convertCartesianToUnifiedStateModelWithQuaternionsElements
       Q listConversions [1; 2; 3; 4; 5; 6]%Q 7%Q)
    7%Q =
  [1; 2; 3; 4; 5; 6]%Q.
Proof.
  apply (@X14_cartesian_round_trip Q listConversions [1; 2; 3; 4; 5; 6]%Q 7%Q);
    reflexivity.
Defined.

(** ** The capture leg *)

Section CaptureLegProperties.

Import spaceTrajectories.

Context {MS : MissionSegments}.

Lemma resize_then_assign_first (A : Type) (new x : A) (v : list A) :
  Std.set_nth 0 x (resize 1 new v) = [x].
Proof. destruct v as [|y [|z v]]; reflexivity. Qed.

(** The delta V that [calculateLeg] stores for a velocity before the
    departure body. *)
Let captureDeltaV (velocityBeforeDepartureBody : Vector3d) (leg : CaptureLeg) : double :=
  computeEscapeOrCaptureDeltaV
    (captureBodyGravitationalParameter_ leg) (semiMajorAxis_ leg) (eccentricity_ leg)
    (norm (vectorMinus velocityBeforeDepartureBody (departureBodyVelocity_ leg))).

(** X15.  [maneuvers] reports exactly one maneuver, whatever the three vectors
    held before: at the position of the departure body, at the time
    [0.0 + startingTime], with the delta V of the leg; for a leg that was not
    calculated yet (velocity after departure starting with NaN) this is the
    capture delta V for the current velocity before the departure body, which
    the call computes and stores. *)
Theorem X15_maneuvers_reports_one_maneuver
  (velocityBeforeDepartureBody : Vector3d) (positionVector : list Vector3d)
  (timeVector deltaVVector : list double) (startingTime : double) (leg : CaptureLeg) :
  let result := maneuvers velocityBeforeDepartureBody positionVector timeVector
                          deltaVVector startingTime leg in
  snd result = ([departureBodyPosition_ leg], [plus (Finite 0) startingTime],
                [deltaV_ (fst result)]) /\
  (isnan (coeff0 (velocityAfterDeparture_ leg)) = true ->
   deltaV_ (fst result) = captureDeltaV velocityBeforeDepartureBody leg /\
   velocityAfterDeparture_ (fst result) = departureBodyVelocity_ leg).
Proof.
  unfold maneuvers, calculateIfNeeded. cbn zeta.
  destruct (isnan (coeff0 (velocityAfterDeparture_ leg))) eqn:Eflag;
    cbn [fst snd]; rewrite !resize_then_assign_first; split; try reflexivity;
    try discriminate.
  intros _. split; reflexivity.
Qed.

(** X16.  The calculation is cached: once [calculateLeg] has run on a leg
    whose departure-body velocity does not start with NaN, a later [maneuvers]
    does not calculate again.  It leaves the leg as it is and reports the
    delta V of the velocity before the departure body at the time of
    [calculateLeg], also when that velocity has changed since. *)
Theorem X16_maneuvers_reuses_the_calculated_leg
  (velocityAtCalculation velocityNow : Vector3d) (positionVector : list Vector3d)
  (timeVector deltaVVector : list double) (startingTime : double) (leg : CaptureLeg) :
  isnan (coeff0 (departureBodyVelocity_ leg)) = false ->
  let calculated := fst (calculateLeg velocityAtCalculation leg) in
  maneuvers velocityNow positionVector timeVector deltaVVector startingTime calculated =
  (calculated,
   ([departureBodyPosition_ leg], [plus (Finite 0) startingTime],
    [captureDeltaV velocityAtCalculation leg])).
Proof.
  intros Hflag calculated. subst calculated. unfold captureDeltaV.
  destruct leg as [position velocity velocityAfter deltaV timeOfFlight mu muCapture a e].
  unfold maneuvers. cbn zeta. rewrite !resize_then_assign_first.
  unfold calculateIfNeeded. cbn in *. rewrite Hflag. reflexivity.
Qed.

(** X17.  The flag fails for a departure body whose velocity starts with NaN:
    [calculateLeg] then leaves the velocity after departure starting with NaN,
    and every later [maneuvers] calculates again, from the velocity before the
    departure body at the time of that call. *)
Theorem X17_nan_departure_velocity_is_never_flagged
  (velocityAtCalculation velocityNow : Vector3d) (positionVector : list Vector3d)
  (timeVector deltaVVector : list double) (startingTime : double) (leg : CaptureLeg) :
  isnan (coeff0 (departureBodyVelocity_ leg)) = true ->
  let calculated := fst (calculateLeg velocityAtCalculation leg) in
  isnan (coeff0 (velocityAfterDeparture_ calculated)) = true /\
  snd (maneuvers velocityNow positionVector timeVector deltaVVector startingTime calculated) =
  ([departureBodyPosition_ leg], [plus (Finite 0) startingTime],
   [captureDeltaV velocityNow leg]).
Proof.
  intros Hflag calculated. subst calculated. unfold captureDeltaV.
  destruct leg as [position velocity velocityAfter deltaV timeOfFlight mu muCapture a e].
  split; [exact Hflag|].
  unfold maneuvers. cbn zeta. rewrite !resize_then_assign_first.
  unfold calculateIfNeeded. cbn in *. rewrite Hflag. reflexivity.
Qed.

(** X18.  [updateDefiningVariables] reads element 0 of its vector unchecked,
    which is undefined behaviour for an empty vector; otherwise it changes the
    time of flight and nothing else: the leg stays calculated or not as it
    was, and [maneuvers] reports afterwards what it reported before. *)
Theorem X18_updateDefiningVariables_keeps_the_maneuver
  (variableVector : list double) (leg : CaptureLeg) :
  (variableVector = [] -> updateDefiningVariables variableVector leg = Undefined) /\
  (forall updated,
      updateDefiningVariables variableVector leg = Return updated ->
      timeOfFlight_ updated = hd NaN variableVector /\
      velocityAfterDeparture_ updated = velocityAfterDeparture_ leg /\
      deltaV_ updated = deltaV_ leg /\
      forall velocityBeforeDepartureBody positionVector timeVector deltaVVector startingTime,
        snd (maneuvers velocityBeforeDepartureBody positionVector timeVector deltaVVector
                       startingTime updated) =
        snd (maneuvers velocityBeforeDepartureBody positionVector timeVector deltaVVector
                       startingTime leg)).
Proof.
  split; [intros ->; reflexivity|].
  intros updated E. destruct variableVector as [|t rest]; [discriminate|].
  injection E as <-. repeat split.
  intros v pv tv dv s. unfold maneuvers, calculateIfNeeded. cbn zeta.
  cbn [setTimeOfFlight velocityAfterDeparture_].
  destruct (isnan (coeff0 (velocityAfterDeparture_ leg)));
    cbn [snd]; rewrite !resize_then_assign_first; reflexivity.
Qed.

(** X19.  For a leg not calculated before, [intermediatePoints] samples the
    trajectory from the position of the departure body with the velocity of the
    departure body itself, and its calculation is the one a later [maneuvers]
    reuses: when that velocity does not start with NaN, [maneuvers] reports
    the delta V of the velocity before the departure body at the time of
    [intermediatePoints] and leaves the leg as it found it. *)
Theorem X19_intermediatePoints_calculates_for_later_calls
  (velocityAtSampling velocityNow : Vector3d) (maximumTimeStep : double)
  (positionVector positionVector' : list Vector3d)
  (timeVector timeVector' deltaVVector : list double) (startingTime startingTime' : double)
  (leg : CaptureLeg) :
  isnan (coeff0 (velocityAfterDeparture_ leg)) = true ->
  isnan (coeff0 (departureBodyVelocity_ leg)) = false ->
  let result := intermediatePoints velocityAtSampling maximumTimeStep
                                   positionVector timeVector startingTime leg in
  snd result =
  returnTrajectory
    [ coeff0 (departureBodyPosition_ leg); coeff1 (departureBodyPosition_ leg);
      coeff2 (departureBodyPosition_ leg);
      coeff0 (departureBodyVelocity_ leg); coeff1 (departureBodyVelocity_ leg);
      coeff2 (departureBodyVelocity_ leg) ]
    (centralBodyGravitationalParameter_ leg) (timeOfFlight_ leg) maximumTimeStep
    positionVector timeVector startingTime /\
  maneuvers velocityNow positionVector' timeVector' deltaVVector startingTime' (fst result) =
  (fst result,
   ([departureBodyPosition_ leg], [plus (Finite 0) startingTime'],
    [captureDeltaV velocityAtSampling leg])).
Proof.
  intros Hfresh Hflag. unfold captureDeltaV.
  destruct leg as [position velocity velocityAfter deltaV timeOfFlight mu muCapture a e].
  unfold maneuvers, intermediatePoints. cbn zeta. rewrite !resize_then_assign_first.
  unfold calculateIfNeeded. cbn in *. rewrite Hfresh. cbn. rewrite Hflag.
  split; reflexivity.
Qed.

End CaptureLegProperties.

Lemma X15_maneuvers_reports_one_maneuver_witness :
  let velocityBefore :=
    spaceTrajectories.mkVector3d (spaceTrajectories.Finite 9) (spaceTrajectories.Finite 5)
                                 (spaceTrajectories.Finite 6) in
  let result :=
    @spaceTrajectories.maneuvers plainMissionSegments velocityBefore
      [] [spaceTrajectories.Finite 1; spaceTrajectories.Finite 2] []
      (spaceTrajectories.Finite 100) freshLeg in
  spaceTrajectories.deltaV_ (fst result) = spaceTrajectories.Finite (9 - 4) /\
  spaceTrajectories.velocityAfterDeparture_ (fst result) =
  spaceTrajectories.departureBodyVelocity_ freshLeg.
Proof.
  apply (@X15_maneuvers_reports_one_maneuver plainMissionSegments
           (spaceTrajectories.mkVector3d (spaceTrajectories.Finite 9)
              (spaceTrajectories.Finite 5) (spaceTrajectories.Finite 6))
           [] [spaceTrajectories.Finite 1; spaceTrajectories.Finite 2] []
           (spaceTrajectories.Finite 100) freshLeg).
  reflexivity.
Defined.

Lemma X16_maneuvers_reuses_the_calculated_leg_witness :
  let velocityAtCalculation :=
    spaceTrajectories.mkVector3d (spaceTrajectories.Finite 9) (spaceTrajectories.Finite 5)
                                 (spaceTrajectories.Finite 6) in
  let velocityNow :=
    spaceTrajectories.mkVector3d (spaceTrajectories.Finite 20) (spaceTrajectories.Finite 5)
                                 (spaceTrajectories.Finite 6) in
  let calculated :=
    fst (@spaceTrajectories.calculateLeg plainMissionSegments velocityAtCalculation freshLeg) in
  @spaceTrajectories.maneuvers plainMissionSegments velocityNow [] [] []
    (spaceTrajectories.Finite 100) calculated =
  (calculated,
   ([spaceTrajectories.departureBodyPosition_ freshLeg],
    [spaceTrajectories.plus (spaceTrajectories.Finite 0) (spaceTrajectories.Finite 100)],
    [spaceTrajectories.Finite (9 - 4)])).
Proof.
  apply (@X16_maneuvers_reuses_the_calculated_leg plainMissionSegments
           (spaceTrajectories.mkVector3d (spaceTrajectories.Finite 9)
              (spaceTrajectories.Finite 5) (spaceTrajectories.Finite 6))
           (spaceTrajectories.mkVector3d (spaceTrajectories.Finite 20)
              (spaceTrajectories.Finite 5) (spaceTrajectories.Finite 6))
           [] [] [] (spaceTrajectories.Finite 100) freshLeg).
  reflexivity.
Defined.

(** A leg whose departure body has a velocity that starts with NaN. *)
Lemma X17_nan_departure_velocity_is_never_flagged_witness :
  let nanLeg :=
    spaceTrajectories.mkCaptureLeg
      (spaceTrajectories.departureBodyPosition_ freshLeg)
      (spaceTrajectories.mkVector3d spaceTrajectories.NaN (spaceTrajectories.Finite 5)
                                    (spaceTrajectories.Finite 6))
      (spaceTrajectories.velocityAfterDeparture_ freshLeg)
      spaceTrajectories.NaN (spaceTrajectories.Finite 10) (spaceTrajectories.Finite 1)
      (spaceTrajectories.Finite 1) (spaceTrajectories.Finite 7)
      (spaceTrajectories.Finite 0) in
  let velocity :=
    spaceTrajectories.mkVector3d (spaceTrajectories.Finite 9) (spaceTrajectories.Finite 5)
                                 (spaceTrajectories.Finite 6) in
  spaceTrajectories.isnan
    (spaceTrajectories.coeff0
       (spaceTrajectories.velocityAfterDeparture_
          (fst (@spaceTrajectories.calculateLeg plainMissionSegments velocity nanLeg)))) = true.
Proof.
  intros nanLeg velocity.
  apply (@X17_nan_departure_velocity_is_never_flagged plainMissionSegments
           velocity velocity [] [] [] (spaceTrajectories.Finite 100) nanLeg).
  reflexivity.
Defined.

Lemma X18_updateDefiningVariables_keeps_the_maneuver_witness :
  spaceTrajectories.updateDefiningVariables [] freshLeg = Undefined /\
  spaceTrajectories.deltaV_
    (spaceTrajectories.setTimeOfFlight (spaceTrajectories.Finite 50) freshLeg) =
  spaceTrajectories.deltaV_ freshLeg.
Proof.
  destruct (@X18_updateDefiningVariables_keeps_the_maneuver plainMissionSegments
              [] freshLeg) as [Hempty _].
  destruct (@X18_updateDefiningVariables_keeps_the_maneuver plainMissionSegments
              [spaceTrajectories.Finite 50] freshLeg) as [_ Hupdated].
  split; [apply Hempty; reflexivity|].
  apply (Hupdated (spaceTrajectories.setTimeOfFlight (spaceTrajectories.Finite 50) freshLeg)).
  reflexivity.
Defined.

Lemma X19_intermediatePoints_calculates_for_later_calls_witness :
  let velocityAtSampling :=
    spaceTrajectories.mkVector3d (spaceTrajectories.Finite 9) (spaceTrajectories.Finite 5)
                                 (spaceTrajectories.Finite 6) in
  let velocityNow :=
    spaceTrajectories.mkVector3d (spaceTrajectories.Finite 20) (spaceTrajectories.Finite 5)
                                 (spaceTrajectories.Finite 6) in
  let result :=
    @spaceTrajectories.intermediatePoints plainMissionSegments velocityAtSampling
      (spaceTrajectories.Finite 1) [] [] (spaceTrajectories.Finite 0) freshLeg in
  @spaceTrajectories.maneuvers plainMissionSegments velocityNow [] [] []
    (spaceTrajectories.Finite 100) (fst result) =
  (fst result,
   ([spaceTrajectories.departureBodyPosition_ freshLeg],
    [spaceTrajectories.plus (spaceTrajectories.Finite 0) (spaceTrajectories.Finite 100)],
    [spaceTrajectories.Finite (9 - 4)])).
Proof.
  apply (@X19_intermediatePoints_calculates_for_later_calls plainMissionSegments
           (spaceTrajectories.mkVector3d (spaceTrajectories.Finite 9)
              (spaceTrajectories.Finite 5) (spaceTrajectories.Finite 6))
           (spaceTrajectories.mkVector3d (spaceTrajectories.Finite 20)
              (spaceTrajectories.Finite 5) (spaceTrajectories.Finite 6))
           (spaceTrajectories.Finite 1) [] [] [] [] [] (spaceTrajectories.Finite 0)
           (spaceTrajectories.Finite 100) freshLeg);
    reflexivity.
Defined.
